(** * Storage manager and settings persistence of the dashboard firmware

    A shallow embedding of [components/sd_card_manager/sd_card_manager.c],
    of [s_example_write_file] from [main/sd_card.c] and of
    [main/ui/settings_config.c].  The C functions become computations in a
    small state monad over the module's static variables and a model of
    the outside world (FreeRTOS mutexes, the SPI and FAT drivers, the host
    file API).  Every answer the outside world gives is taken from an
    oracle, so a statement that quantifies over the machine covers every
    behaviour of the medium and of the scheduler. *)

From Stdlib Require Import ZArith List String Ascii Bool Lia QArith Qround.
Import ListNotations.

Local Open Scope string_scope.
Local Open Scope Z_scope.

(* ================================================================== *)
(** * Error codes of the SDK ([esp_err.h]) *)

Definition esp_err_t := Z.

Definition ESP_OK : esp_err_t := 0.
Definition ESP_FAIL : esp_err_t := -1.
Definition ESP_ERR_NO_MEM : esp_err_t := 257.            (* 0x101 *)
Definition ESP_ERR_INVALID_STATE : esp_err_t := 259.     (* 0x103 *)
Definition ESP_ERR_NOT_FOUND : esp_err_t := 261.         (* 0x105 *)
Definition ESP_ERR_TIMEOUT : esp_err_t := 263.           (* 0x107 *)
Definition ESP_ERR_INVALID_RESPONSE : esp_err_t := 264.  (* 0x108 *)

(** C [int] is 32 bits wide on the target, [uint64_t] is 64. *)
Definition INT_MIN : Z := - 2 ^ 31.
Definition INT_MAX : Z := 2 ^ 31 - 1.
Definition uint64 (z : Z) : Z := z mod 2 ^ 64.

(* ================================================================== *)
(** * C strings *)

Definition quote : ascii := "034"%char.
Definition nul : ascii := "000"%char.
Definition slash : ascii := "/"%char.

Definition newline : string := String "010"%char EmptyString.

Definition strlen (s : string) : nat := String.length s.

(** What a [char] buffer holds when read as a C string: the bytes up to
    the first NUL. *)
Fixpoint c_str (buf : string) : string :=
  match buf with
  | EmptyString => EmptyString
  | String c r => if Ascii.eqb c nul then EmptyString else String c (c_str r)
  end.

Fixpoint string_drop (n : nat) (s : string) : string :=
  match n, s with
  | O, _ => s
  | S k, String _ r => string_drop k r
  | S _, EmptyString => EmptyString
  end.

Fixpoint string_take (n : nat) (s : string) : string :=
  match n, s with
  | S k, String c r => String c (string_take k r)
  | _, _ => EmptyString
  end.

(** [strstr haystack needle]: the suffix of [haystack] that starts at the
    first occurrence of [needle], [None] for a NULL result. *)
Fixpoint strstr (haystack needle : string) : option string :=
  if String.prefix needle haystack then Some haystack
  else match haystack with
       | EmptyString => None
       | String _ r => strstr r needle
       end.

(** [strrchr s c] as the offset of the last [c] in [s]. *)
Fixpoint strrchr (s : string) (c : ascii) : option nat :=
  match s with
  | EmptyString => None
  | String d r =>
      match strrchr r c with
      | Some i => Some (S i)
      | None => if Ascii.eqb d c then Some O else None
      end
  end.

(** [strncmp a b n == 0]. *)
Fixpoint strncmp_zero (a b : string) (n : nat) : bool :=
  match n with
  | O => true
  | S k =>
      match a, b with
      | EmptyString, EmptyString => true
      | String x a', String y b' => Ascii.eqb x y && strncmp_zero a' b' k
      | _, _ => false
      end
  end.

(** [snprintf] into a buffer of [size] bytes keeps [size - 1] characters. *)
Definition snprintf (size : nat) (text : string) : string :=
  string_take (size - 1) text.

(** ** Decimal conversion: [%d] and [atoi] *)

Definition digit_char (d : Z) : ascii := ascii_of_nat (48 + Z.to_nat d).

Definition isdigit (c : ascii) : bool :=
  ((48 <=? nat_of_ascii c) && (nat_of_ascii c <=? 57))%nat.

Definition digit_val (c : ascii) : Z := Z.of_nat (nat_of_ascii c) - 48.

Definition isspace (c : ascii) : bool :=
  ((nat_of_ascii c =? 32) || ((9 <=? nat_of_ascii c) && (nat_of_ascii c <=? 13)))%nat.

(** Digits of a non-negative number in front of [acc], most significant
    first; an [int] has at most ten of them. *)
Fixpoint utoa_aux (fuel : nat) (n : Z) (acc : string) : string :=
  match fuel with
  | O => acc
  | S f =>
      let acc' := String (digit_char (n mod 10)) acc in
      if n <? 10 then acc' else utoa_aux f (n / 10) acc'
  end.

Definition utoa (n : Z) : string := utoa_aux 10 n EmptyString.

(** The text [%d] prints for an [int]. *)
Definition itoa (z : Z) : string :=
  if z <? 0 then String "-"%char (utoa (- z)) else utoa z.

Fixpoint skip_space (s : string) : string :=
  match s with
  | String c r => if isspace c then skip_space r else s
  | EmptyString => s
  end.

Fixpoint parse_digits (s : string) (acc : Z) : Z :=
  match s with
  | String c r => if isdigit c then parse_digits r (acc * 10 + digit_val c) else acc
  | EmptyString => acc
  end.

Definition clamp_int (z : Z) : Z := Z.max INT_MIN (Z.min INT_MAX z).

(** [atoi] of the C library is [(int) strtol (s, NULL, 10)]: leading white
    space, an optional sign, then digits; the library saturates at the
    ends of the range. *)
Definition atoi (s : string) : Z :=
  match skip_space s with
  | String c r =>
      if Ascii.eqb c "-"%char then clamp_int (- parse_digits r 0)
      else if Ascii.eqb c "+"%char then clamp_int (parse_digits r 0)
      else clamp_int (parse_digits (String c r) 0)
  | EmptyString => 0
  end.

(** A format string handed to [fprintf] without arguments is written as
    it stands only when it holds no conversion. *)
Fixpoint has_percent (s : string) : bool :=
  match s with
  | EmptyString => false
  | String c r => Ascii.eqb c "%"%char || has_percent r
  end.

(* ================================================================== *)
(** * Single-precision arithmetic

    [float] values are IEEE binary32.  The values the stability test
    computes are positive and far from the ends of the exponent range, so
    a value is kept as the rational it denotes and every operation rounds
    its exact result to 24 significant bits, ties to even. *)

Definition round_half_even (q : Q) : Z :=
  let f := Qfloor q in
  match Qcompare (q - inject_Z f) (1 # 2) with
  | Lt => f
  | Gt => f + 1
  | Eq => if Z.even f then f else f + 1
  end.

(** Exponent of the leading bit of a positive rational. *)
Definition ilog2 (q : Q) : Z :=
  let l := Z.log2 (Qnum q) - Z.log2 (Zpos (Qden q)) in
  if Qle_bool (Qpower 2 l) q then l else l - 1.

Definition f32_round (q : Q) : Q :=
  if Qle_bool q 0 then 0%Q
  else
    let e := ilog2 q - 23 in
    Qred (inject_Z (round_half_even (q / Qpower 2 e)) * Qpower 2 e).

Definition f32_of_int (n : Z) : Q := f32_round (inject_Z n).
Definition f32_div (a b : Q) : Q := f32_round (a / b).
Definition f32_mul (a b : Q) : Q := f32_round (a * b).
Definition f32_add (a b : Q) : Q := f32_round (a + b).
Definition f32_ge (a b : Q) : bool := Qle_bool b a.


(* ================================================================== *)
(** * The outside world *)

(** The fields of [sdmmc_card_t] the manager reads: [csd.capacity] and
    [csd.sector_size], both [int]. *)
Record sdmmc_card_t := {
  csd_capacity : Z;
  csd_sector_size : Z
}.

Inductive fmode := mode_r | mode_w | mode_a.

(** A [FILE*] is the path it was opened on; a [SemaphoreHandle_t] is the
    serial number of the mutex. *)
Definition FILE := string.
Definition SemaphoreHandle_t := nat.

(** [portMAX_DELAY] is the tick count [None]. *)
Definition TickType_t := option Z.
Definition portMAX_DELAY : TickType_t := None.
Definition pdMS_TO_TICKS (ms : Z) : TickType_t := Some ms.

Inductive event :=
| EvDelay (ms : Z)
| EvBusInit (ret : esp_err_t)
| EvBusFree (ret : esp_err_t)
| EvMount (format_if_mount_failed : bool) (max_freq_khz : Z) (ret : esp_err_t)
| EvUnmount (ret : esp_err_t)
| EvMutexCreate (h : option SemaphoreHandle_t)
| EvMutexDelete (h : SemaphoreHandle_t)
| EvTake (h : SemaphoreHandle_t) (wait : TickType_t) (taken : bool)
| EvGive (h : SemaphoreHandle_t)
| EvOpendir (path : string) (ok : bool)
| EvMkdir (path : string) (ok : bool)
| EvFopen (path : string) (mode : fmode) (ok : bool)
| EvFwrite (path : string) (data : string)
| EvFread (path : string) (count : nat) (buffer : string)
| EvFclose (path : string)
| EvRemove (path : string)
| EvSaveResult (result : esp_err_t).

(** One answer of the outside world; a call reads the field it needs. *)
Record answer := {
  a_ok : bool;               (* the call succeeds *)
  a_err : esp_err_t;         (* the code a driver call returns *)
  a_count : nat;             (* bytes a write transfers *)
  a_card : sdmmc_card_t;     (* the card a mount finds *)
  a_bytes : option string;   (* [Some d]: the medium returns [d] instead of the stored bytes *)
  a_junk : string            (* what an uninitialised buffer holds *)
}.

Definition fs := list (string * string).

Fixpoint fs_get (f : fs) (path : string) : option string :=
  match f with
  | [] => None
  | (p, d) :: r => if String.eqb p path then Some d else fs_get r path
  end.

Fixpoint fs_del (f : fs) (path : string) : fs :=
  match f with
  | [] => []
  | (p, d) :: r => if String.eqb p path then fs_del r path else (p, d) :: fs_del r path
  end.

Definition fs_put (f : fs) (path data : string) : fs :=
  (path, data) :: fs_del f path.

Record world := {
  clk : nat;                   (* answers consumed so far *)
  oracle : nat -> answer;
  trace : list event;          (* newest event first *)
  files : fs;
  next_sem : SemaphoreHandle_t
}.

Definition emit (e : event) (w : world) : world :=
  {| clk := clk w; oracle := oracle w; trace := e :: trace w;
     files := files w; next_sem := next_sem w |}.

Definition tick (w : world) : world :=
  {| clk := S (clk w); oracle := oracle w; trace := trace w;
     files := files w; next_sem := next_sem w |}.

Definition set_files (f : fs) (w : world) : world :=
  {| clk := clk w; oracle := oracle w; trace := trace w;
     files := f; next_sem := next_sem w |}.

Definition bump_sem (w : world) : world :=
  {| clk := clk w; oracle := oracle w; trace := trace w;
     files := files w; next_sem := S (next_sem w) |}.

(* ================================================================== *)
(** * The monad

    A machine is the static variables of a translation unit together with
    the world.  A computation either returns or is stopped by a failed
    assertion of the kernel ([Abort]). *)

Section Monad.

Context {St : Type}.

Record machine := { statics : St; wld : world }.

Inductive outcome (A : Type) :=
| Done (a : A) (m : machine)
| Abort (m : machine).

Definition M (A : Type) := machine -> outcome A.

Definition Return {A} (a : A) : M A := fun m => Done A a m.

Definition bind {A B} (c : M A) (k : A -> M B) : M B :=
  fun m => match c m with
           | Done _ a m' => k a m'
           | Abort _ m' => Abort B m'
           end.

Definition final {A} (o : outcome A) : machine :=
  match o with Done _ _ m => m | Abort _ m => m end.

Definition gets {A} (f : St -> A) : M A := fun m => Done A (f (statics m)) m.

Definition modify (f : St -> St) : M unit :=
  fun m => Done unit tt {| statics := f (statics m); wld := wld m |}.

Definition on_world (f : world -> world) : M unit :=
  fun m => Done unit tt {| statics := statics m; wld := f (wld m) |}.

Definition log (e : event) : M unit := on_world (emit e).

(** The next answer of the outside world. *)
Definition ask : M answer :=
  fun m => Done answer (oracle (wld m) (clk (wld m)))
                {| statics := statics m; wld := tick (wld m) |}.

Definition abort {A} : M A := fun m => Abort A m.

End Monad.

Arguments machine : clear implicits.
Arguments outcome : clear implicits.
Arguments M : clear implicits.
Arguments Done {St A}.
Arguments Abort {St A}.

Notation "x <- c ;; k" := (bind c (fun x => k))
  (right associativity, at level 61, c at next level).
Notation "c ;; k" := (bind c (fun _ => k))
  (right associativity, at level 61).

(** ** FreeRTOS *)

Section Primitives.

Context {St : Type}.

Definition vTaskDelay (ms : Z) : M St unit := log (EvDelay ms).

(** [xSemaphoreCreateMutex] returns NULL when the heap is exhausted. *)
Definition xSemaphoreCreateMutex : M St (option SemaphoreHandle_t) :=
  a <- ask ;;
  if a_ok a then
    h <- (fun m => Done (next_sem (wld m)) m) ;;
    on_world bump_sem ;;
    log (EvMutexCreate (Some h)) ;;
    Return (Some h)
  else
    log (EvMutexCreate None) ;;
    Return None.

Definition vSemaphoreDelete (h : SemaphoreHandle_t) : M St unit :=
  log (EvMutexDelete h).

(** The kernel asserts that the handle is not NULL.  A wait of
    [portMAX_DELAY] does not time out; a bounded wait is granted or not by
    the scheduler. *)
Definition xSemaphoreTake (h : option SemaphoreHandle_t) (wait : TickType_t) : M St bool :=
  match h with
  | None => abort
  | Some h =>
      match wait with
      | None => log (EvTake h wait true) ;; Return true
      | Some _ =>
          a <- ask ;;
          log (EvTake h wait (a_ok a)) ;;
          Return (a_ok a)
      end
  end.

Definition xSemaphoreGive (h : option SemaphoreHandle_t) : M St unit :=
  match h with
  | None => abort
  | Some h => log (EvGive h)
  end.

(** ** SPI and FAT drivers *)

Definition spi_bus_initialize : M St esp_err_t :=
  a <- ask ;; log (EvBusInit (a_err a)) ;; Return (a_err a).

Definition spi_bus_free : M St esp_err_t :=
  a <- ask ;; log (EvBusFree (a_err a)) ;; Return (a_err a).

(** The card is handed out only when the mount succeeds. *)
Definition esp_vfs_fat_sdspi_mount (format_if_mount_failed : bool) (max_freq_khz : Z)
  : M St (esp_err_t * option sdmmc_card_t) :=
  a <- ask ;;
  log (EvMount format_if_mount_failed max_freq_khz (a_err a)) ;;
  Return (a_err a, if a_err a =? ESP_OK then Some (a_card a) else None).

Definition esp_vfs_fat_sdcard_unmount : M St esp_err_t :=
  a <- ask ;; log (EvUnmount (a_err a)) ;; Return (a_err a).

(** ** Host file API *)

Definition strdup (s : string) : M St (option string) :=
  a <- ask ;; Return (if a_ok a then Some s else None).

Definition opendir (path : string) : M St bool :=
  a <- ask ;; log (EvOpendir path (a_ok a)) ;; Return (a_ok a).

Definition mkdir (path : string) : M St bool :=
  a <- ask ;; log (EvMkdir path (a_ok a)) ;; Return (a_ok a).

Definition get_files : M St fs := fun m => Done (files (wld m)) m.

(** ["w"] truncates or creates, ["a"] creates when absent, ["r"] needs the
    file; the medium may refuse any of them. *)
Definition fopen (path : string) (mode : fmode) : M St (option FILE) :=
  a <- ask ;;
  f <- get_files ;;
  let ok := match mode with
            | mode_r => a_ok a && match fs_get f path with Some _ => true | None => false end
            | _ => a_ok a
            end in
  log (EvFopen path mode ok) ;;
  if ok then
    match mode with
    | mode_w => on_world (set_files (fs_put f path EmptyString))
    | mode_a => match fs_get f path with
                | Some _ => Return tt
                | None => on_world (set_files (fs_put f path EmptyString))
                end
    | mode_r => Return tt
    end ;;
    Return (Some path)
  else Return None.

Definition file_append (fp : FILE) (data : string) : M St unit :=
  f <- get_files ;;
  let old := match fs_get f fp with Some d => d | None => EmptyString end in
  on_world (set_files (fs_put f fp (old ++ data))) ;;
  log (EvFwrite fp data).

(** [fprintf (f, "%s", data)]. *)
Definition fprintf_s (fp : FILE) (data : string) : M St unit := file_append fp data.

(** [fprintf (f, format)] with no argument: a format that holds a
    conversion reads arguments that were never passed. *)
Definition fprintf_fmt (fp : FILE) (format : string) : M St unit :=
  if has_percent format then abort else file_append fp format.

(** [fwrite (data, 1, strlen (data), f)]: the count it returns. *)
Definition fwrite (data : string) (fp : FILE) : M St nat :=
  a <- ask ;;
  let n := Nat.min (a_count a) (strlen data) in
  file_append fp (string_take n data) ;;
  Return n.

(** [fread (buffer, 1, size, f)] from the start of the file: the count and
    the buffer afterwards, the bytes read in front of what the buffer held
    before.  The end of a Coq string stands for a NUL byte, so a buffer
    that was zeroed is passed as the empty string. *)
Definition fread (buffer : string) (size : nat) (fp : FILE) : M St (nat * string) :=
  a <- ask ;;
  f <- get_files ;;
  let stored := match fs_get f fp with Some d => d | None => EmptyString end in
  let got := string_take size (match a_bytes a with Some d => d | None => stored end) in
  let buffer := got ++ string_drop (strlen got) buffer in
  log (EvFread fp (strlen got) buffer) ;;
  Return (strlen got, buffer).

(** The bytes of a local buffer that was never written. *)
Definition stack_junk : M St string := a <- ask ;; Return (a_junk a).

(** [fgets] into a local buffer; no caller looks at the line. *)
Definition fgets (size : nat) (fp : FILE) : M St unit :=
  buffer <- stack_junk ;;
  x <- fread buffer (size - 1) fp ;; Return tt.

Definition fflush (fp : FILE) : M St unit := Return tt.
Definition fclose (fp : FILE) : M St unit := log (EvFclose fp).
Definition closedir : M St unit := Return tt.

Definition remove (path : string) : M St unit :=
  f <- get_files ;;
  on_world (set_files (fs_del f path)) ;;
  log (EvRemove path).


End Primitives.

(* ================================================================== *)
(** * [components/sd_card_manager/sd_card_manager.c] *)

Module SdCardManager.

Definition MOUNT_POINT : string := "/sdcard".

(** The static variables of the file. *)
Record statics_t := {
  g_can_trace_enabled : bool;
  sd_card_mutex : option SemaphoreHandle_t;
  s_card : option sdmmc_card_t;
  s_host_max_freq_khz : Z;
  sd_card_initialized : bool
}.

(** Their values at start-up; [SDSPI_HOST_DEFAULT] sets the clock to
    [SDMMC_FREQ_DEFAULT], 20 MHz. *)
Definition statics_init : statics_t :=
  {| g_can_trace_enabled := false; sd_card_mutex := None; s_card := None;
     s_host_max_freq_khz := 20000; sd_card_initialized := false |}.

Definition set_can_trace (b : bool) (s : statics_t) : statics_t :=
  {| g_can_trace_enabled := b; sd_card_mutex := sd_card_mutex s; s_card := s_card s;
     s_host_max_freq_khz := s_host_max_freq_khz s;
     sd_card_initialized := sd_card_initialized s |}.

Definition set_mutex (h : option SemaphoreHandle_t) (s : statics_t) : statics_t :=
  {| g_can_trace_enabled := g_can_trace_enabled s; sd_card_mutex := h; s_card := s_card s;
     s_host_max_freq_khz := s_host_max_freq_khz s;
     sd_card_initialized := sd_card_initialized s |}.

Definition set_card (c : option sdmmc_card_t) (s : statics_t) : statics_t :=
  {| g_can_trace_enabled := g_can_trace_enabled s; sd_card_mutex := sd_card_mutex s;
     s_card := c; s_host_max_freq_khz := s_host_max_freq_khz s;
     sd_card_initialized := sd_card_initialized s |}.

Definition set_max_freq (f : Z) (s : statics_t) : statics_t :=
  {| g_can_trace_enabled := g_can_trace_enabled s; sd_card_mutex := sd_card_mutex s;
     s_card := s_card s; s_host_max_freq_khz := f;
     sd_card_initialized := sd_card_initialized s |}.

Definition set_initialized (b : bool) (s : statics_t) : statics_t :=
  {| g_can_trace_enabled := g_can_trace_enabled s; sd_card_mutex := sd_card_mutex s;
     s_card := s_card s; s_host_max_freq_khz := s_host_max_freq_khz s;
     sd_card_initialized := b |}.

Definition is_null {A} (p : option A) : bool :=
  match p with Some _ => false | None => true end.

Definition C := M statics_t.

Definition sd_card_deinit : C esp_err_t :=
  modify (set_initialized false) ;;
  card <- gets s_card ;;
  match card with
  | Some _ => esp_vfs_fat_sdcard_unmount ;; modify (set_card None)
  | None => Return tt
  end ;;
  mutex <- gets sd_card_mutex ;;
  match mutex with
  | Some h => vSemaphoreDelete h ;; modify (set_mutex None)
  | None => Return tt
  end ;;
  Return ESP_OK.

Definition sd_card_full_deinit : C esp_err_t :=
  sd_card_deinit ;;
  spi_bus_free ;;
  Return ESP_OK.

Definition max_retries : nat := 3.

(** The body of [for (attempt = 1; attempt <= max_retries; ++attempt)],
    with [remaining] iterations to go and [ret] as the loop left it. *)
Fixpoint init_attempts (remaining : nat) (attempt : Z) (ret : esp_err_t) : C esp_err_t :=
  match remaining with
  | O => Return ret
  | S k =>
      vTaskDelay (300 * attempt) ;;
      let format_if_mount_failed := 1 <? attempt in
      ret <- spi_bus_initialize ;;
      if negb (ret =? ESP_OK) && negb (ret =? ESP_ERR_INVALID_STATE) then
        sd_card_full_deinit ;;
        init_attempts k (attempt + 1) ret
      else
        modify (set_max_freq (if attempt =? 1 then 8000 else 4000)) ;;
        freq <- gets s_host_max_freq_khz ;;
        mounted <- esp_vfs_fat_sdspi_mount format_if_mount_failed freq ;;
        let ret := fst mounted in
        match snd mounted with
        | Some c => modify (set_card (Some c))
        | None => Return tt
        end ;;
        if ret =? ESP_OK then
          h <- xSemaphoreCreateMutex ;;
          modify (set_mutex h) ;;
          if is_null h then
            sd_card_full_deinit ;;
            init_attempts k (attempt + 1) ret
          else
            modify (set_initialized true) ;;
            Return ESP_OK
        else
          sd_card_full_deinit ;;
          init_attempts k (attempt + 1) ret
  end.

Definition sd_card_init : C esp_err_t :=
  again <- gets sd_card_initialized ;;
  (if again then sd_card_full_deinit ;; vTaskDelay 200 else Return tt) ;;
  init_attempts max_retries 1 ESP_FAIL.

(** The directory part of [path] that [ensure_dir_exists] probes: the text
    before the last slash, when there is one and it is not the first
    character. *)
Definition parent_dir (path : string) : option string :=
  match strrchr path slash with
  | Some (S i) => Some (string_take (S i) path)
  | _ => None
  end.

Definition ensure_dir_exists (path : string) : C esp_err_t :=
  dir_path <- strdup path ;;
  match dir_path with
  | None => Return ESP_ERR_NO_MEM
  | Some dir_path =>
      match parent_dir dir_path with
      | Some dir =>
          found <- opendir dir ;;
          if found then closedir ;; Return ESP_OK
          else
            made <- mkdir dir ;;
            if made then Return ESP_OK else Return ESP_FAIL
      | None => Return ESP_OK
      end
  end.

Definition sd_card_is_initialized : C bool :=
  flag <- gets sd_card_initialized ;;
  card <- gets s_card ;;
  mutex <- gets sd_card_mutex ;;
  if negb flag || is_null card || is_null mutex then Return false
  else
    test_dir <- opendir MOUNT_POINT ;;
    if test_dir then closedir ;; Return true
    else
      modify (set_initialized false) ;;
      Return false.

(** The two scratch-file checks [sd_card_write_file] runs before it opens
    the target. *)
Definition simple_file_test : C unit :=
  test_f <- fopen "/sdcard/test.txt" mode_w ;;
  match test_f with
  | Some f =>
      fprintf_s f ("test data" ++ newline) ;;
      fflush f ;;
      fclose f ;;
      verify_f <- fopen "/sdcard/test.txt" mode_r ;;
      match verify_f with
      | Some v => fgets 32 v ;; fclose v
      | None => Return tt
      end ;;
      remove "/sdcard/test.txt"
  | None => Return tt
  end.

Definition temp_file_test : C unit :=
  temp_test_file <- fopen "/sdcard/write_test.tmp" mode_w ;;
  match temp_test_file with
  | Some f =>
      fprintf_s f "write test" ;;
      fclose f ;;
      read_test <- fopen "/sdcard/write_test.tmp" mode_r ;;
      match read_test with
      | Some r => fgets 64 r ;; fclose r
      | None => Return tt
      end ;;
      remove "/sdcard/write_test.tmp"
  | None => Return tt
  end.

Definition take_mutex (wait : TickType_t) : C bool :=
  mutex <- gets sd_card_mutex ;; xSemaphoreTake mutex wait.

Definition give_mutex : C unit :=
  mutex <- gets sd_card_mutex ;; xSemaphoreGive mutex.

(** What happens at the head of a retry ([retry > 0]): [Some e] when the
    function returns [e] from inside the loop. *)
Definition recover_before_retry (retry : Z) : C (option esp_err_t) :=
  vTaskDelay (100 + retry * 100) ;;
  alive <- sd_card_is_initialized ;;
  if alive then Return None
  else
    give_mutex ;;
    reinit_result <- sd_card_init ;;
    if negb (reinit_result =? ESP_OK) then Return (Some ESP_ERR_INVALID_STATE)
    else
      taken <- take_mutex (pdMS_TO_TICKS 5000) ;;
      if taken then Return None else Return (Some ESP_ERR_TIMEOUT).

(** [for (retry = 0; retry < max_retries && f == NULL; retry++)]: [inl e]
    when the function returned [e] inside the loop, [inr f] when the loop
    ended with [f]. *)
Fixpoint open_with_retry (remaining : nat) (retry : Z) (path : string)
  : C (esp_err_t + option FILE) :=
  match remaining with
  | O => Return (inr None)
  | S k =>
      early <- (if 0 <? retry then recover_before_retry retry else Return None) ;;
      match early with
      | Some e => Return (inl e)
      | None =>
          f <- fopen path mode_w ;;
          match f with
          | Some _ => Return (inr f)
          | None => open_with_retry k (retry + 1) path
          end
      end
  end.

Definition sd_card_write_file (path data : string) : C esp_err_t :=
  flag <- gets sd_card_initialized ;;
  card <- gets s_card ;;
  if negb flag || is_null card then Return ESP_ERR_INVALID_STATE
  else
    mutex <- gets sd_card_mutex ;;
    if is_null mutex then Return ESP_ERR_INVALID_STATE
    else
      taken <- take_mutex (pdMS_TO_TICKS 5000) ;;
      if taken then
        dir <- ensure_dir_exists path ;;
        if negb (dir =? ESP_OK) then
          give_mutex ;; Return ESP_FAIL
        else
          root_dir <- opendir "/sdcard" ;;
          if negb root_dir then
            give_mutex ;; Return ESP_FAIL
          else
            closedir ;;
            simple_file_test ;;
            temp_file_test ;;
            opened <- open_with_retry max_retries 0 path ;;
            match opened with
            | inl e => Return e
            | inr None => give_mutex ;; Return ESP_FAIL
            | inr (Some f) =>
                fprintf_s f data ;;
                fclose f ;;
                give_mutex ;; Return ESP_OK
            end
      else Return ESP_ERR_TIMEOUT.

Definition sd_card_append_file (path data : string) : C esp_err_t :=
  taken <- take_mutex portMAX_DELAY ;;
  if taken then
    dir <- ensure_dir_exists path ;;
    if negb (dir =? ESP_OK) then
      give_mutex ;; Return ESP_FAIL
    else
      f <- fopen path mode_a ;;
      match f with
      | None => give_mutex ;; Return ESP_FAIL
      | Some f =>
          fprintf_s f data ;;
          fclose f ;;
          give_mutex ;; Return ESP_OK
      end
  else Return ESP_ERR_TIMEOUT.

Definition sd_card_set_can_trace_enabled (enabled : bool) : C unit :=
  modify (set_can_trace enabled).

Definition sd_card_is_can_trace_enabled : C bool := gets g_can_trace_enabled.

(** ** Health and diagnostics *)

(** [((uint64_t) s_card->csd.capacity) * s_card->csd.sector_size]. *)
Definition card_bytes (c : sdmmc_card_t) : Z :=
  uint64 (uint64 (csd_capacity c) * uint64 (csd_sector_size c)).

Definition test_files : list string :=
  ["/sdcard/test_write.tmp"; "/sdcard/.test_free"; "/sdcard/tmp.dat"].

(** One write and read-back of [test_data] on a candidate file: the value
    [write_test_passed] has afterwards. *)
Definition free_space_probe (file : string) : C bool :=
  test_file <- fopen file mode_w ;;
  match test_file with
  | Some f =>
      let test_data := "test" in
      written <- fwrite test_data f ;;
      fflush f ;;
      fclose f ;;
      if (written =? strlen test_data)%nat then
        verify_file <- fopen file mode_r ;;
        passed <- match verify_file with
                  | Some v =>
                      read_buffer <- stack_junk ;;
                      rd <- fread read_buffer 15 v ;;
                      fclose v ;;
                      Return ((0 <? fst rd)%nat
                              && strncmp_zero (snd rd) test_data (strlen test_data))
                  | None => Return false
                  end ;;
        remove file ;;
        Return passed
      else
        remove file ;;
        Return false
  | None => Return false
  end.

(** [for (retry = 0; retry < 3 && !write_test_passed; retry++)]. *)
Fixpoint probe_retries (remaining : nat) (retry : Z) (file : string) : C bool :=
  match remaining with
  | O => Return false
  | S k =>
      (if 0 <? retry then vTaskDelay (50 + retry * 50) else Return tt) ;;
      passed <- free_space_probe file ;;
      if passed then Return true else probe_retries k (retry + 1) file
  end.

(** [for (file_idx = 0; file_idx < num_test_files && !write_test_passed; file_idx++)]. *)
Fixpoint probe_files (candidates : list string) : C bool :=
  match candidates with
  | [] => Return false
  | file :: rest =>
      passed <- probe_retries 3 0 file ;;
      if passed then Return true else probe_files rest
  end.

(** The estimate stored when the write test passed. *)
Definition free_estimate (total_bytes : option Z) (card : option sdmmc_card_t) : Z :=
  match total_bytes with
  | Some t =>
      if 0 <? t then uint64 (t * 85) / 100
      else match card with
           | Some c => uint64 (card_bytes c * 85) / 100
           | None => 1024 * 1024
           end
  | None =>
      match card with
      | Some c => uint64 (card_bytes c * 85) / 100
      | None => 1024 * 1024
      end
  end.

(** An out-parameter is [None] for a NULL pointer and [Some v] for a
    pointer to a cell that holds [v]; the function returns the cells as it
    leaves them. *)
Definition sd_card_get_info (total_bytes free_bytes : option Z)
  : C (esp_err_t * option Z * option Z) :=
  alive <- sd_card_is_initialized ;;
  if negb alive then Return (ESP_ERR_INVALID_STATE, total_bytes, free_bytes)
  else
    card <- gets s_card ;;
    let total_bytes := match card, total_bytes with
                       | Some c, Some _ => Some (card_bytes c)
                       | _, _ => total_bytes
                       end in
    free_bytes <- match free_bytes with
                  | Some _ =>
                      write_test_passed <- probe_files test_files ;;
                      if write_test_passed
                      then Return (Some (free_estimate total_bytes card))
                      else Return (Some 0)
                  | None => Return None
                  end ;;
    Return (ESP_OK, total_bytes, free_bytes).


Definition test_iterations : nat := 10.

Definition stab_test_filename (i : Z) : string :=
  snprintf 32 ("/sdcard/stab_test_" ++ itoa i ++ ".tmp").

(** The body of the stability loop without its closing delay: whether the
    iteration counts as successful. *)
Definition stability_iteration (i : Z) : C bool :=
  let test_filename := stab_test_filename i in
  test_file <- fopen test_filename mode_w ;;
  match test_file with
  | Some f =>
      let test_data := "stability_test_data" in
      written <- fwrite test_data f ;;
      fflush f ;;
      fclose f ;;
      ok <- (if (written =? strlen test_data)%nat then
               read_file <- fopen test_filename mode_r ;;
               match read_file with
               | Some r =>
                   read_buffer <- stack_junk ;;
                   rd <- fread read_buffer 31 r ;;
                   fclose r ;;
                   Return ((fst rd =? strlen test_data)%nat
                           && strncmp_zero (snd rd) test_data (strlen test_data))
               | None => Return false
               end
             else Return false) ;;
      remove test_filename ;;
      Return ok
  | None => Return false
  end.

Fixpoint stability_loop (remaining : nat) (i : Z) (successful_operations : Z) : C Z :=
  match remaining with
  | O => Return successful_operations
  | S k =>
      ok <- stability_iteration i ;;
      vTaskDelay 50 ;;
      stability_loop k (i + 1)
        (if ok then successful_operations + 1 else successful_operations)
  end.

(** [(float) successful_operations / test_iterations * 100.0f]. *)
Definition success_rate (successful_operations : Z) : Q :=
  f32_mul (f32_div (f32_of_int successful_operations)
                   (f32_of_int (Z.of_nat test_iterations)))
          100.

Definition stability_verdict (successful_operations : Z) : esp_err_t :=
  if f32_ge (success_rate successful_operations) 80 then ESP_OK
  else if f32_ge (success_rate successful_operations) 50 then ESP_ERR_INVALID_RESPONSE
  else ESP_FAIL.

Definition sd_card_stability_test : C esp_err_t :=
  flag <- gets sd_card_initialized ;;
  card <- gets s_card ;;
  if negb flag || is_null card then Return ESP_ERR_INVALID_STATE
  else
    successful_operations <- stability_loop test_iterations 0 0 ;;
    Return (stability_verdict successful_operations).

End SdCardManager.

(* ================================================================== *)
(** * [main/sd_card.c] *)

Module SdCard.

Section Writer.

Context {St : Type}.

(** [fprintf (f, data)]: the data is the format. *)
Definition s_example_write_file (path data : string) : M St esp_err_t :=
  f <- fopen path mode_w ;;
  match f with
  | None => Return ESP_FAIL
  | Some f =>
      fprintf_fmt f data ;;
      fclose f ;;
      Return ESP_OK
  end.

End Writer.

(** ** Bringing the board up

    [sd_cs_set_high], [sd_cs_set_low] and [waveshare_sd_card_init] talk to
    the display driver, the I2C master driver, the SPI driver and the FAT
    driver, and to nothing else.  A run is a function of what these drivers
    answer, taken in order from an oracle, and yields the calls made,
    newest first. *)

Inductive board_call :=
| CallAddDevice (device_address scl_speed_hz : Z) (ret : esp_err_t)
| CallTransmit (device_address write_buf : Z) (ret : esp_err_t)
| CallRmDevice (device_address : Z)
| CallBusInitialize (ret : esp_err_t)
| CallDelay (ms : Z)
| CallMount (format_if_mount_failed : bool) (max_files allocation_unit_size : Z)
    (ret : esp_err_t).

Record board := {
  i2c_bus : bool;                 (* the display driver has created its I2C bus *)
  answers : nat -> esp_err_t;     (* what the drivers return, in the order asked *)
  asked : nat;
  calls : list board_call
}.

Definition B (A : Type) := board -> A * board.

Definition unit_b {A} (a : A) : B A := fun b => (a, b).

Definition bind_b {A B'} (c : B A) (k : A -> B B') : B B' :=
  fun b => let (a, b') := c b in k a b'.

Declare Scope board_scope.
Delimit Scope board_scope with board.
Notation "x <- c ;; k" := (bind_b c (fun x => k))
  (right associativity, at level 61, c at next level) : board_scope.
Notation "c ;; k" := (bind_b c (fun _ => k))
  (right associativity, at level 61) : board_scope.

Definition answer_b : B esp_err_t :=
  fun b => (answers b (asked b),
            {| i2c_bus := i2c_bus b; answers := answers b; asked := S (asked b);
               calls := calls b |}).

Definition call_b (c : board_call) : B unit :=
  fun b => (tt, {| i2c_bus := i2c_bus b; answers := answers b; asked := asked b;
                   calls := c :: calls b |}).

(** [display_get_i2c_bus_handle () != NULL]. *)
Definition display_get_i2c_bus_handle : B bool := fun b => (i2c_bus b, b).

Definition i2c_master_bus_add_device (device_address scl_speed_hz : Z) : B esp_err_t :=
  (r <- answer_b ;; call_b (CallAddDevice device_address scl_speed_hz r) ;; unit_b r)%board.

Definition i2c_master_transmit (device_address write_buf : Z) : B esp_err_t :=
  (r <- answer_b ;; call_b (CallTransmit device_address write_buf r) ;; unit_b r)%board.

Definition i2c_master_bus_rm_device (device_address : Z) : B unit :=
  call_b (CallRmDevice device_address).

Definition spi_bus_initialize_b : B esp_err_t :=
  (r <- answer_b ;; call_b (CallBusInitialize r) ;; unit_b r)%board.

Definition vTaskDelay_b (ms : Z) : B unit := call_b (CallDelay ms).

Definition esp_vfs_fat_sdspi_mount_b (format_if_mount_failed : bool)
  (max_files allocation_unit_size : Z) : B esp_err_t :=
  (r <- answer_b ;;
   call_b (CallMount format_if_mount_failed max_files allocation_unit_size r) ;;
   unit_b r)%board.

(** [dev_handle] is the device at address 0x38 that was just added. *)
Definition sd_cs_set_high : B esp_err_t :=
  (i2c_bus <- display_get_i2c_bus_handle ;;
   if negb i2c_bus then unit_b ESP_FAIL
   else
     ret <- i2c_master_bus_add_device 56 100000 ;;
     if negb (ret =? ESP_OK) then unit_b ret
     else
       ret <- i2c_master_transmit 56 16 ;;
       i2c_master_bus_rm_device 56 ;;
       unit_b ret)%board.

Definition sd_cs_set_low : B esp_err_t :=
  (i2c_bus <- display_get_i2c_bus_handle ;;
   if negb i2c_bus then unit_b ESP_FAIL
   else
     ret <- i2c_master_bus_add_device 56 100000 ;;
     if negb (ret =? ESP_OK) then unit_b ret
     else
       ret <- i2c_master_transmit 56 0 ;;
       i2c_master_bus_rm_device 56 ;;
       unit_b ret)%board.

(** [CONFIG_EXAMPLE_FORMAT_IF_MOUNT_FAILED] is a switch of the build. *)
Definition waveshare_sd_card_init (CONFIG_EXAMPLE_FORMAT_IF_MOUNT_FAILED : bool)
  : B esp_err_t :=
  (sd_cs_set_high ;;
   ret <- spi_bus_initialize_b ;;
   if negb (ret =? ESP_OK) then unit_b ESP_FAIL
   else
     sd_cs_set_low ;;
     vTaskDelay_b 10 ;;
     ret <- esp_vfs_fat_sdspi_mount_b CONFIG_EXAMPLE_FORMAT_IF_MOUNT_FAILED 5 (16 * 1024) ;;
     if negb (ret =? ESP_OK) then unit_b ESP_FAIL
     else unit_b ESP_OK)%board.

End SdCard.

(* ================================================================== *)
(** * [main/ui/settings_config.c] *)

Module SettingsConfig.

(** [touch_settings_t].  The header that declares it is not among the
    sources; the fields are the ones the functions below read and write,
    the sensitivity an [int] as [%d] and [atoi] treat it. *)
Record touch_settings_t := {
  touch_sensitivity_level : Z;
  demo_mode_enabled : bool;
  screen3_enabled : bool;
  screen1_arcs_enabled : list bool;
  screen2_arcs_enabled : list bool
}.

(** The macros of [settings_config.h], which is not among the sources:
    they are parameters of the development. *)
Record settings_config_h := {
  DEFAULT_TOUCH_SENSITIVITY : Z;
  DEFAULT_DEMO_MODE_ENABLED : bool;
  DEFAULT_SCREEN3_ENABLED : bool;
  MIN_TOUCH_SENSITIVITY : Z;
  MAX_TOUCH_SENSITIVITY : Z;
  SCREEN1_ARCS_COUNT : nat;
  SCREEN2_ARCS_COUNT : nat
}.

(** The static variables of the file: the settings in memory and the
    file's own mutex. *)
Record statics_t := {
  current_settings : touch_settings_t;
  sd_card_mutex : option SemaphoreHandle_t
}.

Definition set_current (t : touch_settings_t) (s : statics_t) : statics_t :=
  {| current_settings := t; sd_card_mutex := sd_card_mutex s |}.

Definition set_mutex (h : option SemaphoreHandle_t) (s : statics_t) : statics_t :=
  {| current_settings := current_settings s; sd_card_mutex := h |}.

Definition C := M statics_t.

Definition is_null {A} (p : option A) : bool :=
  match p with Some _ => false | None => true end.

Definition bool_text (b : bool) : string := if b then "true" else "false".

Definition sens_key : string := String quote ("sensitivity" ++ String quote ":").
Definition demo_key : string := String quote ("demo_mode" ++ String quote ":").
Definition s3_key : string := String quote ("screen3_enabled" ++ String quote ":").

Definition settings_to_json (settings : touch_settings_t) (buffer_size : nat) : string :=
  snprintf buffer_size
    ("{" ++ sens_key ++ itoa (touch_sensitivity_level settings)
         ++ "," ++ demo_key ++ bool_text (demo_mode_enabled settings)
         ++ "," ++ s3_key ++ bool_text (screen3_enabled settings) ++ "}").

(** The result of the parse and the record as the parse leaves it. *)
Definition settings_from_json (json_str : string) (settings : touch_settings_t)
  : bool * touch_settings_t :=
  match strstr json_str sens_key, strstr json_str demo_key, strstr json_str s3_key with
  | Some sens_ptr, Some demo_ptr, Some s3_ptr =>
      (true,
       {| touch_sensitivity_level := atoi (string_drop (strlen sens_key) sens_ptr);
          demo_mode_enabled := negb (is_null (strstr demo_ptr "true"));
          screen3_enabled := negb (is_null (strstr s3_ptr "true"));
          screen1_arcs_enabled := screen1_arcs_enabled settings;
          screen2_arcs_enabled := screen2_arcs_enabled settings |})
  | _, _, _ => (false, settings)
  end.

Section WithHeader.

Variable H : settings_config_h.

(** What [settings_init_defaults] leaves in the record it is given. *)
Definition settings_init_defaults (settings : touch_settings_t) : touch_settings_t :=
  {| touch_sensitivity_level := DEFAULT_TOUCH_SENSITIVITY H;
     demo_mode_enabled := DEFAULT_DEMO_MODE_ENABLED H;
     screen3_enabled := DEFAULT_SCREEN3_ENABLED H;
     screen1_arcs_enabled := repeat true (SCREEN1_ARCS_COUNT H);
     screen2_arcs_enabled := repeat true (SCREEN2_ARCS_COUNT H) |}.

Definition settings_validate (settings : option touch_settings_t) : bool :=
  match settings with
  | None => false
  | Some t =>
      if (touch_sensitivity_level t <? MIN_TOUCH_SENSITIVITY H)
         || (MAX_TOUCH_SENSITIVITY H <? touch_sensitivity_level t)
      then false else true
  end.

(** [settings_save]; the event [EvSaveResult] stands for the message that
    reports [result] at the end. *)
Definition settings_save (settings_to_save : option touch_settings_t) : C unit :=
  match settings_to_save with
  | None => Return tt
  | Some settings =>
      let json_buffer := settings_to_json settings 256 in
      mutex <- gets sd_card_mutex ;;
      if is_null mutex then Return tt
      else
        taken <- xSemaphoreTake mutex (pdMS_TO_TICKS 2000) ;;
        if negb taken then Return tt
        else
          result <- SdCard.s_example_write_file "/sdcard/settings.cfg" json_buffer ;;
          mutex <- gets sd_card_mutex ;;
          xSemaphoreGive mutex ;;
          log (EvSaveResult result)
  end.

Definition load_defaults : C unit :=
  cur <- gets current_settings ;;
  modify (set_current (settings_init_defaults cur)).

Definition settings_load : C esp_err_t :=
  mutex <- gets sd_card_mutex ;;
  created <- (if is_null mutex then
                h <- xSemaphoreCreateMutex ;;
                modify (set_mutex h) ;;
                Return (negb (is_null h))
              else Return true) ;;
  if negb created then
    load_defaults ;; Return ESP_ERR_NO_MEM
  else
    mutex <- gets sd_card_mutex ;;
    taken <- xSemaphoreTake mutex (pdMS_TO_TICKS 1000) ;;
    if negb taken then
      load_defaults ;; Return ESP_ERR_TIMEOUT
    else
      f <- fopen "/sdcard/settings.cfg" mode_r ;;
      match f with
      | Some f =>
          rd <- fread EmptyString 255 f ;;
          fclose f ;;
          mutex <- gets sd_card_mutex ;;
          xSemaphoreGive mutex ;;
          let buffer := c_str (snd rd) in
          cur <- gets current_settings ;;
          let parsed := settings_from_json buffer cur in
          if fst parsed then
            modify (set_current (snd parsed)) ;; Return ESP_OK
          else
            load_defaults ;; Return ESP_FAIL
      | None =>
          mutex <- gets sd_card_mutex ;;
          xSemaphoreGive mutex ;;
          load_defaults ;;
          cur <- gets current_settings ;;
          settings_save (Some cur) ;;
          Return ESP_ERR_NOT_FOUND
      end.

(** The four arc accessors. *)
Fixpoint array_set (l : list bool) (i : nat) (v : bool) : list bool :=
  match l, i with
  | [], _ => []
  | _ :: r, O => v :: r
  | x :: r, S j => x :: array_set r j v
  end.

Definition with_screen1_arcs (a : list bool) (t : touch_settings_t) : touch_settings_t :=
  {| touch_sensitivity_level := touch_sensitivity_level t;
     demo_mode_enabled := demo_mode_enabled t;
     screen3_enabled := screen3_enabled t;
     screen1_arcs_enabled := a;
     screen2_arcs_enabled := screen2_arcs_enabled t |}.

Definition screen1_arc_set_enabled (arc_index : Z) (enabled : bool) : C unit :=
  if (arc_index <? 0) || (Z.of_nat (SCREEN1_ARCS_COUNT H) <=? arc_index) then Return tt
  else
    cur <- gets current_settings ;;
    modify (set_current
              (with_screen1_arcs
                 (array_set (screen1_arcs_enabled cur) (Z.to_nat arc_index) enabled) cur)).

Definition screen1_arc_get_enabled (arc_index : Z) : C bool :=
  if (arc_index <? 0) || (Z.of_nat (SCREEN1_ARCS_COUNT H) <=? arc_index) then Return false
  else
    cur <- gets current_settings ;;
    Return (nth (Z.to_nat arc_index) (screen1_arcs_enabled cur) false).

Definition with_screen2_arcs (a : list bool) (t : touch_settings_t) : touch_settings_t :=
  {| touch_sensitivity_level := touch_sensitivity_level t;
     demo_mode_enabled := demo_mode_enabled t;
     screen3_enabled := screen3_enabled t;
     screen1_arcs_enabled := screen1_arcs_enabled t;
     screen2_arcs_enabled := a |}.

Definition screen2_arc_set_enabled (arc_index : Z) (enabled : bool) : C unit :=
  if (arc_index <? 0) || (Z.of_nat (SCREEN2_ARCS_COUNT H) <=? arc_index) then Return tt
  else
    cur <- gets current_settings ;;
    modify (set_current
              (with_screen2_arcs
                 (array_set (screen2_arcs_enabled cur) (Z.to_nat arc_index) enabled) cur)).

Definition screen2_arc_get_enabled (arc_index : Z) : C bool :=
  if (arc_index <? 0) || (Z.of_nat (SCREEN2_ARCS_COUNT H) <=? arc_index) then Return false
  else
    cur <- gets current_settings ;;
    Return (nth (Z.to_nat arc_index) (screen2_arcs_enabled cur) false).

(** The accessors of the two switches. *)
Definition with_demo_mode (b : bool) (t : touch_settings_t) : touch_settings_t :=
  {| touch_sensitivity_level := touch_sensitivity_level t;
     demo_mode_enabled := b;
     screen3_enabled := screen3_enabled t;
     screen1_arcs_enabled := screen1_arcs_enabled t;
     screen2_arcs_enabled := screen2_arcs_enabled t |}.

Definition with_screen3 (b : bool) (t : touch_settings_t) : touch_settings_t :=
  {| touch_sensitivity_level := touch_sensitivity_level t;
     demo_mode_enabled := demo_mode_enabled t;
     screen3_enabled := b;
     screen1_arcs_enabled := screen1_arcs_enabled t;
     screen2_arcs_enabled := screen2_arcs_enabled t |}.

Definition demo_mode_get_enabled : C bool :=
  cur <- gets current_settings ;; Return (demo_mode_enabled cur).

Definition demo_mode_set_enabled (enabled : bool) : C unit :=
  cur <- gets current_settings ;; modify (set_current (with_demo_mode enabled cur)).

Definition screen3_get_enabled : C bool :=
  cur <- gets current_settings ;; Return (screen3_enabled cur).

Definition screen3_set_enabled (enabled : bool) : C unit :=
  cur <- gets current_settings ;; modify (set_current (with_screen3 enabled cur)).

Definition demo_mode_test_toggle : C unit :=
  cur <- gets current_settings ;;
  modify (set_current (with_demo_mode (negb (demo_mode_enabled cur)) cur)).

(** [settings_apply_changes] only writes a message. *)
Definition settings_apply_changes : C unit := Return tt.

Definition settings_reset_to_defaults : C unit :=
  load_defaults ;; settings_apply_changes.

(** A [static] record is zero before the first write. *)
Definition statics_init : statics_t :=
  {| current_settings :=
       {| touch_sensitivity_level := 0; demo_mode_enabled := false;
          screen3_enabled := false;
          screen1_arcs_enabled := repeat false (SCREEN1_ARCS_COUNT H);
          screen2_arcs_enabled := repeat false (SCREEN2_ARCS_COUNT H) |};
     sd_card_mutex := None |}.

End WithHeader.

End SettingsConfig.

(* ================================================================== *)
(** * [main/can_websocket.c] *)

Module CanWebsocket.

Definition uint8_t (z : Z) : Z := z mod 2 ^ 8.
Definition uint16_t (z : Z) : Z := z mod 2 ^ 16.

(** [can_data_t] of [can_websocket.h]; the pressure, the speed and the
    target are [uint16_t], the other numbers [uint8_t]. *)
Record can_data_t := {
  map_pressure : Z;
  wastegate_pos : Z;
  tps_position : Z;
  engine_rpm : Z;
  target_boost : Z;
  tcu_status : Z;
  data_valid : bool
}.

(** The static variables of the file, the two counters that are local to
    [data_handler] and to [broadcast_can_data], and the static variables of
    [settings_config.c], which the file reads through
    [demo_mode_get_enabled]. *)
Record statics_t := {
  settings : SettingsConfig.statics_t;
  g_can_data : can_data_t;
  data_handler_demo_counter : Z;
  broadcast_demo_counter : Z
}.

Definition statics_init (s : SettingsConfig.statics_t) : statics_t :=
  {| settings := s;
     g_can_data := {| map_pressure := 0; wastegate_pos := 0; tps_position := 0;
                      engine_rpm := 0; target_boost := 0; tcu_status := 0;
                      data_valid := false |};
     data_handler_demo_counter := 0;
     broadcast_demo_counter := 0 |}.

Definition set_can_data (d : can_data_t) (s : statics_t) : statics_t :=
  {| settings := settings s; g_can_data := d;
     data_handler_demo_counter := data_handler_demo_counter s;
     broadcast_demo_counter := broadcast_demo_counter s |}.

Definition set_handler_counter (n : Z) (s : statics_t) : statics_t :=
  {| settings := settings s; g_can_data := g_can_data s;
     data_handler_demo_counter := n;
     broadcast_demo_counter := broadcast_demo_counter s |}.

Definition set_broadcast_counter (n : Z) (s : statics_t) : statics_t :=
  {| settings := settings s; g_can_data := g_can_data s;
     data_handler_demo_counter := data_handler_demo_counter s;
     broadcast_demo_counter := n |}.

Definition C := M statics_t.

(** A call into [settings_config.c]. *)
Definition in_settings {A} (c : SettingsConfig.C A) : C A :=
  fun m =>
    match c {| statics := settings (statics m); wld := wld m |} with
    | Done a m' =>
        Done a {| statics := {| settings := statics m';
                                g_can_data := g_can_data (statics m);
                                data_handler_demo_counter :=
                                  data_handler_demo_counter (statics m);
                                broadcast_demo_counter :=
                                  broadcast_demo_counter (statics m) |};
                  wld := wld m' |}
    | Abort m' =>
        Abort {| statics := {| settings := statics m';
                               g_can_data := g_can_data (statics m);
                               data_handler_demo_counter :=
                                 data_handler_demo_counter (statics m);
                               broadcast_demo_counter :=
                                 broadcast_demo_counter (statics m) |};
                 wld := wld m' |}
    end.

Definition demo_mode_get_enabled : C bool :=
  in_settings SettingsConfig.demo_mode_get_enabled.

(** The simulated readings, as they are handed to [snprintf]; [float] is
    binary32.  [%] truncates towards zero. *)
Record demo_data_t := {
  demo_map_pressure : Q;
  demo_wastegate_pos : Q;
  demo_tps_position : Q;
  demo_engine_rpm : Q;
  demo_target_boost : Q;
  demo_tcu_status : Z
}.

Definition demo_data (demo_counter : Z) : demo_data_t :=
  let cycle := Z.rem demo_counter 100 in
  let phase := f32_div (f32_of_int cycle) 100 in
  {| demo_map_pressure :=
       f32_add 120
         (f32_div (f32_mul 30 (f32_of_int (if 50 <? cycle then 100 - cycle else cycle))) 50);
     demo_wastegate_pos := f32_add 45 (f32_mul 25 phase);
     demo_tps_position := f32_add 35 (f32_mul 30 phase);
     demo_engine_rpm := f32_add 2500 (f32_mul 500 phase);
     demo_target_boost := f32_add 180 (f32_mul 20 phase);
     demo_tcu_status := if 95 <? Z.rem demo_counter 100 then 1 else 0 |}.

Definition json_key (name : string) : string := String quote (name ++ String quote ":").

(** The text of the readings of the bus, in a buffer of 256 bytes. *)
Definition can_json (d : can_data_t) : string :=
  snprintf 256
    ("{" ++ json_key "map_pressure" ++ itoa (map_pressure d)
         ++ "," ++ json_key "wastegate_pos" ++ itoa (wastegate_pos d)
         ++ "," ++ json_key "tps_position" ++ itoa (tps_position d)
         ++ "," ++ json_key "engine_rpm" ++ itoa (engine_rpm d)
         ++ "," ++ json_key "target_boost" ++ itoa (target_boost d)
         ++ "," ++ json_key "tcu_status" ++ itoa (tcu_status d) ++ "}").

Definition zero_json : string :=
  snprintf 256
    ("{" ++ json_key "map_pressure" ++ "0.0"
         ++ "," ++ json_key "wastegate_pos" ++ "0.0"
         ++ "," ++ json_key "tps_position" ++ "0.0"
         ++ "," ++ json_key "engine_rpm" ++ "0"
         ++ "," ++ json_key "target_boost" ++ "0.0"
         ++ "," ++ json_key "tcu_status" ++ "0" ++ "}").

(** What [data_handler] sends with [httpd_resp_send], always as
    [application/json]: a text, or the simulated readings printed with
    [%.1f] and [%.0f], whose text is not modelled. *)
Inductive body_t :=
| BodyText (json_data : string)
| BodyDemo (readings : demo_data_t).

Inductive http_method := HTTP_GET | HTTP_other.

Definition data_handler (method : http_method) : C (esp_err_t * option body_t) :=
  match method with
  | HTTP_GET =>
      demo_enabled <- demo_mode_get_enabled ;;
      if demo_enabled then
        d <- gets g_can_data ;;
        if data_valid d then
          Return (ESP_OK, Some (BodyText (can_json d)))
        else
          n <- gets data_handler_demo_counter ;;
          modify (set_handler_counter (n + 1)) ;;
          Return (ESP_OK, Some (BodyDemo (demo_data (n + 1))))
      else
        Return (ESP_OK, Some (BodyText zero_json))
  | HTTP_other => Return (ESP_FAIL, None)
  end.

(** [broadcast_can_data] builds a text and writes it to the log; it sends
    nothing.  What is left is its counter. *)
Definition broadcast_can_data : C unit :=
  demo_enabled <- demo_mode_get_enabled ;;
  if negb demo_enabled then Return tt
  else
    d <- gets g_can_data ;;
    if negb (data_valid d) then
      n <- gets broadcast_demo_counter ;;
      modify (set_broadcast_counter (n + 1))
    else Return tt.

Definition update_websocket_can_data (rpm map tps wastegate target_boost tcu_status : Z)
  : C unit :=
  let rpm := uint16_t rpm in
  let map := uint16_t map in
  let tps := uint8_t tps in
  let wastegate := uint8_t wastegate in
  let target_boost := uint16_t target_boost in
  let tcu_status := uint8_t tcu_status in
  demo_enabled <- demo_mode_get_enabled ;;
  if demo_enabled then
    modify (set_can_data {| map_pressure := map; wastegate_pos := wastegate;
                            tps_position := tps; engine_rpm := rpm;
                            target_boost := target_boost; tcu_status := tcu_status;
                            data_valid := true |}) ;;
    broadcast_can_data
  else
    modify (set_can_data {| map_pressure := 0; wastegate_pos := 0; tps_position := 0;
                            engine_rpm := 0; target_boost := 0; tcu_status := 0;
                            data_valid := false |}).

Definition get_can_data : C can_data_t := gets g_can_data.

End CanWebsocket.

(* ================================================================== *)
(** * Properties of runs *)

(** ** The lock discipline

    [lock_state t] replays the takes and gives of a trace: [Some None]
    when no mutex is held, [Some (Some h)] when [h] is held, [None] once
    the discipline was broken (a take while a mutex is held, a give of a
    mutex that is not the one held). *)

Definition lock_step (e : event) (st : option (option SemaphoreHandle_t))
  : option (option SemaphoreHandle_t) :=
  match st with
  | None => None
  | Some holder =>
      match e with
      | EvTake h _ true =>
          match holder with None => Some (Some h) | Some _ => None end
      | EvGive h =>
          match holder with
          | Some h' => if Nat.eqb h h' then Some None else None
          | None => None
          end
      | _ => Some holder
      end
  end.

Fixpoint lock_state (t : list event) : option (option SemaphoreHandle_t) :=
  match t with
  | [] => Some None
  | e :: r => lock_step e (lock_state r)
  end.

(** The calls of the host file API. *)
Definition touches_medium (e : event) : bool :=
  match e with
  | EvOpendir _ _ | EvMkdir _ _ | EvFopen _ _ _ | EvFwrite _ _
  | EvFread _ _ _ | EvFclose _ | EvRemove _ => true
  | _ => false
  end.

Definition is_held (st : option (option SemaphoreHandle_t)) : bool :=
  match st with Some (Some _) => true | _ => false end.

(** Every call of the file API in the trace was made while a mutex was
    held. *)
Fixpoint guarded (t : list event) : bool :=
  match t with
  | [] => true
  | e :: r => (if touches_medium e then is_held (lock_state r) else true) && guarded r
  end.

Definition lock_of {St} (m : machine St) := lock_state (trace (wld m)).
Definition serialized {St} (m : machine St) := guarded (trace (wld m)).

(** ** Reading the trace of a health check *)

Definition opened_for_write (e : event) : option string :=
  match e with EvFopen p mode_w _ => Some p | _ => None end.

Fixpoint write_opens (t : list event) : list string :=
  match t with
  | [] => []
  | e :: r => match opened_for_write e with
              | Some p => p :: write_opens r
              | None => write_opens r
              end
  end.

(** A read-back that the capacity probe accepts. *)
Definition probe_readback (e : event) : bool :=
  match e with
  | EvFread _ n buffer => (0 <? n)%nat && strncmp_zero buffer "test" 4
  | _ => false
  end.

(** A read-back that the stability test counts. *)
Definition stability_readback (e : event) : bool :=
  match e with
  | EvFread _ n buffer =>
      (n =? 19)%nat && strncmp_zero buffer "stability_test_data" 19
  | _ => false
  end.

Definition successes (t : list event) : Z :=
  Z.of_nat (List.length (filter stability_readback t)).


(** ** States the manager can reach *)

Inductive api_call :=
| call_init
| call_deinit
| call_full_deinit
| call_write_file (path data : string)
| call_append_file (path data : string)
| call_set_can_trace_enabled (enabled : bool)
| call_is_initialized
| call_get_info (total_bytes free_bytes : option Z)
| call_stability_test.

Definition run_call (c : api_call) : SdCardManager.C unit :=
  match c with
  | call_init => SdCardManager.sd_card_init ;; Return tt
  | call_deinit => SdCardManager.sd_card_deinit ;; Return tt
  | call_full_deinit => SdCardManager.sd_card_full_deinit ;; Return tt
  | call_write_file p d => SdCardManager.sd_card_write_file p d ;; Return tt
  | call_append_file p d => SdCardManager.sd_card_append_file p d ;; Return tt
  | call_set_can_trace_enabled b => SdCardManager.sd_card_set_can_trace_enabled b
  | call_is_initialized => SdCardManager.sd_card_is_initialized ;; Return tt
  | call_get_info t f => SdCardManager.sd_card_get_info t f ;; Return tt
  | call_stability_test => SdCardManager.sd_card_stability_test ;; Return tt
  end.

(** From power-up, in any world, through any sequence of calls that
    return. *)
Inductive reachable : machine SdCardManager.statics_t -> Prop :=
| reach_boot (w : world) :
    trace w = [] ->
    reachable {| statics := SdCardManager.statics_init; wld := w |}
| reach_call (c : api_call) (m m' : machine SdCardManager.statics_t) :
    reachable m -> run_call c m = Done tt m' -> reachable m'.

(** ** Worlds used in the examples *)

Definition card_1gb : sdmmc_card_t :=
  {| csd_capacity := 2097152; csd_sector_size := 512 |}.

Definition healthy : answer :=
  {| a_ok := true; a_err := ESP_OK; a_count := 64%nat; a_card := card_1gb;
     a_bytes := None; a_junk := EmptyString |}.

(** Every call fails; the drivers report [ESP_FAIL]. *)
Definition broken : answer :=
  {| a_ok := false; a_err := ESP_FAIL; a_count := 0%nat; a_card := card_1gb;
     a_bytes := None; a_junk := EmptyString |}.

(** The drivers work, everything else fails: no heap for a mutex, the
    medium refuses every file call. *)
Definition drivers_only : answer :=
  {| a_ok := false; a_err := ESP_OK; a_count := 0%nat; a_card := card_1gb;
     a_bytes := None; a_junk := EmptyString |}.

Definition world_with (o : nat -> answer) : world :=
  {| clk := 0%nat; oracle := o; trace := []; files := []; next_sem := 0%nat |}.

Definition boot (o : nat -> answer) : machine SdCardManager.statics_t :=
  {| statics := SdCardManager.statics_init; wld := world_with o |}.

(** Healthy for the first [n] answers, then [a] for ever. *)
Definition healthy_until (n : nat) (a : answer) : nat -> answer :=
  fun k => if (k <? n)%nat then healthy else a.

(** The answers [healthy] except at the positions listed. *)
Definition healthy_except (bad : list nat) (a : answer) : nat -> answer :=
  fun k => if existsb (Nat.eqb k) bad then a else healthy.

(* ================================================================== *)
(** * Reasoning about computations *)

Section Logic.

Context {St : Type}.

(** [post o Q R]: the outcome satisfies [Q] when the computation returned
    and [R] when the kernel stopped it. *)
Definition post {A} (o : outcome St A) (Q : A -> machine St -> Prop)
  (R : machine St -> Prop) : Prop :=
  match o with
  | Done a m => Q a m
  | Abort m => R m
  end.

Definition returns {A} (o : outcome St A) (Q : A -> machine St -> Prop) : Prop :=
  post o Q (fun _ => False).

(** [m'] follows [m] after the events [evs], oldest last. *)
Definition extends (evs : list event) (m m' : machine St) : Prop :=
  trace (wld m') = (evs ++ trace (wld m))%list.

(** The static variables are untouched and [evs] were logged. *)
Definition logged (evs : list event) (m m' : machine St) : Prop :=
  statics m' = statics m /\ extends evs m m'.

End Logic.

(** An event that leaves the lock state alone. *)
Definition lock_neutral (e : event) : bool :=
  match e with
  | EvTake _ _ true | EvGive _ => false
  | _ => true
  end.

(** An event of the lifecycle: neither a lock move nor a file call. *)
Definition quiet (e : event) : bool :=
  lock_neutral e && negb (touches_medium e).

Section Steps.

Context {St : Type}.

(** Only events of the class [ok] happened. *)
Definition via (ok : event -> bool) (m m' : machine St) : Prop :=
  exists evs, extends evs m m' /\ forallb ok evs = true.

(** Only file calls and other lock-neutral events happened, the static
    variables are as before. *)
Definition calm (m m' : machine St) : Prop :=
  statics m' = statics m /\ via lock_neutral m m'.

(** Only lifecycle events happened. *)
Definition still (m m' : machine St) : Prop := via quiet m m'.

End Steps.

Definition unmounted (s : SdCardManager.statics_t) : Prop :=
  SdCardManager.sd_card_initialized s = false
  /\ SdCardManager.s_card s = None
  /\ SdCardManager.sd_card_mutex s = None.

Definition mounted (s : SdCardManager.statics_t) : Prop :=
  SdCardManager.sd_card_initialized s = true
  /\ SdCardManager.s_card s <> None
  /\ SdCardManager.sd_card_mutex s <> None.

(** The part of the handle invariant that the manager keeps: a set flag
    comes with a card. *)
Definition handle_when_mounted (s : SdCardManager.statics_t) : Prop :=
  SdCardManager.sd_card_initialized s = true -> SdCardManager.s_card s <> None.

(** What a call keeps of the state [m0] it started from. *)
Definition keeps (m0 m : machine SdCardManager.statics_t) : Prop :=
  (serialized m0 = true -> serialized m = true)
  /\ (handle_when_mounted (statics m0) -> handle_when_mounted (statics m)).

(** The manager's mutex is held, by the one who runs. *)
Definition holding (m0 m : machine SdCardManager.statics_t) : Prop :=
  exists h, SdCardManager.sd_card_mutex (statics m) = Some h
            /\ lock_of m = Some (Some h)
            /\ keeps m0 m.

Definition released (m0 m : machine SdCardManager.statics_t) : Prop :=
  lock_of m = Some None /\ keeps m0 m.

(** The loop counter of [remaining] iterations that start at [i]. *)
Fixpoint iterations (remaining : nat) (i : Z) : list Z :=
  match remaining with
  | O => []
  | S k => i :: iterations k (i + 1)
  end.

(** Every scratch file that was created was removed. *)
Definition cleaned_up (evs : list event) : Prop :=
  forall name, In (EvFopen name mode_w true) evs -> In (EvRemove name) evs.

(** A machine on which the card is mounted, as [sd_card_init] leaves it in
    a healthy world. *)
Definition mounted_machine (o : nat -> answer) : machine SdCardManager.statics_t :=
  final (SdCardManager.sd_card_init (boot o)).

(** The opens the capacity probe may make, in order: every candidate up to
    three times. *)
Definition probe_schedule (candidates : list string) : list string :=
  flat_map (fun file => repeat file 3) candidates.

(** Between calls: no mutex is held and a set flag comes with a card. *)
Definition idle (m : machine SdCardManager.statics_t) : Prop :=
  lock_of m = Some None /\ handle_when_mounted (statics m).

(** The card was mounted, then the liveness check found the mount point
    closed. *)
Definition demoted_machine : machine SdCardManager.statics_t :=
  final (SdCardManager.sd_card_is_initialized (mounted_machine (healthy_except [3%nat] broken))).

Definition guard_kept {St} (m0 m : machine St) : Prop :=
  serialized m0 = true -> serialized m = true.

(** The drivers work but there is no heap for a mutex. *)
Definition no_heap_machine : machine SdCardManager.statics_t :=
  boot (fun _ => drivers_only).

(* ================================================================== *)
(** * Properties of the settings file *)

Fixpoint string_forall (p : ascii -> bool) (s : string) : bool :=
  match s with
  | EmptyString => true
  | String c r => p c && string_forall p r
  end.

(** The characters [%d] prints. *)
Definition printed_char (c : ascii) : bool := isdigit c || Ascii.eqb c "-"%char.

Definition settings_path : string := "/sdcard/settings.cfg".

(** From now on every call succeeds and the medium returns what is
    stored: the mutex is granted, the heap is not exhausted, no other
    context changes the file. *)
Definition cooperative (w : world) : Prop :=
  forall n, (clk w <= n)%nat -> a_ok (oracle w n) = true /\ a_bytes (oracle w n) = None.


(** The record a successful parse of the text [settings_to_json] prints
    for [r] leaves in memory, given the record [cur] that was there: the
    arc arrays stay, and the search for ["true"] that decides the demo
    mode runs on into the feature flag. *)
Definition reloaded (r cur : SettingsConfig.touch_settings_t)
  : SettingsConfig.touch_settings_t :=
  {| SettingsConfig.touch_sensitivity_level := SettingsConfig.touch_sensitivity_level r;
     SettingsConfig.demo_mode_enabled :=
       SettingsConfig.demo_mode_enabled r || SettingsConfig.screen3_enabled r;
     SettingsConfig.screen3_enabled := SettingsConfig.screen3_enabled r;
     SettingsConfig.screen1_arcs_enabled := SettingsConfig.screen1_arcs_enabled cur;
     SettingsConfig.screen2_arcs_enabled := SettingsConfig.screen2_arcs_enabled cur |}.


(** The header as a C compiler accepts it: the sensitivity macros are
    [int] constants. *)
Definition header_fits_int (H : SettingsConfig.settings_config_h) : Prop :=
  INT_MIN <= SettingsConfig.MIN_TOUCH_SENSITIVITY H
  /\ SettingsConfig.MAX_TOUCH_SENSITIVITY H <= INT_MAX
  /\ INT_MIN <= SettingsConfig.DEFAULT_TOUCH_SENSITIVITY H <= INT_MAX.

Definition in_range (H : SettingsConfig.settings_config_h) (level : Z) : Prop :=
  SettingsConfig.MIN_TOUCH_SENSITIVITY H <= level <= SettingsConfig.MAX_TOUCH_SENSITIVITY H.

(** Values for the macros, used where an example needs numbers. *)
Definition example_header : SettingsConfig.settings_config_h :=
  {| SettingsConfig.DEFAULT_TOUCH_SENSITIVITY := 5;
     SettingsConfig.DEFAULT_DEMO_MODE_ENABLED := true;
     SettingsConfig.DEFAULT_SCREEN3_ENABLED := true;
     SettingsConfig.MIN_TOUCH_SENSITIVITY := 1;
     SettingsConfig.MAX_TOUCH_SENSITIVITY := 10;
     SettingsConfig.SCREEN1_ARCS_COUNT := 3;
     SettingsConfig.SCREEN2_ARCS_COUNT := 3 |}.

Definition settings_boot (H : SettingsConfig.settings_config_h) (w : world)
  : machine SettingsConfig.statics_t :=
  {| statics := SettingsConfig.statics_init H; wld := w |}.

(** The text [settings_to_json] prints, before it is cut to the buffer. *)
Definition json_text (r : SettingsConfig.touch_settings_t) : string :=
  "{" ++ SettingsConfig.sens_key ++ itoa (SettingsConfig.touch_sensitivity_level r)
      ++ "," ++ SettingsConfig.demo_key
      ++ SettingsConfig.bool_text (SettingsConfig.demo_mode_enabled r)
      ++ "," ++ SettingsConfig.s3_key
      ++ SettingsConfig.bool_text (SettingsConfig.screen3_enabled r) ++ "}".

(** The characters of the settings file: not NUL, not a conversion. *)
Definition plain_char (c : ascii) : bool :=
  negb (Ascii.eqb c nul) && negb (Ascii.eqb c "%"%char).

(** ** Machines used in the examples about the settings *)

Definition healthy_world : world := world_with (fun _ => healthy).

Definition example_defaults : SettingsConfig.touch_settings_t :=
  SettingsConfig.settings_init_defaults example_header
    (SettingsConfig.current_settings (SettingsConfig.statics_init example_header)).

(** After the first boot on a healthy medium: the defaults in memory, the
    mutex created, the defaults in the file. *)
Definition first_boot_machine : machine SettingsConfig.statics_t :=
  final (SettingsConfig.settings_load example_header
           (settings_boot example_header healthy_world)).

(** The defaults with the first arc of the first screen hidden. *)
Definition record_arc_hidden : SettingsConfig.touch_settings_t :=
  SettingsConfig.with_screen1_arcs [false; true; true] example_defaults.

(** The defaults with the demo mode off; the feature screen stays on. *)
Definition record_demo_off : SettingsConfig.touch_settings_t :=
  {| SettingsConfig.touch_sensitivity_level := 5;
     SettingsConfig.demo_mode_enabled := false;
     SettingsConfig.screen3_enabled := true;
     SettingsConfig.screen1_arcs_enabled := [true; true; true];
     SettingsConfig.screen2_arcs_enabled := [true; true; true] |}.






(** The same with the record whose demo mode is off. *)
Definition demo_saved_machine : machine SettingsConfig.statics_t :=
  final (SettingsConfig.settings_save (Some record_demo_off) first_boot_machine).

Definition demo_loaded_machine : machine SettingsConfig.statics_t :=
  final (SettingsConfig.settings_load example_header demo_saved_machine).




(** The manager with the card mounted in a healthy world. *)
Definition healthy_mounted : machine SdCardManager.statics_t :=
  mounted_machine (fun _ => healthy).




(* ================================================================== *)
(** * The schedule of the initialisation *)

Definition attempt_delay (attempt : Z) : Z := 300 * attempt.
Definition attempt_format (attempt : Z) : bool := 1 <? attempt.
Definition attempt_freq (attempt : Z) : Z := if attempt =? 1 then 8000 else 4000.

(** The events that pace an attempt: its settle delay and its mount. *)
Definition paced (e : event) : bool :=
  match e with
  | EvDelay _ | EvMount _ _ _ => true
  | _ => false
  end.

(** [chron], the delays and mounts of a run oldest first, is a sequence of
    at most [remaining] attempts numbered from [attempt]: each starts with
    its delay and mounts, if it gets that far, with its own reformat flag
    and clock. *)
Fixpoint on_schedule (remaining : nat) (attempt : Z) (chron : list event) : bool :=
  match chron, remaining with
  | [], _ => true
  | EvDelay ms :: rest, S k =>
      (ms =? attempt_delay attempt)
      && match rest with
         | EvMount format freq _ :: rest' =>
             Bool.eqb format (attempt_format attempt)
             && (freq =? attempt_freq attempt)
             && on_schedule k (attempt + 1) rest'
         | _ => on_schedule k (attempt + 1) rest
         end
  | _, _ => false
  end.

(** An event of a teardown. *)
Definition teardown (e : event) : bool :=
  match e with
  | EvUnmount _ | EvMutexDelete _ | EvBusFree _ => true
  | _ => false
  end.

(** The result of the most recent call of [spi_bus_initialize] or of the
    mount in a trace, newest event first. *)
Fixpoint last_driver_result (t : list event) : option esp_err_t :=
  match t with
  | [] => None
  | EvBusInit r :: _ => Some r
  | EvMount _ _ r :: _ => Some r
  | _ :: rest => last_driver_result rest
  end.

Definition starts_with_delay (chron : list event) : bool :=
  match chron with
  | [] | EvDelay _ :: _ => true
  | _ => false
  end.

(** Successful takes and gives of a trace. *)
Definition acquisitions (t : list event) : nat :=
  List.length (filter (fun e => match e with EvTake _ _ true => true | _ => false end) t).

Definition releases (t : list event) : nat :=
  List.length (filter (fun e => match e with EvGive _ => true | _ => false end) t).

(** As many gives as successful takes so far. *)
Definition balanced {St} (m : machine St) : Prop :=
  acquisitions (trace (wld m)) = releases (trace (wld m)).

Definition or_else (d : esp_err_t) (o : option esp_err_t) : esp_err_t :=
  match o with Some r => r | None => d end.

(* ================================================================== *)
(** * Files and state across calls *)

Definition content {St} (m : machine St) (path : string) : option string :=
  fs_get (files (wld m)) path.

(** The files outside [paths] are as they were. *)
Definition untouched_outside {St} (paths : list string) (m m' : machine St) : Prop :=
  forall q, ~ In q paths -> content m' q = content m q.

(** What a file holds, the empty text when it does not exist. *)
Definition text_of (c : option string) : string :=
  match c with Some d => d | None => EmptyString end.

(** The events of [sd_card_deinit] on the static variables [s], newest
    first, when the unmount returns [unmount_ret]. *)
Definition deinit_events (s : SdCardManager.statics_t) (unmount_ret : esp_err_t)
  : list event :=
  (match SdCardManager.sd_card_mutex s with Some h => [EvMutexDelete h] | None => [] end)
  ++ (match SdCardManager.s_card s with Some _ => [EvUnmount unmount_ret] | None => [] end).

(** The card handle and the mutex come and go together, and a set flag
    comes with both. *)
Definition paired (s : SdCardManager.statics_t) : Prop :=
  (SdCardManager.s_card s = None <-> SdCardManager.sd_card_mutex s = None)
  /\ (SdCardManager.sd_card_initialized s = true -> SdCardManager.s_card s <> None).

(** What a call of the manager leaves as it was: the files outside
    [paths], the CAN trace switch, and the pairing of card handle and
    mutex. *)
Definition settled (paths : list string) (m m' : machine SdCardManager.statics_t) : Prop :=
  untouched_outside paths m m'
  /\ SdCardManager.g_can_trace_enabled (statics m')
     = SdCardManager.g_can_trace_enabled (statics m)
  /\ (paired (statics m) -> paired (statics m')).



(** The files a call of the manager may create, write or remove. *)
Definition may_touch (c : api_call) : list string :=
  match c with
  | call_write_file path _ => [path; "/sdcard/test.txt"; "/sdcard/write_test.tmp"]
  | call_append_file path _ => [path]
  | call_get_info _ _ => SdCardManager.test_files
  | call_stability_test => map SdCardManager.stab_test_filename (iterations 10 0)
  | _ => []
  end.

Definition not_slash (c : ascii) : bool := negb (Ascii.eqb c slash).

(** ** Reading the calls of the board bring-up *)

Definition is_add_ok (c : SdCard.board_call) : bool :=
  match c with SdCard.CallAddDevice _ _ r => r =? ESP_OK | _ => false end.

Definition is_rm (c : SdCard.board_call) : bool :=
  match c with SdCard.CallRmDevice _ => true | _ => false end.

Definition count_calls (p : SdCard.board_call -> bool) (l : list SdCard.board_call) : nat :=
  List.length (filter p l).

(** The calls by which [b'] is ahead of [b], newest first. *)
Definition calls_since (b b' : SdCard.board) (l : list SdCard.board_call) : Prop :=
  SdCard.calls b' = (l ++ SdCard.calls b)%list.

(** ** Reading the data endpoint *)

(** The text of the readings before it is cut to the buffer. *)
Definition can_text (d : CanWebsocket.can_data_t) : string :=
  "{" ++ CanWebsocket.json_key "map_pressure" ++ itoa (CanWebsocket.map_pressure d)
      ++ "," ++ CanWebsocket.json_key "wastegate_pos" ++ itoa (CanWebsocket.wastegate_pos d)
      ++ "," ++ CanWebsocket.json_key "tps_position" ++ itoa (CanWebsocket.tps_position d)
      ++ "," ++ CanWebsocket.json_key "engine_rpm" ++ itoa (CanWebsocket.engine_rpm d)
      ++ "," ++ CanWebsocket.json_key "target_boost" ++ itoa (CanWebsocket.target_boost d)
      ++ "," ++ CanWebsocket.json_key "tcu_status" ++ itoa (CanWebsocket.tcu_status d) ++ "}".

Definition no_readings : CanWebsocket.can_data_t :=
  {| CanWebsocket.map_pressure := 0; CanWebsocket.wastegate_pos := 0;
     CanWebsocket.tps_position := 0; CanWebsocket.engine_rpm := 0;
     CanWebsocket.target_boost := 0; CanWebsocket.tcu_status := 0;
     CanWebsocket.data_valid := false |}.

Definition demo_mode_of (s : CanWebsocket.statics_t) : bool :=
  SettingsConfig.demo_mode_enabled
    (SettingsConfig.current_settings (CanWebsocket.settings s)).

(** The simulated readings stay on the scales of the gauges. *)
Definition plausible (v : CanWebsocket.demo_data_t) : bool :=
  Qle_bool 120 (CanWebsocket.demo_map_pressure v)
  && Qle_bool (CanWebsocket.demo_map_pressure v) 150
  && Qle_bool 45 (CanWebsocket.demo_wastegate_pos v)
  && Qle_bool (CanWebsocket.demo_wastegate_pos v) 70
  && Qle_bool 35 (CanWebsocket.demo_tps_position v)
  && Qle_bool (CanWebsocket.demo_tps_position v) 65
  && Qle_bool 2500 (CanWebsocket.demo_engine_rpm v)
  && Qle_bool (CanWebsocket.demo_engine_rpm v) 3000
  && Qle_bool 180 (CanWebsocket.demo_target_boost v)
  && Qle_bool (CanWebsocket.demo_target_boost v) 200.

(** The firmware with the settings of the first boot and no reading yet. *)
Definition can_boot : machine CanWebsocket.statics_t :=
  {| statics := CanWebsocket.statics_init (statics first_boot_machine);
     wld := wld first_boot_machine |}.

(** [s] occurs in [text]. *)
Definition occurs (s text : string) : Prop :=
  exists before after, text = (before ++ s ++ after)%string.

(* ================================================================== *)
(** * Proofs *)

Local Close Scope string_scope.


Section LogicFacts.

Context {St : Type}.

Lemma post_bind {A B} (c : M St A) (k : A -> M St B) m Q R :
  post (c m) (fun a m' => post (k a m') Q R) R -> post (bind c k m) Q R.
Proof. unfold bind. destruct (c m); auto. Qed.

Lemma post_mono {A} (o : outcome St A) (Q Q' : A -> machine St -> Prop) (R R' : machine St -> Prop) :
  post o Q R -> (forall a m, Q a m -> Q' a m) -> (forall m, R m -> R' m) -> post o Q' R'.
Proof. destruct o; simpl; auto. Qed.

Lemma returns_post {A} (o : outcome St A) Q Q' R :
  returns o Q -> (forall a m, Q a m -> Q' a m) -> post o Q' R.
Proof. intros H HQ. eapply post_mono; [exact H | exact HQ | contradiction]. Qed.

Lemma returns_done {A} (o : outcome St A) Q :
  returns o Q -> exists a m', o = Done a m' /\ Q a m'.
Proof. destruct o as [a m'|m']; [|contradiction]. intros H. exists a, m'. auto. Qed.

Lemma done_machine {A} (a b : A) (m m' : machine St) :
  Done a m = Done b m' -> m = m'.
Proof. intros E. inversion E. reflexivity. Qed.

Lemma extends_refl (m : machine St) : extends [] m m.
Proof. reflexivity. Qed.

Lemma extends_trans e1 e2 (m m1 m2 : machine St) :
  extends e1 m m1 -> extends e2 m1 m2 -> extends (e2 ++ e1) m m2.
Proof. unfold extends. intros H1 H2. rewrite H2, H1, app_assoc. reflexivity. Qed.

Lemma logged_refl (m : machine St) : logged [] m m.
Proof. split; reflexivity. Qed.

Lemma logged_trans e1 e2 (m m1 m2 : machine St) :
  logged e1 m m1 -> logged e2 m1 m2 -> logged (e2 ++ e1) m m2.
Proof.
  intros [S1 E1] [S2 E2]. split; [congruence | eapply extends_trans; eauto].
Qed.

Lemma via_refl ok (m : machine St) : via ok m m.
Proof. exists []. split; [apply extends_refl | reflexivity]. Qed.

Lemma via_trans ok (m m1 m2 : machine St) : via ok m m1 -> via ok m1 m2 -> via ok m m2.
Proof.
  intros (e1 & L1 & F1) (e2 & L2 & F2). exists (e2 ++ e1)%list. split.
  - eapply extends_trans; eauto.
  - rewrite forallb_app, F1, F2. reflexivity.
Qed.

Lemma via_weaken (ok ok' : event -> bool) (m m' : machine St) :
  (forall e, ok e = true -> ok' e = true) -> via ok m m' -> via ok' m m'.
Proof.
  intros Hw (evs & E & F). exists evs. split; [exact E|].
  rewrite forallb_forall in *. auto.
Qed.

Lemma quiet_neutral e : quiet e = true -> lock_neutral e = true.
Proof. unfold quiet. intros H. apply andb_true_iff in H. tauto. Qed.

Lemma via_logged ok evs (m m' : machine St) :
  logged evs m m' -> forallb ok evs = true -> via ok m m'.
Proof. intros [_ E] F. exists evs. auto. Qed.

Lemma calm_refl (m : machine St) : calm m m.
Proof. split; [reflexivity | apply via_refl]. Qed.

Lemma calm_trans (m m1 m2 : machine St) : calm m m1 -> calm m1 m2 -> calm m m2.
Proof.
  intros [S1 V1] [S2 V2]. split; [congruence | eapply via_trans; eauto].
Qed.

Lemma calm_logged evs (m m' : machine St) :
  logged evs m m' -> forallb lock_neutral evs = true -> calm m m'.
Proof. intros L F. split; [apply L | eapply via_logged; eauto]. Qed.

(** ** The primitives *)

Ltac run :=
  cbv beta iota delta
    [returns post bind Return gets modify on_world log ask abort
     pdMS_TO_TICKS portMAX_DELAY
     vTaskDelay xSemaphoreCreateMutex vSemaphoreDelete xSemaphoreTake xSemaphoreGive
     spi_bus_initialize spi_bus_free esp_vfs_fat_sdspi_mount esp_vfs_fat_sdcard_unmount
     strdup opendir mkdir get_files fopen file_append fprintf_s fprintf_fmt fwrite fread
     stack_junk fgets fflush fclose closedir remove];
  cbn [statics wld clk oracle trace files next_sem emit tick set_files bump_sem fst snd].

Lemma gets_post {A} (f : St -> A) m :
  returns (gets f m) (fun a m' => a = f (statics m) /\ m' = m).
Proof. cbv. auto. Qed.

Lemma modify_post (f : St -> St) m :
  returns (modify f m) (fun _ m' => statics m' = f (statics m) /\ wld m' = wld m).
Proof. cbv. auto. Qed.

Lemma vTaskDelay_post ms (m : machine St) :
  returns (vTaskDelay ms m) (fun _ m' => logged [EvDelay ms] m m').
Proof. cbv. auto. Qed.

Lemma create_post (m : machine St) :
  returns (xSemaphoreCreateMutex m) (fun h m' => logged [EvMutexCreate h] m m').
Proof.
  destruct m as [s w]. run.
  destruct (a_ok (oracle w (clk w))); run; split; reflexivity.
Qed.

Lemma delete_post h (m : machine St) :
  returns (vSemaphoreDelete h m) (fun _ m' => logged [EvMutexDelete h] m m').
Proof. cbv. auto. Qed.

Lemma take_post h wait (m : machine St) :
  returns (xSemaphoreTake (Some h) wait m)
    (fun taken m' => logged [EvTake h wait taken] m m' /\ (wait = portMAX_DELAY -> taken = true)).
Proof. destruct wait; cbv; auto. repeat split. discriminate. Qed.

Lemma give_post h (m : machine St) :
  returns (xSemaphoreGive (Some h) m) (fun _ m' => logged [EvGive h] m m').
Proof. cbv. auto. Qed.

Lemma bus_init_post (m : machine St) :
  returns (spi_bus_initialize m) (fun r m' => logged [EvBusInit r] m m').
Proof. cbv. auto. Qed.

Lemma bus_free_post (m : machine St) :
  returns (spi_bus_free m) (fun r m' => logged [EvBusFree r] m m').
Proof. cbv. auto. Qed.

Lemma mount_post fmt freq (m : machine St) :
  returns (esp_vfs_fat_sdspi_mount fmt freq m)
    (fun r m' => logged [EvMount fmt freq (fst r)] m m'
                 /\ (fst r = ESP_OK -> snd r <> None)
                 /\ (fst r <> ESP_OK -> snd r = None)).
Proof.
  destruct m as [s w]. unfold returns, esp_vfs_fat_sdspi_mount, bind, ask, log, on_world, Return, post.
  cbn. repeat split.
  - intros ->. discriminate.
  - intros H. destruct (Z.eqb_spec (a_err (oracle w (clk w))) ESP_OK); congruence.
Qed.

Lemma unmount_post (m : machine St) :
  returns (esp_vfs_fat_sdcard_unmount m) (fun r m' => logged [EvUnmount r] m m').
Proof. cbv. auto. Qed.

Lemma strdup_post s (m : machine St) :
  returns (strdup s m) (fun r m' => logged [] m m' /\ (r = None \/ r = Some s)).
Proof.
  destruct m as [st w]. run.
  destruct (a_ok (oracle w (clk w))); run; (split; [split; reflexivity | auto]).
Qed.

Lemma opendir_post p (m : machine St) :
  returns (opendir p m) (fun r m' => logged [EvOpendir p r] m m').
Proof. cbv. auto. Qed.

Lemma mkdir_post p (m : machine St) :
  returns (mkdir p m) (fun r m' => logged [EvMkdir p r] m m').
Proof. cbv. auto. Qed.

Lemma fopen_post p mode (m : machine St) :
  returns (fopen p mode m)
    (fun r m' => exists ok, logged [EvFopen p mode ok] m m'
                            /\ r = if ok then Some p else None).
Proof.
  destruct m as [s w]. unfold returns, fopen, bind, ask, get_files, log, on_world, Return, post.
  cbn.
  destruct mode, (a_ok (oracle w (clk w))); cbn;
    try destruct (fs_get (files w) p); cbn; eexists; (split; [split; reflexivity|reflexivity]).
Qed.

Lemma fprintf_s_post p d (m : machine St) :
  returns (fprintf_s p d m) (fun _ m' => logged [EvFwrite p d] m m').
Proof. cbv -[fs_get fs_put append]. auto. Qed.

Lemma fwrite_post d p (m : machine St) :
  returns (fwrite d p m) (fun n m' => exists d', logged [EvFwrite p d'] m m').
Proof. cbv -[fs_get fs_put append string_take Nat.min]. eexists; split; reflexivity. Qed.

Lemma fread_post b size p (m : machine St) :
  returns (fread b size p m) (fun r m' => logged [EvFread p (fst r) (snd r)] m m').
Proof. cbv -[fs_get append string_take string_drop strlen]. split; reflexivity. Qed.

Lemma stack_junk_post (m : machine St) :
  returns (stack_junk m) (fun _ m' => logged [] m m').
Proof. cbv. auto. Qed.

Lemma fgets_post size p (m : machine St) :
  returns (fgets size p m) (fun _ m' => exists n b, logged [EvFread p n b] m m').
Proof. cbv -[fs_get append string_take string_drop strlen Nat.sub]. do 2 eexists; split; reflexivity. Qed.

Lemma fflush_post p (m : machine St) :
  returns (fflush p m) (fun _ m' => logged [] m m').
Proof. cbv. auto. Qed.

Lemma fclose_post p (m : machine St) :
  returns (fclose p m) (fun _ m' => logged [EvFclose p] m m').
Proof. cbv. auto. Qed.

Lemma closedir_post (m : machine St) :
  returns (closedir m) (fun _ m' => logged [] m m').
Proof. cbv. auto. Qed.

Lemma remove_post p (m : machine St) :
  returns (remove p m) (fun _ m' => logged [EvRemove p] m m').
Proof. cbv -[fs_del]. auto. Qed.

End LogicFacts.

(** ** Tactics *)

Ltac run :=
  cbv beta iota delta
    [returns post bind Return gets modify on_world log ask abort
     pdMS_TO_TICKS portMAX_DELAY
     vTaskDelay xSemaphoreCreateMutex vSemaphoreDelete xSemaphoreTake xSemaphoreGive
     spi_bus_initialize spi_bus_free esp_vfs_fat_sdspi_mount esp_vfs_fat_sdcard_unmount
     strdup opendir mkdir get_files fopen file_append fprintf_s fprintf_fmt fwrite fread
     stack_junk fgets fflush fclose closedir remove];
  cbn [statics wld clk oracle trace files next_sem emit tick set_files bump_sem fst snd
       negb orb andb SdCardManager.is_null SettingsConfig.is_null
       SdCardManager.g_can_trace_enabled SdCardManager.sd_card_mutex SdCardManager.s_card
       SdCardManager.s_host_max_freq_khz SdCardManager.sd_card_initialized
       SdCardManager.set_can_trace SdCardManager.set_mutex SdCardManager.set_card
       SdCardManager.set_max_freq SdCardManager.set_initialized
       SettingsConfig.current_settings SettingsConfig.sd_card_mutex
       SettingsConfig.set_current SettingsConfig.set_mutex].

(** Closes [extends ?evs m m'] and the side condition on the events once
    both machines are explicit. *)
Ltac events :=
  unfold still, via, logged, extends;
  cbn [statics wld clk oracle trace files next_sem emit tick set_files bump_sem];
  first
    [ exists nil; split; reflexivity
    | eexists (cons _ nil); split; reflexivity
    | eexists (cons _ (cons _ nil)); split; reflexivity
    | eexists (cons _ (cons _ (cons _ nil))); split; reflexivity
    | eexists (cons _ (cons _ (cons _ (cons _ nil)))); split; reflexivity
    | eexists (cons _ (cons _ (cons _ (cons _ (cons _ nil))))); split; reflexivity
    | eexists (cons _ (cons _ (cons _ (cons _ (cons _ (cons _ nil)))))); split; reflexivity
    | eexists (cons _ (cons _ (cons _ (cons _ (cons _ (cons _ (cons _ nil))))))); split; reflexivity ].

Section StepFacts.

Context {St : Type}.

Lemma via_step ok e (m0 m m' : machine St) :
  via ok m0 m -> logged [e] m m' -> ok e = true -> via ok m0 m'.
Proof.
  intros V L E. eapply via_trans; [exact V|].
  eapply via_logged; [exact L|]. cbn. rewrite E. reflexivity.
Qed.

Lemma via_silent ok (m0 m m' : machine St) :
  via ok m0 m -> logged [] m m' -> via ok m0 m'.
Proof.
  intros V L. eapply via_trans; [exact V|]. eapply via_logged; [exact L | reflexivity].
Qed.

Lemma via_modify ok (m0 m m' : machine St) :
  via ok m0 m -> wld m' = wld m -> via ok m0 m'.
Proof.
  intros V W. eapply via_trans; [exact V|]. exists []. split; [|reflexivity].
  unfold extends. rewrite W. reflexivity.
Qed.

End StepFacts.

Ltac prim_lemma :=
  first
    [ apply gets_post | apply modify_post | apply vTaskDelay_post | apply create_post
    | apply delete_post | apply take_post | apply give_post | apply bus_init_post
    | apply bus_free_post | apply mount_post | apply unmount_post | apply strdup_post
    | apply opendir_post | apply mkdir_post | apply fopen_post | apply fprintf_s_post
    | apply fwrite_post | apply fread_post | apply stack_junk_post | apply fgets_post
    | apply fflush_post | apply fclose_post | apply closedir_post | apply remove_post ].

Tactic Notation "step" "as" simple_intropattern(a) simple_intropattern(m) simple_intropattern(H) :=
  apply post_bind; eapply returns_post; [ prim_lemma | cbv beta; intros a m H ].

Tactic Notation "step" "by" uconstr(L) "as"
    simple_intropattern(a) simple_intropattern(m) simple_intropattern(H) :=
  apply post_bind; eapply returns_post; [ apply L | cbv beta; intros a m H ].

Tactic Notation "step_post" uconstr(L) "as"
    simple_intropattern(a) simple_intropattern(m) simple_intropattern(H)
    simple_intropattern(m') simple_intropattern(H') :=
  apply post_bind; eapply post_mono;
  [ apply L | cbv beta; intros a m H | cbv beta; intros m' H' ].

Tactic Notation "finish" "by" uconstr(L) "as"
    simple_intropattern(a) simple_intropattern(m) simple_intropattern(H) :=
  eapply returns_post; [ apply L | cbv beta; intros a m H ].

(** Runs a computation without loops on a symbolic machine and splits on
    every answer of the world. *)
Ltac explore :=
  run;
  repeat (match goal with
          | |- context [if ?b then _ else _] => destruct b
          | |- context [match ?o with Some _ => _ | None => _ end] => destruct o
          end; run).

(** ** What a trace tells about the lock *)

Lemma lock_state_neutral evs t :
  forallb lock_neutral evs = true -> lock_state (evs ++ t) = lock_state t.
Proof.
  induction evs as [|e evs IH]; cbn; [reflexivity|].
  intros H. apply andb_true_iff in H. destruct H as [He H].
  rewrite (IH H). destruct (lock_state t) as [holder|]; [|reflexivity].
  destruct e; try reflexivity; cbn in He; try discriminate.
  destruct taken; [discriminate | reflexivity].
Qed.

Lemma guarded_quiet evs t :
  forallb quiet evs = true -> guarded (evs ++ t) = guarded t.
Proof.
  induction evs as [|e evs IH]; cbn; [reflexivity|].
  intros H. apply andb_true_iff in H. destruct H as [He H].
  rewrite (IH H). unfold quiet in He. apply andb_true_iff in He. destruct He as [_ He].
  destruct (touches_medium e); [discriminate | reflexivity].
Qed.

Lemma guarded_held evs t :
  forallb lock_neutral evs = true -> is_held (lock_state t) = true ->
  guarded t = true -> guarded (evs ++ t) = true.
Proof.
  intros Hn Hh Hg. induction evs as [|e evs IH]; cbn; [exact Hg|].
  cbn in Hn. apply andb_true_iff in Hn. destruct Hn as [He Hn].
  rewrite (IH Hn), (lock_state_neutral _ _ Hn), Hh.
  destruct (touches_medium e); reflexivity.
Qed.

Section TraceFacts.

Context {St : Type}.

Lemma via_lock_of (m m' : machine St) :
  via lock_neutral m m' -> lock_of m' = lock_of m.
Proof.
  intros (evs & E & F). unfold lock_of. rewrite E. apply lock_state_neutral. exact F.
Qed.

Lemma still_lock_of (m m' : machine St) : still m m' -> lock_of m' = lock_of m.
Proof.
  intros V. apply via_lock_of. eapply via_weaken; [apply quiet_neutral | exact V].
Qed.

Lemma still_serialized (m m' : machine St) :
  still m m' -> serialized m' = serialized m.
Proof.
  intros (evs & E & F). unfold serialized. rewrite E. apply guarded_quiet. exact F.
Qed.

Lemma via_serialized (m m' : machine St) :
  via lock_neutral m m' -> is_held (lock_of m) = true ->
  serialized m = true -> serialized m' = true.
Proof.
  intros (evs & E & F) Hh Hg. unfold serialized. rewrite E. apply guarded_held; assumption.
Qed.

End TraceFacts.

Section LockFacts.

Context {St : Type}.

Lemma lock_of_take h w (m m' : machine St) :
  logged [EvTake h w true] m m' -> lock_of m = Some None -> lock_of m' = Some (Some h).
Proof.
  intros [_ E] H. unfold lock_of in *. rewrite E. cbn [app lock_state].
  rewrite H. reflexivity.
Qed.

Lemma lock_of_take_fail h w (m m' : machine St) :
  logged [EvTake h w false] m m' -> lock_of m' = lock_of m.
Proof.
  intros [_ E]. unfold lock_of in *. rewrite E. cbn [app lock_state].
  destruct (lock_state (trace (wld m))); reflexivity.
Qed.

Lemma lock_of_give h (m m' : machine St) :
  logged [EvGive h] m m' -> lock_of m = Some (Some h) -> lock_of m' = Some None.
Proof.
  intros [_ E] H. unfold lock_of in *. rewrite E. cbn [app lock_state].
  rewrite H. cbn. rewrite Nat.eqb_refl. reflexivity.
Qed.

Lemma lock_of_neutral e (m m' : machine St) :
  logged [e] m m' -> lock_neutral e = true -> lock_of m' = lock_of m.
Proof.
  intros [_ E] H. unfold lock_of. rewrite E. cbn [app lock_state].
  destruct (lock_state (trace (wld m))) as [holder|]; [|reflexivity].
  destruct e; try reflexivity; cbn in H; try discriminate.
  destruct taken; [discriminate | reflexivity].
Qed.

Lemma serialized_lifecycle e (m m' : machine St) :
  logged [e] m m' -> touches_medium e = false -> serialized m' = serialized m.
Proof. intros [_ E] H. unfold serialized. rewrite E. cbn. rewrite H. reflexivity. Qed.

End LockFacts.

Section Manager.

Import SdCardManager.

Lemma sd_card_deinit_post m :
  returns (sd_card_deinit m)
    (fun r m' => r = ESP_OK /\ unmounted (statics m') /\ still m m').
Proof.
  destruct m as [[g mu ca fr fl] w].
  unfold sd_card_deinit. destruct ca, mu; run; cbn;
    (split; [reflexivity | split; [repeat split | events]]).
Qed.

Lemma sd_card_full_deinit_post m :
  returns (sd_card_full_deinit m)
    (fun r m' => r = ESP_OK /\ unmounted (statics m') /\ still m m').
Proof.
  unfold sd_card_full_deinit, returns.
  step by sd_card_deinit_post as r1 m1 (-> & U & V).
  step as r2 m2 [S L]. cbn. split; [reflexivity|]. split.
  - unfold unmounted in *. rewrite S. exact U.
  - eapply via_step; [exact V | split; [exact S | exact L] | reflexivity].
Qed.

Lemma init_attempts_post remaining : forall attempt ret m,
  returns (init_attempts remaining attempt ret m)
    (fun r m' => still m m'
                 /\ ((mounted (statics m') /\ r = ESP_OK)
                     \/ unmounted (statics m')
                     \/ (remaining = O /\ m' = m /\ r = ret))).
Proof.
  induction remaining as [|k IH]; intros attempt ret m.
  - cbn. split; [apply via_refl | auto].
  - assert (Hfail : forall r1 m1, still m m1 ->
              returns ((sd_card_full_deinit ;; init_attempts k (attempt + 1) r1) m1)
                (fun r m' => still m m'
                   /\ ((mounted (statics m') /\ r = ESP_OK)
                       \/ unmounted (statics m')
                       \/ (S k = O /\ m' = m /\ r = ret)))).
    { intros r1 m1 V. unfold returns.
      step by sd_card_full_deinit_post as r2 m2 (_ & U & V1).
      finish by IH as r m' (V2 & C).
      split; [eapply via_trans; [exact V|eapply via_trans; eauto]|].
      destruct C as [C | [C | (_ & -> & _)]]; auto. }
    cbn [init_attempts]. unfold returns.
    step as x1 m1 L1.
    assert (V1 : still m m1) by (eapply via_step; [apply via_refl | exact L1 | reflexivity]).
    step as ret1 m2 L2.
    assert (V2 : still m m2) by (eapply via_step; [exact V1 | exact L2 | reflexivity]).
    destruct (negb (ret1 =? ESP_OK) && negb (ret1 =? ESP_ERR_INVALID_STATE)).
    + apply Hfail. exact V2.
    + step as x3 m3 [S3 W3].
      assert (V3 : still m m3) by (eapply via_modify; eauto).
      step as freq m3' [-> ->].
      step as [r4 c4] m4 (L4 & Hok & Hbad). cbn [fst snd] in *.
      assert (V4 : still m m4) by (eapply via_step; [exact V3 | exact L4 | reflexivity]).
      apply post_bind.
      assert (Hcard : returns (match c4 with
                               | Some c => modify (set_card (Some c))
                               | None => Return tt
                               end m4)
                        (fun _ m5 => still m m5 /\ (r4 = ESP_OK -> s_card (statics m5) <> None))).
      { destruct c4 as [c|]; cbn.
        - split; [eapply via_modify; [exact V4 | reflexivity]|]. intros _. discriminate.
        - split; [exact V4|]. intros E. exfalso. apply (Hok E). reflexivity. }
      finish by Hcard as x5 m5 (V5 & Hc).
      destruct (Z.eqb_spec r4 ESP_OK) as [E|E].
      * step as h m6 L6.
        assert (V6 : still m m6) by (eapply via_step; [exact V5 | exact L6 | reflexivity]).
        step as x7 m7 [S7 W7].
        assert (V7 : still m m7) by (eapply via_modify; eauto).
        destruct h as [h|]; cbn [is_null].
        -- step as x8 m8 [S8 W8]. cbn.
           split; [eapply via_modify; eauto|]. left. split; [|reflexivity].
           destruct L6 as [S6 _].
           unfold mounted. rewrite S8, S7, S6. cbn. repeat split; try discriminate.
           apply Hc. exact E.
        -- apply Hfail. exact V7.
      * apply Hfail. exact V5.
Qed.

Lemma sd_card_init_post m :
  returns (sd_card_init m)
    (fun r m' => still m m'
                 /\ ((mounted (statics m') /\ r = ESP_OK) \/ unmounted (statics m'))).
Proof.
  unfold sd_card_init, returns.
  step as again m0 [-> ->].
  apply post_bind.
  assert (Hpre : returns ((if sd_card_initialized (statics m)
                           then sd_card_full_deinit ;; vTaskDelay 200
                           else Return tt) m)
                   (fun _ m1 => still m m1)).
  { destruct (sd_card_initialized (statics m)); [|cbn; apply via_refl].
    unfold returns. step by sd_card_full_deinit_post as r1 m1 (_ & _ & V).
    finish by vTaskDelay_post as x2 m2 L.
    eapply via_step; [exact V | exact L | reflexivity]. }
  finish by Hpre as x1 m1 V1.
  finish by init_attempts_post as r m' (V2 & C).
  split; [eapply via_trans; eauto|].
  destruct C as [C | [C | (C & _)]]; auto. discriminate.
Qed.

Lemma ensure_dir_exists_post path m :
  returns (ensure_dir_exists path m) (fun _ m' => calm m m').
Proof.
  destruct m as [s w]. unfold ensure_dir_exists. explore; (split; [reflexivity | events]).
Qed.

Lemma simple_file_test_post m :
  returns (simple_file_test m) (fun _ m' => calm m m').
Proof.
  destruct m as [s w]. unfold simple_file_test. explore; (split; [reflexivity | events]).
Qed.

Lemma temp_file_test_post m :
  returns (temp_file_test m) (fun _ m' => calm m m').
Proof.
  destruct m as [s w]. unfold temp_file_test. explore; (split; [reflexivity | events]).
Qed.

Lemma sd_card_is_initialized_post m :
  returns (sd_card_is_initialized m)
    (fun alive m' =>
       via lock_neutral m m'
       /\ s_card (statics m') = s_card (statics m)
       /\ sd_card_mutex (statics m') = sd_card_mutex (statics m)
       /\ (sd_card_initialized (statics m') = sd_card_initialized (statics m)
           \/ sd_card_initialized (statics m') = false)
       /\ (alive = true -> statics m' = statics m /\ mounted (statics m))).
Proof.
  destruct m as [[g mu ca fr fl] w]. unfold sd_card_is_initialized.
  destruct fl, ca as [c|], mu as [h|]; explore;
    (split; [events | repeat split; auto; try discriminate]).
Qed.

Lemma keeps_refl m : keeps m m.
Proof. split; auto. Qed.

Lemma keeps_calm m0 m m' :
  keeps m0 m -> calm m m' -> is_held (lock_of m) = true -> keeps m0 m'.
Proof.
  intros [Kg Kh] [S V] Hh. split.
  - intros H. eapply via_serialized; eauto.
  - rewrite S. exact Kh.
Qed.

Lemma holding_calm m0 m m' : holding m0 m -> calm m m' -> holding m0 m'.
Proof.
  intros (h & Hm & Hl & K) C. exists h. destruct C as [S V]. repeat split.
  - rewrite S. exact Hm.
  - rewrite (via_lock_of _ _ V). exact Hl.
  - intros H. eapply via_serialized; [exact V | rewrite Hl; reflexivity | apply K; exact H].
  - rewrite S. apply K.
Qed.

Lemma holding_logged e m0 m m' :
  holding m0 m -> logged [e] m m' -> lock_neutral e = true -> holding m0 m'.
Proof.
  intros Hh L E. eapply holding_calm; [exact Hh|].
  eapply calm_logged; [exact L|]. cbn. rewrite E. reflexivity.
Qed.

Lemma give_mutex_post m0 m :
  holding m0 m -> returns (give_mutex m) (fun _ m' => statics m' = statics m /\ released m0 m').
Proof.
  intros (h & Hm & Hl & Kg & Kh). unfold give_mutex, returns.
  step as mutex m1 [-> ->]. rewrite Hm.
  finish by give_post as x m2 L. split; [apply L|]. split.
  - eapply lock_of_give; eauto.
  - split.
    + intros H. rewrite (serialized_lifecycle _ _ _ L); auto.
    + destruct L as [S _]. rewrite S. exact Kh.
Qed.

Lemma take_mutex_post wait m0 m :
  released m0 m ->
  post (take_mutex wait m)
    (fun taken m' => statics m' = statics m
                     /\ (if taken then holding m0 m' else released m0 m')
                     /\ (wait = portMAX_DELAY -> taken = true))
    (released m0).
Proof.
  intros (Hl & Kg & Kh). unfold take_mutex.
  step as mutex m1 [-> ->].
  destruct (sd_card_mutex (statics m)) as [h|] eqn:Hm; [|cbn; repeat split; assumption].
  finish by take_post as taken m2 [L W]. destruct L as [S E].
  split; [exact S|]. split; [|exact W]. destruct taken.
  - exists h. repeat split.
    + rewrite S. exact Hm.
    + eapply lock_of_take; [split; eauto | exact Hl].
    + intros H. rewrite (serialized_lifecycle _ _ _ (conj S E)); auto.
    + rewrite S. exact Kh.
  - split; [rewrite (lock_of_take_fail _ _ _ _ (conj S E)); exact Hl|]. split.
    + intros H. rewrite (serialized_lifecycle _ _ _ (conj S E)); auto.
    + rewrite S. exact Kh.
Qed.

Lemma mounted_handle s : mounted s -> handle_when_mounted s.
Proof. intros (_ & H & _) _. exact H. Qed.

Lemma unmounted_handle s : unmounted s -> handle_when_mounted s.
Proof. intros (H & _) T. congruence. Qed.

Lemma recover_before_retry_post retry m0 m :
  holding m0 m ->
  post (recover_before_retry retry m)
    (fun r m' => match r with
                 | None => holding m0 m'
                 | Some _ => released m0 m'
                 end)
    (released m0).
Proof.
  intros Hh. unfold recover_before_retry.
  step as x1 m1 L1.
  assert (H1 : holding m0 m1) by (eapply holding_logged; eauto).
  step by sd_card_is_initialized_post as alive m2 (V2 & Sc & Sm & Sf & Sa).
  destruct alive.
  - cbn. destruct (Sa eq_refl) as [S2 _]. eapply holding_calm; [exact H1|]. split; assumption.
  - assert (H2 : holding m0 m2).
    { destruct H1 as (h & Hm & Hl & Kg & Kh). exists h. repeat split.
      - rewrite Sm. exact Hm.
      - rewrite (via_lock_of _ _ V2). exact Hl.
      - intros H. eapply via_serialized; [exact V2 | rewrite Hl; reflexivity | auto].
      - intros H T. rewrite Sc. apply Kh; [exact H|].
        destruct Sf as [Sf|Sf]; congruence. }
    step by (give_mutex_post m0) as x3 m3 [S3 (Hl3 & Kg3 & Kh3)]; [exact H2|].
    step by sd_card_init_post as reinit_result m4 (V4 & St4).
    assert (R4 : released m0 m4).
    { split; [rewrite (still_lock_of _ _ V4); exact Hl3|]. split.
      - intros H. rewrite (still_serialized _ _ V4). auto.
      - intros _. destruct St4 as [[St4 _]|St4];
          [apply mounted_handle | apply unmounted_handle]; exact St4. }
    destruct (negb (reinit_result =? ESP_OK)).
    + cbn. exact R4.
    + step_post (take_mutex_post (pdMS_TO_TICKS 5000) m0) as taken m5 (S5 & H5 & _) m5 H5;
        [exact R4 | | exact H5].
      destruct taken; exact H5.
Qed.

Lemma open_with_retry_post remaining : forall retry path m0 m,
  holding m0 m ->
  post (open_with_retry remaining retry path m)
    (fun r m' => match r with
                 | inl _ => released m0 m'
                 | inr _ => holding m0 m'
                 end)
    (released m0).
Proof.
  induction remaining as [|k IH]; intros retry path m0 m Hh.
  - cbn. exact Hh.
  - cbn [open_with_retry]. apply post_bind.
    assert (Hearly : post ((if 0 <? retry then recover_before_retry retry else Return None) m)
                       (fun r m' => match r with
                                    | None => holding m0 m'
                                    | Some _ => released m0 m'
                                    end)
                       (released m0)).
    { destruct (0 <? retry); [apply recover_before_retry_post; exact Hh | exact Hh]. }
    eapply post_mono; [exact Hearly | cbv beta | auto].
    intros [e|] m1 H1; [exact H1|].
    step as f m2 (ok & L2 & ->).
    assert (H2 : holding m0 m2) by (eapply holding_logged; eauto).
    destruct ok; [exact H2|]. apply IH. exact H2.
Qed.

Lemma released_refl m : lock_of m = Some None -> released m m.
Proof. intros H. split; [exact H | apply keeps_refl]. Qed.

Lemma sd_card_write_file_post path data m :
  lock_of m = Some None ->
  post (sd_card_write_file path data m) (fun _ m' => released m m') (released m).
Proof.
  intros Hl. pose proof (released_refl m Hl) as R0.
  unfold sd_card_write_file.
  step as flag m1 [-> ->]. step as card m1 [-> ->].
  destruct (negb (sd_card_initialized (statics m)) || is_null (s_card (statics m)));
    [exact R0|].
  step as mutex m1 [-> ->].
  destruct (is_null (sd_card_mutex (statics m))); [exact R0|].
  step_post (take_mutex_post (pdMS_TO_TICKS 5000) m) as taken m1 (S1 & H1 & _) m1 H1;
    [exact R0 | | exact H1].
  destruct taken; [|exact H1].
  step by ensure_dir_exists_post as dir m2 C2.
  assert (H2 : holding m m2) by (eapply holding_calm; eauto).
  destruct (negb (dir =? ESP_OK)).
  { step by (give_mutex_post m) as x m3 [_ R3]; [exact H2 | exact R3]. }
  step as root_dir m3 L3.
  assert (H3 : holding m m3) by (eapply holding_logged; eauto).
  destruct (negb root_dir).
  { step by (give_mutex_post m) as x m4 [_ R4]; [exact H3 | exact R4]. }
  step as x4 m4 L4.
  assert (H4 : holding m m4) by (eapply holding_calm; [exact H3 | eapply calm_logged; eauto]).
  step by simple_file_test_post as x5 m5 C5.
  assert (H5 : holding m m5) by (eapply holding_calm; eauto).
  step by temp_file_test_post as x6 m6 C6.
  assert (H6 : holding m m6) by (eapply holding_calm; eauto).
  step_post (open_with_retry_post max_retries 0 path m) as opened m7 H7 m7 H7;
    [exact H6 | | exact H7].
  destruct opened as [e | [f|]].
  - exact H7.
  - step as x8 m8 L8.
    assert (H8 : holding m m8) by (eapply holding_logged; eauto).
    step as x9 m9 L9.
    assert (H9 : holding m m9) by (eapply holding_logged; eauto).
    step by (give_mutex_post m) as x m10 [_ R10]; [exact H9 | exact R10].
  - step by (give_mutex_post m) as x m8 [_ R8]; [exact H7 | exact R8].
Qed.

Lemma sd_card_append_file_post path data m :
  lock_of m = Some None ->
  post (sd_card_append_file path data m) (fun _ m' => released m m') (released m).
Proof.
  intros Hl. pose proof (released_refl m Hl) as R0.
  unfold sd_card_append_file.
  step_post (take_mutex_post portMAX_DELAY m) as taken m1 (S1 & H1 & _) m1 H1;
    [exact R0 | | exact H1].
  destruct taken; [|exact H1].
  step by ensure_dir_exists_post as dir m2 C2.
  assert (H2 : holding m m2) by (eapply holding_calm; eauto).
  destruct (negb (dir =? ESP_OK)).
  { step by (give_mutex_post m) as x m3 [_ R3]; [exact H2 | exact R3]. }
  step as f m3 (ok & L3 & ->).
  assert (H3 : holding m m3) by (eapply holding_logged; eauto).
  destruct ok.
  - step as x4 m4 L4.
    assert (H4 : holding m m4) by (eapply holding_logged; eauto).
    step as x5 m5 L5.
    assert (H5 : holding m m5) by (eapply holding_logged; eauto).
    step by (give_mutex_post m) as x m6 [_ R6]; [exact H5 | exact R6].
  - step by (give_mutex_post m) as x m4 [_ R4]; [exact H3 | exact R4].
Qed.

(** ** The health checks *)

(** Finds the events of an explicit final machine and leaves what is to be
    shown about them. *)
Ltac with_events :=
  unfold logged, extends;
  cbn [statics wld clk oracle trace files next_sem emit tick set_files bump_sem];
  first
    [ exists nil; split; [split; reflexivity|]
    | eexists (cons _ nil); split; [split; reflexivity|]
    | eexists (cons _ (cons _ nil)); split; [split; reflexivity|]
    | eexists (cons _ (cons _ (cons _ nil))); split; [split; reflexivity|]
    | eexists (cons _ (cons _ (cons _ (cons _ nil)))); split; [split; reflexivity|]
    | eexists (cons _ (cons _ (cons _ (cons _ (cons _ nil))))); split; [split; reflexivity|]
    | eexists (cons _ (cons _ (cons _ (cons _ (cons _ (cons _ nil))))));
      split; [split; reflexivity|]
    | eexists (cons _ (cons _ (cons _ (cons _ (cons _ (cons _ (cons _ nil)))))));
      split; [split; reflexivity|] ].

Lemma stability_iteration_post i m :
  returns (stability_iteration i m)
    (fun ok m' => exists evs,
       logged evs m m'
       /\ forallb lock_neutral evs = true
       /\ write_opens evs = [stab_test_filename i]
       /\ successes evs = Z.b2z ok
       /\ cleaned_up evs).
Proof.
  destruct m as [s w]. unfold stability_iteration, cleaned_up.
  generalize (stab_test_filename i) as name. intros name.
  explore; with_events; (repeat split; try reflexivity);
    try (intros name' Hin; cbn in Hin |- *; intuition congruence);
    unfold successes, strlen; cbn [filter stability_readback String.length];
    match goal with |- context [if ?b then _ else _] => destruct b end; reflexivity.
Qed.

Lemma write_opens_app a b : write_opens (a ++ b) = (write_opens a ++ write_opens b)%list.
Proof.
  induction a as [|e a IH]; cbn; [reflexivity|].
  destruct (opened_for_write e); cbn; rewrite IH; reflexivity.
Qed.

Lemma write_opens_rev l : write_opens (rev l) = rev (write_opens l).
Proof.
  induction l as [|e l IH]; cbn; [reflexivity|].
  rewrite write_opens_app, IH. cbn. destruct (opened_for_write e); cbn.
  - reflexivity.
  - rewrite app_nil_r. reflexivity.
Qed.

Lemma successes_app a b : successes (a ++ b) = successes a + successes b.
Proof. unfold successes. rewrite filter_app, length_app. lia. Qed.

Lemma cleaned_up_app a b : cleaned_up a -> cleaned_up b -> cleaned_up (a ++ b).
Proof.
  intros Ha Hb name Hin. apply in_app_iff in Hin. apply in_app_iff.
  destruct Hin; [left; apply Ha | right; apply Hb]; assumption.
Qed.

Lemma stability_loop_post remaining : forall i acc m,
  returns (stability_loop remaining i acc m)
    (fun succ m' => exists evs,
       logged evs m m'
       /\ forallb lock_neutral evs = true
       /\ write_opens (rev evs) = map stab_test_filename (iterations remaining i)
       /\ succ = acc + successes evs
       /\ 0 <= successes evs <= Z.of_nat remaining
       /\ cleaned_up evs).
Proof.
  induction remaining as [|k IH]; intros i acc m.
  - cbn. exists []. repeat split; cbn; try lia. intros name [].
  - cbn [stability_loop]. unfold returns.
    step by stability_iteration_post as ok m1 (e1 & L1 & N1 & O1 & S1 & C1).
    step as x2 m2 L2.
    finish by IH as succ m3 (e3 & L3 & N3 & O3 & S3 & B3 & C3).
    exists (e3 ++ [EvDelay 50] ++ e1)%list. repeat split.
    + destruct L1 as [? _], L2 as [? _], L3 as [? _]. congruence.
    + eapply extends_trans; [|apply L3].
      eapply extends_trans; [apply L1 | apply L2].
    + rewrite !forallb_app, N1, N3. reflexivity.
    + rewrite !rev_app_distr, !write_opens_app, O3. cbn [rev app write_opens opened_for_write].
      rewrite write_opens_rev, O1. reflexivity.
    + rewrite !successes_app, S1 in *. subst succ.
      change (successes [EvDelay 50]) with 0. destruct ok; cbn [Z.b2z]; lia.
    + rewrite !successes_app, S1. change (successes [EvDelay 50]) with 0.
      destruct ok; cbn [Z.b2z]; lia.
    + rewrite !successes_app, S1. change (successes [EvDelay 50]) with 0.
      destruct ok; cbn [Z.b2z]; lia.
    + apply cleaned_up_app; [exact C3|]. apply cleaned_up_app; [|exact C1].
      intros name [H|[]]. discriminate.
Qed.



Lemma free_space_probe_post file m :
  returns (free_space_probe file m)
    (fun passed m' => exists evs,
       logged evs m m'
       /\ forallb lock_neutral evs = true
       /\ write_opens evs = [file]
       /\ passed = existsb probe_readback evs).
Proof.
  destruct m as [s w]. unfold free_space_probe.
  explore; with_events; (repeat split; try reflexivity);
    unfold strlen; cbn [existsb probe_readback String.length orb];
    rewrite ?orb_false_r; reflexivity.
Qed.

Lemma write_opens_repeat_rev evs file k :
  write_opens evs = repeat file k -> write_opens (rev evs) = repeat file k.
Proof.
  intros H. rewrite write_opens_rev, H. clear H.
  induction k as [|k IH]; cbn; [reflexivity|].
  rewrite IH. clear IH. induction k as [|k IH]; cbn; [reflexivity|].
  rewrite <- IH. reflexivity.
Qed.

Lemma probe_retries_post remaining : forall retry file m,
  returns (probe_retries remaining retry file m)
    (fun passed m' => exists evs k,
       logged evs m m'
       /\ forallb lock_neutral evs = true
       /\ write_opens evs = repeat file k
       /\ (k <= remaining)%nat
       /\ (passed = false -> k = remaining)
       /\ passed = existsb probe_readback evs).
Proof.
  induction remaining as [|n IH]; intros retry file m.
  - cbn. exists [], O. repeat split; auto.
  - cbn [probe_retries]. unfold returns.
    apply post_bind.
    assert (Hdelay : returns ((if 0 <? retry then vTaskDelay (50 + retry * 50) else Return tt) m)
                       (fun _ m1 => exists e, logged e m m1 /\ forallb lock_neutral e = true
                                              /\ write_opens e = [] /\ existsb probe_readback e = false)).
    { destruct (0 <? retry).
      - eapply returns_post; [apply vTaskDelay_post|]. cbv beta. intros _ m1 L.
        eexists. split; [exact L|]. repeat split.
      - cbn. exists []. repeat split. }
    finish by Hdelay as x1 m1 (e1 & L1 & N1 & O1 & P1).
    step by free_space_probe_post as passed m2 (e2 & L2 & N2 & O2 & P2).
    destruct passed.
    + cbn. exists (e2 ++ e1)%list, 1%nat. repeat split.
      * destruct L1 as [? _], L2 as [? _]. congruence.
      * eapply extends_trans; [apply L1 | apply L2].
      * rewrite forallb_app, N1, N2. reflexivity.
      * rewrite write_opens_app, O1, O2. reflexivity.
      * lia.
      * discriminate.
      * rewrite existsb_app, <- P2. reflexivity.
    + finish by IH as passed m3 (e3 & k & L3 & N3 & O3 & B3 & F3 & P3).
      exists (e3 ++ e2 ++ e1)%list, (S k). repeat split.
      * destruct L1 as [? _], L2 as [? _], L3 as [? _]. congruence.
      * eapply extends_trans; [|apply L3]. eapply extends_trans; [apply L1 | apply L2].
      * rewrite !forallb_app, N1, N2, N3. reflexivity.
      * rewrite !write_opens_app, O1, O2, O3, app_nil_r.
        change (repeat file k ++ [file])%list with (repeat file k ++ repeat file 1)%list.
        rewrite <- repeat_app. f_equal. lia.
      * lia.
      * intros H. rewrite (F3 H). reflexivity.
      * rewrite !existsb_app, <- P2, P1, P3. cbn. rewrite !orb_false_r. reflexivity.
Qed.

Lemma firstn_app_exact {A} (a b : list A) k :
  firstn (Datatypes.length a + k) (a ++ b) = (a ++ firstn k b)%list.
Proof. induction a as [|x a IH]; cbn; [reflexivity | rewrite IH; reflexivity]. Qed.

Lemma firstn_repeat_app {A} (x : A) k n (b : list A) :
  (k <= n)%nat -> firstn k (repeat x n ++ b) = repeat x k.
Proof.
  revert n. induction k as [|k IH]; intros n H; cbn; [reflexivity|].
  destruct n as [|n]; [lia|]. cbn. rewrite IH by lia. reflexivity.
Qed.

Lemma probe_files_post candidates : forall m,
  returns (probe_files candidates m)
    (fun passed m' => exists evs k,
       logged evs m m'
       /\ forallb lock_neutral evs = true
       /\ write_opens (rev evs) = firstn k (probe_schedule candidates)
       /\ passed = existsb probe_readback evs).
Proof.
  induction candidates as [|file rest IH]; intros m.
  - cbn. exists [], O. repeat split.
  - cbn [probe_files]. unfold returns.
    step by probe_retries_post as passed m1 (e1 & k1 & L1 & N1 & O1 & B1 & F1 & P1).
    destruct passed.
    + run. exists e1, k1. repeat split; try apply L1; try assumption.
      rewrite (write_opens_repeat_rev _ _ _ O1).
      change (probe_schedule (file :: rest))
        with (repeat file 3 ++ probe_schedule rest)%list.
      rewrite firstn_repeat_app by exact B1. reflexivity.
    + finish by IH as passed m2 (e2 & k2 & L2 & N2 & O2 & P2).
      exists (e2 ++ e1)%list, (3 + k2)%nat. repeat split.
      * destruct L1 as [? _], L2 as [? _]. congruence.
      * eapply extends_trans; [apply L1 | apply L2].
      * rewrite forallb_app, N1, N2. reflexivity.
      * rewrite rev_app_distr, write_opens_app, O2, (write_opens_repeat_rev _ _ _ O1).
        rewrite (F1 eq_refl).
        change (probe_schedule (file :: rest))
          with (repeat file 3 ++ probe_schedule rest)%list.
        change (3 + k2)%nat with (Datatypes.length (repeat file 3) + k2)%nat.
        rewrite firstn_app_exact. reflexivity.
      * rewrite existsb_app, <- P1, P2. cbn. rewrite orb_false_r. reflexivity.
Qed.

Lemma post_final {A} (o : outcome statics_t A) (P : machine statics_t -> Prop) :
  post o (fun _ m' => P m') P -> P (final o).
Proof. destruct o; auto. Qed.

End Manager.


(* ================================================================== *)
(** * The schedule of [sd_card_init] *)

Section Schedule.

Import SdCardManager.

Lemma sd_card_full_deinit_events m :
  returns (sd_card_full_deinit m)
    (fun _ m' => exists evs, extends evs m m' /\ forallb teardown evs = true).
Proof.
  destruct m as [[g mu ca fr fl] w]. unfold sd_card_full_deinit, sd_card_deinit.
  destruct ca, mu; run; unfold extends; cbn [wld trace emit tick];
    first [ eexists (cons _ nil); split; reflexivity
          | eexists (cons _ (cons _ nil)); split; reflexivity
          | eexists (cons _ (cons _ (cons _ nil))); split; reflexivity ].
Qed.

Lemma teardown_not_paced evs :
  forallb teardown evs = true -> filter paced (rev evs) = [].
Proof.
  induction evs as [|e evs IH]; cbn; [reflexivity|].
  intros H. apply andb_true_iff in H. destruct H as [He Hs].
  rewrite filter_app, (IH Hs). destruct e; cbn in He; try discriminate; reflexivity.
Qed.

Lemma teardown_no_result evs rest :
  forallb teardown evs = true ->
  last_driver_result (evs ++ rest) = last_driver_result rest.
Proof.
  induction evs as [|e evs IH]; cbn; [reflexivity|].
  intros H. apply andb_true_iff in H. destruct H as [He Hs].
  destruct e; cbn in He; try discriminate; exact (IH Hs).
Qed.

Lemma last_driver_result_app a b :
  last_driver_result (a ++ b)
  = match last_driver_result a with
    | Some r => Some r
    | None => last_driver_result b
    end.
Proof.
  induction a as [|e a IH]; cbn; [reflexivity|]. destruct e; try exact IH; reflexivity.
Qed.

Lemma on_schedule_next k attempt chron :
  starts_with_delay chron = true ->
  on_schedule (S k) attempt (EvDelay (300 * attempt) :: chron)
  = on_schedule k (attempt + 1) chron.
Proof.
  intros H. cbn [on_schedule]. unfold attempt_delay. rewrite Z.eqb_refl.
  destruct chron as [|[] ?]; try discriminate; reflexivity.
Qed.

Lemma on_schedule_mount k attempt ret chron :
  on_schedule (S k) attempt
    (EvDelay (300 * attempt)
       :: EvMount (1 <? attempt) (if attempt =? 1 then 8000 else 4000) ret :: chron)
  = on_schedule k (attempt + 1) chron.
Proof.
  cbn [on_schedule]. unfold attempt_delay, attempt_format, attempt_freq.
  rewrite !Z.eqb_refl, eqb_reflx. reflexivity.
Qed.

Lemma init_attempts_schedule remaining : forall attempt ret m,
  returns (init_attempts remaining attempt ret m)
    (fun r m' => exists evs,
       extends evs m m'
       /\ on_schedule remaining attempt (filter paced (rev evs)) = true
       /\ starts_with_delay (filter paced (rev evs)) = true
       /\ r = or_else ret (last_driver_result evs)).
Proof.
  induction remaining as [|k IH]; intros attempt ret m.
  - cbn. exists []. repeat split.
  - assert (Hfail : forall r1 m1 body,
              extends body m m1 ->
              returns ((sd_card_full_deinit ;; init_attempts k (attempt + 1) r1) m1)
                (fun r m' => exists rest td,
                   extends (rest ++ td ++ body) m m'
                   /\ forallb teardown td = true
                   /\ on_schedule k (attempt + 1) (filter paced (rev rest)) = true
                   /\ starts_with_delay (filter paced (rev rest)) = true
                   /\ r = or_else r1 (last_driver_result rest))).
    { intros r1 m1 body E. unfold returns.
      step by sd_card_full_deinit_events as r2 m2 (td & E2 & T2).
      finish by IH as r m' (rest & E3 & S3 & D3 & R3).
      exists rest, td. repeat split; auto.
      exact (extends_trans _ _ _ _ _ (extends_trans _ _ _ _ _ E E2) E3). }
    cbn [init_attempts]. unfold returns.
    step as x1 m1 L1. step as ret1 m2 L2.
    pose proof (extends_trans _ _ _ _ _ (proj2 L1) (proj2 L2)) as E2. cbn [app] in E2.
    destruct (negb (ret1 =? ESP_OK) && negb (ret1 =? ESP_ERR_INVALID_STATE)).
    + finish by (Hfail ret1 m2 _ E2) as r m' (rest & td & E & T & S & D & R).
      exists (rest ++ td ++ [EvBusInit ret1; EvDelay (300 * attempt)])%list.
      split; [exact E|].
      rewrite !rev_app_distr, !filter_app, (teardown_not_paced _ T).
      cbn [rev app filter paced]. rewrite on_schedule_next by exact D.
      repeat split; auto.
      rewrite last_driver_result_app, teardown_no_result by exact T. cbn.
      rewrite R. destruct (last_driver_result rest); reflexivity.
    + step as x3 m3 [S3 W3]. step as freq m3' [-> ->].
      rewrite S3. cbn [s_host_max_freq_khz set_max_freq].
      step as [r4 c4] m4 (L4 & _ & _). cbn [fst snd] in *.
      assert (E4 : extends [EvMount (1 <? attempt) (if attempt =? 1 then 8000 else 4000) r4;
                            EvBusInit ret1; EvDelay (300 * attempt)] m m4).
      { unfold extends in *. rewrite (proj2 L4), W3, E2. reflexivity. }
      apply post_bind.
      assert (Hcard : returns (match c4 with
                               | Some c => modify (set_card (Some c))
                               | None => Return tt
                               end m4)
                        (fun _ m5 => wld m5 = wld m4)).
      { destruct c4; reflexivity. }
      finish by Hcard as x5 m5 W5.
      assert (E5 : extends [EvMount (1 <? attempt) (if attempt =? 1 then 8000 else 4000) r4;
                            EvBusInit ret1; EvDelay (300 * attempt)] m m5).
      { unfold extends in *. rewrite W5. exact E4. }
      assert (Hretry : forall body m6,
                extends (body ++ [EvMount (1 <? attempt) (if attempt =? 1 then 8000 else 4000) r4;
                                  EvBusInit ret1; EvDelay (300 * attempt)]) m m6 ->
                filter paced (rev body) = [] ->
                last_driver_result body = None ->
                post ((sd_card_full_deinit ;; init_attempts k (attempt + 1) r4) m6)
                  (fun r m' => exists evs,
                     extends evs m m'
                     /\ on_schedule (S k) attempt (filter paced (rev evs)) = true
                     /\ starts_with_delay (filter paced (rev evs)) = true
                     /\ r = or_else ret (last_driver_result evs))
                  (fun _ => False)).
      { intros body m6 E6 P6 N6.
        finish by (Hfail r4 m6 _ E6) as r m' (rest & td & E & T & S & D & R).
        eexists. split; [exact E|].
        rewrite !rev_app_distr, !filter_app, (teardown_not_paced _ T), P6.
        cbn [rev app filter paced]. rewrite on_schedule_mount.
        repeat split; auto.
        rewrite last_driver_result_app, teardown_no_result by exact T.
        rewrite last_driver_result_app, N6. cbn.
        rewrite R. destruct (last_driver_result rest); reflexivity. }
      destruct (Z.eqb_spec r4 ESP_OK) as [E|E].
      * step as h m6 L6. step as x7 m7 [S7 W7].
        assert (E7 : extends ([EvMutexCreate h]
                                ++ [EvMount (1 <? attempt) (if attempt =? 1 then 8000 else 4000) r4;
                                    EvBusInit ret1; EvDelay (300 * attempt)]) m m7).
        { unfold extends in *. rewrite W7, (proj2 L6), E5. reflexivity. }
        destruct h as [h|]; cbn [is_null].
        -- step as x8 m8 [S8 W8]. cbn [Return post].
           eexists. split; [unfold extends in *; rewrite W8; exact E7|].
           cbn [rev app filter paced]. rewrite on_schedule_mount.
           split; [destruct k; reflexivity|]. split; [reflexivity|].
           cbn. symmetry. exact E.
        -- apply Hretry with (body := [EvMutexCreate None]); auto.
      * apply Hretry with (body := []); auto.
Qed.

(** [sd_card_init], called while the card is not mounted, makes at most
    [max_retries] attempts numbered from 1.  Attempt [n] first waits
    300 * n ms; when it gets to the mount it asks for a reformat on failure
    exactly when [n > 1], at 8000 kHz when [n = 1] and at 4000 kHz later.
    The call returns the result of its last call of [spi_bus_initialize] or
    of the mount. *)
Lemma sd_card_init_schedule m :
  sd_card_initialized (statics m) = false ->
  returns (sd_card_init m)
    (fun r m' => exists evs,
       extends evs m m'
       /\ on_schedule max_retries 1 (filter paced (rev evs)) = true
       /\ r = or_else ESP_FAIL (last_driver_result evs)).
Proof.
  intros F. unfold sd_card_init, returns.
  step as again m1 [-> ->]. rewrite F. apply post_bind. cbn [Return post].
  finish by init_attempts_schedule as r m' (evs & E & S & _ & R).
  exists evs. auto.
Qed.

End Schedule.

(** In a trace that keeps the discipline every successful take has its
    give, except the take of the mutex still held. *)
Lemma lock_state_balance t : forall holder,
  lock_state t = Some holder ->
  acquisitions t
  = (releases t + match holder with Some _ => 1 | None => 0 end)%nat.
Proof.
  unfold acquisitions, releases.
  induction t as [|e t IH]; cbn [lock_state]; intros holder H.
  - injection H as <-. reflexivity.
  - destruct (lock_state t) as [before|]; [|discriminate].
    specialize (IH before eq_refl).
    destruct e; cbn in H |- *; try (injection H as <-; exact IH).
    + destruct taken; cbn; [|injection H as <-; exact IH].
      destruct before; [discriminate|]. injection H as <-. lia.
    + destruct before as [h'|]; [|discriminate].
      destruct (Nat.eqb h h'); [|discriminate]. injection H as <-. cbn. lia.
Qed.

(* ================================================================== *)
(** * The claims about the storage manager *)

(** C3.  [sd_card_write_file] and [sd_card_append_file] never come back
    with the mutex still held.  Started when no mutex is held, the takes
    and gives of either call, replayed by [lock_state], end with no mutex
    held and without a break of the discipline: every take that succeeded
    is followed by one give of the same mutex before the next take and
    before the end, on every path (success, a failed directory check, a
    failed open after all retries, a reinitialisation in the middle that
    succeeds or fails, a take that times out).  In particular the trace
    at the end holds as many gives as successful takes.  The final machine
    is the one at the return, or the one at which the kernel stopped the
    call. *)
Theorem write_and_append_release_the_lock (path data : string)
  (m : machine SdCardManager.statics_t) :
  lock_of m = Some None ->
  (lock_of (final (SdCardManager.sd_card_write_file path data m)) = Some None
   /\ balanced (final (SdCardManager.sd_card_write_file path data m)))
  /\ (lock_of (final (SdCardManager.sd_card_append_file path data m)) = Some None
      /\ balanced (final (SdCardManager.sd_card_append_file path data m))).
Proof.
  intros Hl.
  assert (B : forall m' : machine SdCardManager.statics_t,
            lock_of m' = Some None -> lock_of m' = Some None /\ balanced m').
  { intros m' R. split; [exact R|]. unfold balanced.
    rewrite (lock_state_balance _ _ R). apply Nat.add_0_r. }
  split; apply B.
  - apply (post_final _ (fun m' => lock_of m' = Some None)).
    eapply post_mono; [apply sd_card_write_file_post; exact Hl | |];
      cbv beta; intros; match goal with H : released _ _ |- _ => apply H end.
  - apply (post_final _ (fun m' => lock_of m' = Some None)).
    eapply post_mono; [apply sd_card_append_file_post; exact Hl | |];
      cbv beta; intros; match goal with H : released _ _ |- _ => apply H end.
Qed.




(** ** The handle and the flag *)

Lemma released_idle m m' : idle m -> released m m' -> idle m'.
Proof. intros [_ Hh] (Hl & _ & Kh). split; auto. Qed.

Lemma calm_idle m m' : idle m -> calm m m' -> idle m'.
Proof.
  intros [Hl Hh] [S V]. split.
  - rewrite (via_lock_of _ _ V). exact Hl.
  - rewrite S. exact Hh.
Qed.

Lemma run_call_idle c m m' : idle m -> run_call c m = Done tt m' -> idle m'.
Proof.
  intros I E. destruct I as [Hl Hh].
  destruct c; unfold run_call in E.
  - pose proof (sd_card_init_post m) as P. unfold bind in E.
    destruct (SdCardManager.sd_card_init m) as [r m1|]; [|discriminate].
    cbn in E, P. injection E as <-. destruct P as (V & St).
    split; [rewrite (still_lock_of _ _ V); exact Hl|].
    destruct St as [[St _]|St]; [apply mounted_handle | apply unmounted_handle]; exact St.
  - pose proof (sd_card_deinit_post m) as P. unfold bind in E.
    destruct (SdCardManager.sd_card_deinit m) as [r m1|]; [|discriminate].
    cbn in E, P. injection E as <-. destruct P as (_ & U & V).
    split; [rewrite (still_lock_of _ _ V); exact Hl | apply unmounted_handle; exact U].
  - pose proof (sd_card_full_deinit_post m) as P. unfold bind in E.
    destruct (SdCardManager.sd_card_full_deinit m) as [r m1|]; [|discriminate].
    cbn in E, P. injection E as <-. destruct P as (_ & U & V).
    split; [rewrite (still_lock_of _ _ V); exact Hl | apply unmounted_handle; exact U].
  - pose proof (sd_card_write_file_post path data m Hl) as P. unfold bind in E.
    destruct (SdCardManager.sd_card_write_file path data m) as [r m1|]; [|discriminate].
    cbn in E, P. injection E as <-. eapply released_idle; [split; eassumption | exact P].
  - pose proof (sd_card_append_file_post path data m Hl) as P. unfold bind in E.
    destruct (SdCardManager.sd_card_append_file path data m) as [r m1|]; [|discriminate].
    cbn in E, P. injection E as <-. eapply released_idle; [split; eassumption | exact P].
  - cbv in E. injection E as <-. split; [exact Hl|]. destruct m as [[g mu ca fr fl] w]. exact Hh.
  - pose proof (sd_card_is_initialized_post m) as P. unfold bind in E.
    destruct (SdCardManager.sd_card_is_initialized m) as [r m1|]; [|discriminate].
    cbn in E, P. injection E as <-. destruct P as (V & Sc & _ & Sf & _).
    split; [rewrite (via_lock_of _ _ V); exact Hl|].
    intros T. rewrite Sc. apply Hh. destruct Sf as [Sf|Sf]; congruence.
  - assert (P : returns (SdCardManager.sd_card_get_info total_bytes free_bytes m)
                  (fun _ m1 => idle m1)).
    { unfold SdCardManager.sd_card_get_info, returns.
      step by sd_card_is_initialized_post as alive m1 (V & Sc & _ & Sf & Sa).
      assert (I1 : idle m1).
      { split; [rewrite (via_lock_of _ _ V); exact Hl|].
        intros T. rewrite Sc. apply Hh. destruct Sf as [Sf|Sf]; congruence. }
      destruct alive; [|exact I1]. cbn [negb].
      step as card m2 [-> ->].
      destruct free_bytes as [old|].
      - apply post_bind.
        step by probe_files_post as passed m3 (evs & k & L & N & _).
        assert (I3 : idle m3) by (eapply calm_idle; [exact I1 | eapply calm_logged; eauto]).
        destruct passed; exact I3.
      - exact I1. }
    unfold bind in E.
    destruct (SdCardManager.sd_card_get_info total_bytes free_bytes m) as [r m1|];
      [|discriminate].
    cbn in E, P. injection E as <-. exact P.
  - assert (P : returns (SdCardManager.sd_card_stability_test m) (fun _ m1 => idle m1)).
    { unfold SdCardManager.sd_card_stability_test, returns.
      step as flag m1 [-> ->]. step as card m1 [-> ->].
      destruct (negb (SdCardManager.sd_card_initialized (statics m))
                || SdCardManager.is_null (SdCardManager.s_card (statics m)));
        [split; assumption|].
      step by stability_loop_post as succ m1 (evs & L & N & _).
      eapply calm_idle; [split; eassumption | eapply calm_logged; eauto]. }
    unfold bind in E.
    destruct (SdCardManager.sd_card_stability_test m) as [r m1|]; [|discriminate].
    cbn in E, P. injection E as <-. exact P.
Qed.

Lemma reachable_idle m : reachable m -> idle m.
Proof.
  induction 1 as [w Hw | c m m' _ IH E].
  - split.
    + unfold lock_of. cbn. rewrite Hw. reflexivity.
    + intros T. discriminate.
  - eapply run_call_idle; eauto.
Qed.

(** C8, as the code has it.  In every state the manager can reach a set
    [sd_card_initialized] flag comes with a card handle.  The converse is
    not kept: the liveness check clears the flag and leaves the handle. *)
Theorem mounted_flag_implies_handle (m : machine SdCardManager.statics_t) :
  reachable m ->
  SdCardManager.sd_card_initialized (statics m) = true ->
  SdCardManager.s_card (statics m) <> None.
Proof. intros R. apply (reachable_idle m R). Qed.

(** C8, counterexample.  Mount the card in a healthy world, then let the
    mount point fail to open: [sd_card_is_initialized] clears the flag and
    the handle stays. *)
Lemma liveness_check_leaves_the_handle :
  reachable demoted_machine
  /\ SdCardManager.sd_card_initialized (statics demoted_machine) = false
  /\ SdCardManager.s_card (statics demoted_machine) = Some card_1gb.
Proof.
  split; [|split; reflexivity].
  apply (reach_call call_is_initialized (mounted_machine (healthy_except [3%nat] broken))).
  - apply (reach_call call_init (boot (healthy_except [3%nat] broken))).
    + apply reach_boot. reflexivity.
    + reflexivity.
  - reflexivity.
Qed.

(** ** Initialisation *)

(** C2, at the failing input.  The bus and the mount succeed in all three
    attempts and [xSemaphoreCreateMutex] returns NULL each time.  Every
    attempt is counted as failed and torn down, and the function still
    returns [ESP_OK], the result of the last mount, with nothing mounted.
    The trace shows the rest of the claim at work: delays of 300, 600 and
    900 ms, no reformat and 8000 kHz in the first attempt, reformat and
    4000 kHz in the later ones, a full teardown after each failure;
    [sd_card_init_schedule] has the schedule and the returned code for
    every run. *)
Theorem init_reports_success_without_a_mutex :
  exists m',
    SdCardManager.sd_card_init no_heap_machine = Done ESP_OK m'
    /\ unmounted (statics m')
    /\ rev (trace (wld m'))
       = [EvDelay 300; EvBusInit 0; EvMount false 8000 0; EvMutexCreate None;
          EvUnmount 0; EvBusFree 0;
          EvDelay 600; EvBusInit 0; EvMount true 4000 0; EvMutexCreate None;
          EvUnmount 0; EvBusFree 0;
          EvDelay 900; EvBusInit 0; EvMount true 4000 0; EvMutexCreate None;
          EvUnmount 0; EvBusFree 0].
Proof.
  exists (final (SdCardManager.sd_card_init no_heap_machine)).
  split; [vm_compute; reflexivity | split; [repeat split | vm_compute; reflexivity]].
Qed.

(** ** Appending *)

(** C9, at the failing input.  After the liveness check has cleared the
    flag, [sd_card_write_file] refuses with [ESP_ERR_INVALID_STATE] and
    touches nothing, while [sd_card_append_file] takes the mutex, opens
    and writes the file and returns [ESP_OK].  Before the first
    initialisation, when no mutex exists, it hands the NULL handle to
    [xSemaphoreTake] and is stopped there instead of returning. *)
Theorem append_skips_the_mount_check :
  SdCardManager.sd_card_initialized (statics demoted_machine) = false
  /\ SdCardManager.sd_card_write_file "/sdcard/log.txt" "x" demoted_machine
     = Done ESP_ERR_INVALID_STATE demoted_machine
  /\ (exists m',
        SdCardManager.sd_card_append_file "/sdcard/log.txt" "x" demoted_machine
        = Done ESP_OK m'
        /\ firstn 6 (trace (wld m'))
           = [EvGive 0%nat; EvFclose "/sdcard/log.txt"; EvFwrite "/sdcard/log.txt" "x";
              EvFopen "/sdcard/log.txt" mode_a true; EvOpendir "/sdcard" true;
              EvTake 0%nat portMAX_DELAY true])
  /\ SdCardManager.sd_card_append_file "/sdcard/log.txt" "x" (boot (fun _ => healthy))
     = Abort (boot (fun _ => healthy)).
Proof.
  split; [reflexivity|]. split; [vm_compute; reflexivity|]. split; [|reflexivity].
  exists (final (SdCardManager.sd_card_append_file "/sdcard/log.txt" "x" demoted_machine)).
  split; vm_compute; reflexivity.
Qed.

(* ================================================================== *)
(** * Strings *)

Lemma append_empty_r s : (s ++ EmptyString)%string = s.
Proof. induction s as [|c s IH]; cbn; [reflexivity | rewrite IH; reflexivity]. Qed.

Lemma append_assoc_s a b c : ((a ++ b) ++ c)%string = (a ++ (b ++ c))%string.
Proof. induction a as [|x a IH]; cbn; [reflexivity | rewrite IH; reflexivity]. Qed.

Lemma strlen_append a b : strlen (a ++ b) = (strlen a + strlen b)%nat.
Proof. unfold strlen. induction a as [|x a IH]; cbn; [reflexivity | rewrite IH; reflexivity]. Qed.

Lemma string_take_all n s : (strlen s <= n)%nat -> string_take n s = s.
Proof.
  revert n. unfold strlen. induction s as [|c s IH]; intros n H.
  - destruct n; reflexivity.
  - destruct n as [|n]; cbn in H; [lia|]. cbn. rewrite IH by lia. reflexivity.
Qed.

Lemma string_drop_append a b : string_drop (strlen a) (a ++ b) = b.
Proof. unfold strlen. induction a as [|x a IH]; cbn; [reflexivity | exact IH]. Qed.

Lemma string_drop_empty n : string_drop n EmptyString = EmptyString.
Proof. destruct n; reflexivity. Qed.

Lemma string_forall_append p a b :
  string_forall p (a ++ b) = string_forall p a && string_forall p b.
Proof.
  induction a as [|x a IH]; cbn; [reflexivity|]. rewrite IH, andb_assoc. reflexivity.
Qed.

Lemma string_forall_weaken (p q : ascii -> bool) s :
  (forall c, p c = true -> q c = true) ->
  string_forall p s = true -> string_forall q s = true.
Proof.
  intros Hpq. induction s as [|c s IH]; cbn; [reflexivity|].
  intros H. apply andb_true_iff in H. destruct H as [Hc Hs].
  rewrite (Hpq c Hc), (IH Hs). reflexivity.
Qed.

Lemma string_forall_take p n s :
  string_forall p s = true -> string_forall p (string_take n s) = true.
Proof.
  revert n. induction s as [|c s IH]; intros n H; destruct n; cbn; try reflexivity.
  cbn in H. apply andb_true_iff in H. destruct H as [Hc Hs].
  rewrite Hc, (IH n Hs). reflexivity.
Qed.

Lemma c_str_clean s :
  string_forall (fun c => negb (Ascii.eqb c nul)) s = true -> c_str s = s.
Proof.
  induction s as [|c s IH]; cbn; [reflexivity|].
  intros H. apply andb_true_iff in H. destruct H as [Hc Hs].
  destruct (Ascii.eqb c nul); [discriminate|]. rewrite (IH Hs). reflexivity.
Qed.

Lemma has_percent_clean s :
  string_forall (fun c => negb (Ascii.eqb c "%"%char)) s = true -> has_percent s = false.
Proof.
  induction s as [|c s IH]; cbn; [reflexivity|].
  intros H. apply andb_true_iff in H. destruct H as [Hc Hs].
  destruct (Ascii.eqb c "%"%char); [discriminate|]. exact (IH Hs).
Qed.

(** ** Searching *)

Lemma prefix_append key s : String.prefix key (key ++ s) = true.
Proof.
  induction key as [|c key IH]; cbn; [destruct s; reflexivity|].
  destruct (ascii_dec c c); [exact IH | congruence].
Qed.

Lemma strstr_here key s : String.prefix key s = true -> strstr s key = Some s.
Proof. intros H. destruct s; cbn [strstr]; rewrite H; reflexivity. Qed.

Lemma strstr_next key c s :
  String.prefix key (String c s) = false -> strstr (String c s) key = strstr s key.
Proof. intros H. cbn [strstr]. rewrite H. reflexivity. Qed.

Lemma strstr_skip k key a b :
  string_forall (fun c => negb (Ascii.eqb c k)) a = true ->
  strstr (a ++ b) (String k key) = strstr b (String k key).
Proof.
  induction a as [|c a IH]; cbn [append string_forall]; [reflexivity|].
  intros H. apply andb_true_iff in H. destruct H as [Hc Hs].
  rewrite strstr_next; [exact (IH Hs)|].
  cbn. destruct (ascii_dec k c) as [->|]; [|reflexivity].
  rewrite Ascii.eqb_refl in Hc. discriminate.
Qed.

(** ** Printing and reading a number *)

Lemma digit_char_of_nat (k : nat) :
  (k < 10)%nat ->
  isdigit (digit_char (Z.of_nat k)) = true /\ digit_val (digit_char (Z.of_nat k)) = Z.of_nat k.
Proof.
  intros Hk.
  do 10 (destruct k as [|k]; [split; reflexivity|]).
  lia.
Qed.

Lemma digit_char_facts d :
  0 <= d < 10 ->
  isdigit (digit_char d) = true /\ digit_val (digit_char d) = d.
Proof.
  intros Hd. rewrite <- (Z2Nat.id d) by lia. apply digit_char_of_nat. lia.
Qed.

Lemma printed_char_not c k :
  printed_char c = true -> isdigit k = false -> Ascii.eqb k "-"%char = false ->
  negb (Ascii.eqb c k) = true.
Proof.
  intros Hc Hk1 Hk2. destruct (Ascii.eqb_spec c k) as [->|]; [|reflexivity].
  unfold printed_char in Hc. rewrite Hk1, Hk2 in Hc. discriminate.
Qed.

Lemma utoa_aux_append fuel : forall n a b,
  utoa_aux fuel n (a ++ b) = (utoa_aux fuel n a ++ b)%string.
Proof.
  induction fuel as [|f IH]; intros n a b; cbn; [reflexivity|].
  destruct (n <? 10); [reflexivity|].
  rewrite <- IH. reflexivity.
Qed.

Lemma utoa_aux_printed fuel : forall n acc,
  0 <= n -> string_forall printed_char acc = true ->
  string_forall printed_char (utoa_aux fuel n acc) = true.
Proof.
  induction fuel as [|f IH]; intros n acc Hn Hacc; cbn [utoa_aux]; [exact Hacc|].
  assert (Hd : printed_char (digit_char (n mod 10)) = true).
  { unfold printed_char. destruct (digit_char_facts (n mod 10)) as [-> _]; [|reflexivity].
    apply Z.mod_pos_bound. lia. }
  destruct (n <? 10).
  - cbn [string_forall]. rewrite Hd, Hacc. reflexivity.
  - apply IH; [apply Z.div_pos; lia|]. cbn [string_forall]. rewrite Hd, Hacc. reflexivity.
Qed.

Lemma utoa_aux_length fuel : forall n acc,
  (strlen (utoa_aux fuel n acc) <= fuel + strlen acc)%nat.
Proof.
  induction fuel as [|f IH]; intros n acc; unfold strlen; cbn [utoa_aux]; [cbn; lia|].
  destruct (n <? 10).
  - cbn [String.length]. lia.
  - specialize (IH (n / 10) (String (digit_char (n mod 10)) acc)).
    unfold strlen in *. cbn [String.length] in IH. lia.
Qed.

Lemma utoa_aux_head fuel n acc :
  0 <= n ->
  exists c s, utoa_aux (S fuel) n acc = String c s /\ isdigit c = true.
Proof.
  revert n acc. induction fuel as [|f IH]; intros n acc Hn.
  - cbn [utoa_aux].
    destruct (digit_char_facts (n mod 10)) as [Hd _]; [apply Z.mod_pos_bound; lia|].
    destruct (n <? 10); eauto.
  - cbn [utoa_aux]. destruct (n <? 10).
    + destruct (digit_char_facts (n mod 10)) as [Hd _]; [apply Z.mod_pos_bound; lia|]. eauto.
    + apply IH. apply Z.div_pos; lia.
Qed.

Lemma parse_utoa_aux fuel : forall n rest a,
  0 <= n < 10 ^ Z.of_nat fuel ->
  exists k, 0 <= k /\ parse_digits (utoa_aux fuel n rest) a = parse_digits rest (a * 10 ^ k + n).
Proof.
  induction fuel as [|f IH]; intros n rest a Hn.
  - cbn in Hn. exists 0. split; [lia|]. cbn [utoa_aux]. f_equal. lia.
  - cbn [utoa_aux].
    destruct (digit_char_facts (n mod 10)) as [Hd Hv]; [apply Z.mod_pos_bound; lia|].
    destruct (Z.ltb_spec n 10) as [Hlt|Hge].
    + exists 1. split; [lia|]. cbn [parse_digits]. rewrite Hd, Hv.
      rewrite Z.mod_small by lia. f_equal.
    + assert (Hq : 0 <= n / 10 < 10 ^ Z.of_nat f).
      { split; [apply Z.div_pos; lia|]. apply Z.div_lt_upper_bound; [lia|].
        rewrite Nat2Z.inj_succ, Z.pow_succ_r in Hn by lia. lia. }
      destruct (IH (n / 10) (String (digit_char (n mod 10)) rest) a Hq) as (k & Hk & E).
      exists (k + 1). split; [lia|]. rewrite E. cbn [parse_digits]. rewrite Hd, Hv.
      f_equal. rewrite Z.pow_add_r by lia.
      pose proof (Z.div_mod n 10). lia.
Qed.

Lemma parse_stops rest n :
  match rest with
  | EmptyString => True
  | String c _ => isdigit c = false
  end -> parse_digits rest n = n.
Proof. destruct rest as [|c r]; cbn; [reflexivity|]. intros ->. reflexivity. Qed.

Lemma itoa_printed z : string_forall printed_char (itoa z) = true.
Proof.
  unfold itoa, utoa. destruct (Z.ltb_spec z 0).
  - cbn [string_forall]. change (printed_char "-"%char) with true. cbn [andb].
    apply utoa_aux_printed; [lia | reflexivity].
  - apply utoa_aux_printed; [lia | reflexivity].
Qed.

Lemma itoa_length z : (strlen (itoa z) <= 11)%nat.
Proof.
  unfold itoa, utoa. destruct (z <? 0).
  - pose proof (utoa_aux_length 10 (- z) EmptyString) as H. unfold strlen in *.
    cbn [String.length] in *. lia.
  - pose proof (utoa_aux_length 10 z EmptyString) as H. unfold strlen in *.
    cbn [String.length] in *. lia.
Qed.

Lemma clamp_int_id z : INT_MIN <= z <= INT_MAX -> clamp_int z = z.
Proof. unfold clamp_int. lia. Qed.

Lemma atoi_itoa z rest :
  INT_MIN <= z <= INT_MAX ->
  match rest with
  | EmptyString => True
  | String c _ => isdigit c = false
  end ->
  atoi (itoa z ++ rest) = z.
Proof.
  intros Hz Hrest. unfold INT_MIN, INT_MAX in Hz. unfold itoa, utoa.
  destruct (Z.ltb_spec z 0) as [Hneg|Hpos].
  - cbn [append]. unfold atoi. cbn [skip_space isspace].
    change (isspace "-"%char) with false. cbv iota.
    change (Ascii.eqb "-"%char "-"%char) with true. cbv iota.
    rewrite <- utoa_aux_append. cbn [append].
    destruct (parse_utoa_aux 10 (- z) rest 0) as (k & _ & E); [cbn; lia|].
    rewrite E, (parse_stops rest _ Hrest). cbn. rewrite clamp_int_id; unfold INT_MIN, INT_MAX; lia.
  - rewrite <- utoa_aux_append. cbn [append].
    destruct (utoa_aux_head 9 z rest Hpos) as (c & s & Es & Hc).
    destruct (parse_utoa_aux 10 z rest 0) as (k & _ & E); [cbn; lia|].
    rewrite Es in *. unfold atoi.
    assert (Hsp : isspace c = false).
    { unfold isdigit in Hc. unfold isspace.
      apply andb_true_iff in Hc. destruct Hc as [H1 H2].
      apply Nat.leb_le in H1. apply Nat.leb_le in H2.
      destruct (Nat.eqb_spec (nat_of_ascii c) 32); [lia|].
      destruct (Nat.leb_spec (nat_of_ascii c) 13); [lia|]. rewrite andb_false_r. reflexivity. }
    cbn [skip_space]. rewrite Hsp.
    assert (Hm : Ascii.eqb c "-"%char = false).
    { destruct (Ascii.eqb_spec c "-"%char) as [->|]; [discriminate | reflexivity]. }
    assert (Hp : Ascii.eqb c "+"%char = false).
    { destruct (Ascii.eqb_spec c "+"%char) as [->|]; [discriminate | reflexivity]. }
    rewrite Hm, Hp, E, (parse_stops rest _ Hrest). cbn.
    rewrite clamp_int_id; unfold INT_MIN, INT_MAX; lia.
Qed.

(** ** The settings text *)

Section SettingsText.

Import SettingsConfig.

Lemma bool_text_length b : (strlen (bool_text b) <= 5)%nat.
Proof. destruct b; cbn; lia. Qed.

Lemma settings_to_json_text r : settings_to_json r 256 = json_text r.
Proof.
  unfold settings_to_json, snprintf. apply string_take_all.
  unfold json_text. rewrite !strlen_append.
  pose proof (itoa_length (touch_sensitivity_level r)).
  pose proof (bool_text_length (demo_mode_enabled r)).
  pose proof (bool_text_length (screen3_enabled r)).
  change (strlen "{") with 1%nat. change (strlen sens_key) with 14%nat.
  change (strlen ",") with 1%nat. change (strlen demo_key) with 12%nat.
  change (strlen s3_key) with 18%nat. change (strlen "}") with 1%nat.
  cbn [Nat.sub]. lia.
Qed.

Lemma printed_plain c : printed_char c = true -> plain_char c = true.
Proof.
  intros H. unfold plain_char.
  rewrite (printed_char_not c nul H), (printed_char_not c "%"%char H); reflexivity.
Qed.

Lemma json_text_plain r : string_forall plain_char (json_text r) = true.
Proof.
  unfold json_text. rewrite !string_forall_append.
  rewrite (string_forall_weaken _ _ _ printed_plain (itoa_printed _)).
  destruct (demo_mode_enabled r), (screen3_enabled r); reflexivity.
Qed.

Lemma json_text_no_percent r : has_percent (json_text r) = false.
Proof.
  apply has_percent_clean. eapply string_forall_weaken; [|apply json_text_plain].
  intros c H. unfold plain_char in H. apply andb_true_iff in H. tauto.
Qed.

Lemma json_text_c_str r : c_str (json_text r) = json_text r.
Proof.
  apply c_str_clean. eapply string_forall_weaken; [|apply json_text_plain].
  intros c H. unfold plain_char in H. apply andb_true_iff in H. tauto.
Qed.

Lemma itoa_no_quote z : string_forall (fun c => negb (Ascii.eqb c quote)) (itoa z) = true.
Proof.
  eapply string_forall_weaken; [|apply itoa_printed].
  intros c H. apply printed_char_not; [exact H | reflexivity | reflexivity].
Qed.

Ltac scan := repeat (rewrite strstr_next by reflexivity).

Lemma find_sens_key z tail :
  strstr ("{" ++ sens_key ++ itoa z ++ tail) sens_key = Some (sens_key ++ itoa z ++ tail)%string.
Proof.
  cbn [append]. rewrite strstr_next by reflexivity.
  apply strstr_here. apply prefix_append.
Qed.

Lemma find_demo_key z tail :
  strstr ("{" ++ sens_key ++ itoa z ++ "," ++ demo_key ++ tail) demo_key
  = Some (demo_key ++ tail)%string.
Proof.
  unfold sens_key. cbn [append]. scan.
  unfold demo_key at 2. rewrite strstr_skip by apply itoa_no_quote.
  fold demo_key. cbn [append]. rewrite strstr_next by reflexivity.
  apply strstr_here. apply prefix_append.
Qed.

Lemma find_s3_key z b tail :
  strstr ("{" ++ sens_key ++ itoa z ++ "," ++ demo_key ++ bool_text b
              ++ "," ++ s3_key ++ tail) s3_key
  = Some (s3_key ++ tail)%string.
Proof.
  unfold sens_key. cbn [append]. scan.
  unfold s3_key at 2. rewrite strstr_skip by apply itoa_no_quote.
  fold s3_key. unfold demo_key. destruct b; cbn [append bool_text]; scan;
    apply strstr_here; apply prefix_append.
Qed.

Lemma settings_from_json_text r cur :
  INT_MIN <= touch_sensitivity_level r <= INT_MAX ->
  settings_from_json (json_text r) cur = (true, reloaded r cur).
Proof.
  intros Hz. unfold settings_from_json, json_text.
  rewrite find_sens_key, find_demo_key, find_s3_key.
  rewrite string_drop_append, atoi_itoa by (exact Hz || reflexivity).
  unfold reloaded. destruct (demo_mode_enabled r), (screen3_enabled r); reflexivity.
Qed.

End SettingsText.

(* ================================================================== *)
(** * The settings module *)

Section SettingsRuns.

Import SettingsConfig.

Lemma log_post {St} e (m : machine St) :
  returns (log e m) (fun _ m' => logged [e] m m').
Proof. cbv. auto. Qed.

(** The writer of [main/sd_card.c] only calls the file API; it is stopped
    when the data holds a conversion. *)
Lemma s_example_write_file_post {St} path data (m : machine St) :
  post (SdCard.s_example_write_file path data m)
    (fun _ m' => calm m m') (fun m' => calm m m').
Proof.
  destruct m as [s w]. unfold SdCard.s_example_write_file, fprintf_fmt.
  destruct (has_percent data); explore; (split; [reflexivity | events]).
Qed.

Lemma guard_kept_calm {St} (m0 m m' : machine St) :
  guard_kept m0 m -> calm m m' -> is_held (lock_of m) = true -> guard_kept m0 m'.
Proof. intros K [_ V] Hh H. eapply via_serialized; eauto. Qed.

Lemma guard_kept_lifecycle {St} e (m0 m m' : machine St) :
  guard_kept m0 m -> logged [e] m m' -> touches_medium e = false -> guard_kept m0 m'.
Proof. intros K L E H. rewrite (serialized_lifecycle _ _ _ L E). auto. Qed.

(** [settings_save] leaves the record in memory alone, keeps the lock
    discipline and is never stopped: the text it writes holds no
    conversion. *)
Lemma settings_save_post r (m0 m : machine statics_t) :
  lock_of m = Some None -> guard_kept m0 m ->
  returns (settings_save r m)
    (fun _ m' => statics m' = statics m /\ lock_of m' = Some None /\ guard_kept m0 m').
Proof.
  intros Hl K. unfold settings_save, returns. destruct r as [r|]; [|cbn; auto].
  step as mutex m1 [-> ->].
  destruct (sd_card_mutex (statics m)) as [h|] eqn:Hm; cbn [is_null]; [|cbn; auto].
  step as taken m1 [L1 _].
  destruct taken; cbn [negb].
  - assert (Hl1 : lock_of m1 = Some (Some h)) by (eapply lock_of_take; eauto).
    assert (K1 : guard_kept m0 m1) by (eapply guard_kept_lifecycle; eauto).
    apply post_bind.
    assert (Hw : returns (SdCard.s_example_write_file "/sdcard/settings.cfg"
                            (settings_to_json r 256) m1)
                   (fun _ m2 => calm m1 m2)).
    { pose proof (s_example_write_file_post "/sdcard/settings.cfg"
                    (settings_to_json r 256) m1) as P.
      destruct m1 as [s1 w1].
      unfold SdCard.s_example_write_file, fprintf_fmt in *.
      rewrite settings_to_json_text, json_text_no_percent in *.
      revert P. explore; auto. }
    finish by Hw as result m2 C2.
    assert (Hl2 : lock_of m2 = Some (Some h)).
    { destruct C2 as [_ V]. rewrite (via_lock_of _ _ V). exact Hl1. }
    assert (K2 : guard_kept m0 m2).
    { eapply guard_kept_calm; [exact K1 | exact C2 | rewrite Hl1; reflexivity]. }
    step as mutex m3 [-> ->].
    destruct C2 as [S2 _]. destruct L1 as [S1 _]. rewrite S2, S1, Hm.
    step as x3 m3 L3.
    finish by log_post as x4 m4 L4.
    split; [destruct L3 as [? _], L4 as [? _]; congruence|]. split.
    + rewrite (lock_of_neutral _ _ _ L4 eq_refl). eapply lock_of_give; eauto.
    + eapply guard_kept_lifecycle; [|exact L4|reflexivity].
      eapply guard_kept_lifecycle; [exact K2|exact L3|reflexivity].
  - cbn [post Return]. split; [apply L1|]. split.
    + rewrite (lock_of_take_fail _ _ _ _ L1). exact Hl.
    + eapply guard_kept_lifecycle; eauto.
Qed.

(** What [settings_load] leaves in memory, in any world: the defaults
    unless it returns [ESP_OK], and then a record that a parse of some
    text produced from the one that was there.  It keeps the lock
    discipline and always returns. *)
Lemma settings_load_post H (m : machine statics_t) :
  lock_of m = Some None ->
  returns (settings_load H m)
    (fun r m' =>
       lock_of m' = Some None
       /\ guard_kept m m'
       /\ (r <> ESP_OK ->
           current_settings (statics m') = settings_init_defaults H (current_settings (statics m)))
       /\ (r = ESP_OK ->
           exists buffer,
             settings_from_json buffer (current_settings (statics m))
             = (true, current_settings (statics m')))).
Proof.
  intros Hl. unfold settings_load, returns.
  step as mutex m1 [-> ->].
  apply post_bind.
  assert (Hc : returns ((if is_null (sd_card_mutex (statics m))
                         then h <- xSemaphoreCreateMutex ;;
                              modify (set_mutex h) ;; Return (negb (is_null h))
                         else Return true) m)
                 (fun created m1 =>
                    lock_of m1 = Some None /\ guard_kept m m1
                    /\ current_settings (statics m1) = current_settings (statics m)
                    /\ (created = true -> sd_card_mutex (statics m1) <> None))).
  { destruct (sd_card_mutex (statics m)) as [h|] eqn:Hm; cbn [is_null].
    - unfold returns, post, Return. rewrite Hm.
      split; [exact Hl|]. split; [intros Hs; exact Hs|]. split; [reflexivity|].
      intros _. discriminate.
    - unfold returns. step as h m1 L1. step as x2 m2 [S2 W2]. cbn [post Return].
      assert (L2 : logged [] m1 m2 -> True) by auto.
      split; [|split; [|split]].
      + unfold lock_of. rewrite W2. fold (lock_of m1).
        rewrite (lock_of_neutral _ _ _ L1 eq_refl). exact Hl.
      + intros Hs. unfold serialized. rewrite W2. fold (serialized m1).
        rewrite (serialized_lifecycle _ _ _ L1 eq_refl). exact Hs.
      + rewrite S2. destruct L1 as [S1 _]. rewrite S1. reflexivity.
      + rewrite S2. destruct h; cbn; [discriminate | discriminate]. }
  finish by Hc as created m1 (Hl1 & K1 & C1 & M1).
  assert (Hdef : forall (m2 : machine statics_t) (code : esp_err_t),
             code <> ESP_OK ->
             lock_of m2 = Some None -> guard_kept m m2 ->
             current_settings (statics m2) = current_settings (statics m) ->
             returns ((load_defaults H ;; Return code) m2)
               (fun r m' =>
                  lock_of m' = Some None
                  /\ guard_kept m m'
                  /\ (r <> ESP_OK ->
                      current_settings (statics m')
                      = settings_init_defaults H (current_settings (statics m)))
                  /\ (r = ESP_OK ->
                      exists buffer,
                        settings_from_json buffer (current_settings (statics m))
                        = (true, current_settings (statics m'))))).
  { intros m2 code Hcode Hl2 K2 C2. destruct m2 as [s2 w2]. cbn in *.
    repeat split; auto. intros E. congruence. }
  destruct created; cbn [negb]; [|apply Hdef; auto; discriminate].
  step as mutex m2 [-> ->].
  destruct (sd_card_mutex (statics m1)) as [h|] eqn:Hm1; [|exfalso; apply (M1 eq_refl); reflexivity].
  step as taken m2 [L2 _].
  destruct taken; cbn [negb].
  2: { apply Hdef; [discriminate | | |].
       - rewrite (lock_of_take_fail _ _ _ _ L2). exact Hl1.
       - eapply guard_kept_lifecycle; eauto.
       - destruct L2 as [S2 _]. rewrite S2. exact C1. }
  assert (Hl2 : lock_of m2 = Some (Some h)) by (eapply lock_of_take; eauto).
  assert (K2 : guard_kept m m2) by (eapply guard_kept_lifecycle; eauto).
  assert (S2 : statics m2 = statics m1) by apply L2.
  step as f m3 (ok & L3 & ->).
  assert (C3 : calm m2 m3) by (eapply calm_logged; [exact L3 | reflexivity]).
  destruct ok.
  - step as rd m4 L4. step as x5 m5 L5.
    assert (C5 : calm m2 m5).
    { eapply calm_trans; [exact C3|]. eapply calm_trans;
        eapply calm_logged; eauto. }
    step as mutex m6 [-> ->]. destruct C5 as [S5 V5]. rewrite S5, S2, Hm1.
    step as x6 m6 L6.
    assert (S6 : statics m6 = statics m1) by (destruct L6; congruence).
    assert (Hl6 : lock_of m6 = Some None).
    { eapply lock_of_give; [exact L6|]. rewrite (via_lock_of _ _ V5). exact Hl2. }
    assert (K6 : guard_kept m m6).
    { eapply guard_kept_lifecycle; [|exact L6|reflexivity].
      eapply guard_kept_calm; [exact K2 | split; eauto | rewrite Hl2; reflexivity]. }
    step as cur m7 [-> ->]. rewrite S6, C1.
    destruct (settings_from_json (c_str (snd rd)) (current_settings (statics m)))
      as [parsed_ok parsed] eqn:Ep. cbn [fst snd].
    destruct parsed_ok.
    + step as x8 m8 [S8 W8]. cbn [post Return]. repeat split.
      * unfold lock_of. rewrite W8. exact Hl6.
      * intros Hs. unfold serialized. rewrite W8. apply K6. exact Hs.
      * congruence.
      * intros _. exists (c_str (snd rd)). rewrite S8. exact Ep.
    + apply Hdef; [discriminate | exact Hl6 | exact K6 | rewrite S6; exact C1].
  - step as mutex m4 [-> ->]. destruct C3 as [S3 V3]. rewrite S3, S2, Hm1.
    step as x4 m4 L4.
    assert (S4 : statics m4 = statics m1) by (destruct L4; congruence).
    assert (Hl4 : lock_of m4 = Some None).
    { eapply lock_of_give; [exact L4|]. rewrite (via_lock_of _ _ V3). exact Hl2. }
    assert (K4 : guard_kept m m4).
    { eapply guard_kept_lifecycle; [|exact L4|reflexivity].
      eapply guard_kept_calm; [exact K2 | split; eauto | rewrite Hl2; reflexivity]. }
    unfold load_defaults.
    apply post_bind. step as cur m5 [-> ->].
    finish by modify_post as x5 m5 [S5 W5].
    step as cur m6 [-> ->].
    assert (Hl5 : lock_of m5 = Some None) by (unfold lock_of; rewrite W5; exact Hl4).
    assert (K5 : guard_kept m m5).
    { intros Hs. unfold serialized. rewrite W5. apply K4. exact Hs. }
    step by (settings_save_post (Some (current_settings (statics m5))) m) as x7 m7
      (S7 & Hl7 & K7); [exact Hl5 | exact K5 |].
    cbn [post Return]. repeat split; auto.
    + intros _. rewrite S7, S5. cbn. rewrite S4, C1. reflexivity.
    + discriminate.
Qed.

End SettingsRuns.

Arguments json_text : simpl never.

Section SettingsFiles.

Import SettingsConfig.

Lemma fs_get_put_same f p d : fs_get (fs_put f p d) p = Some d.
Proof. unfold fs_put. cbn. rewrite String.eqb_refl. reflexivity. Qed.

Lemma json_text_fits r : string_take 255 (json_text r) = json_text r.
Proof. exact (settings_to_json_text r). Qed.




(** A load that finds the text of [r] in the file, the mutex granted and
    the medium readable. *)
Lemma load_reads_file H r (m : machine statics_t) :
  sd_card_mutex (statics m) <> None ->
  fs_get (files (wld m)) settings_path = Some (json_text r) ->
  INT_MIN <= touch_sensitivity_level r <= INT_MAX ->
  cooperative (wld m) ->
  exists m',
    settings_load H m = Done ESP_OK m'
    /\ current_settings (statics m') = reloaded r (current_settings (statics m))
    /\ sd_card_mutex (statics m') = sd_card_mutex (statics m).
Proof.
  destruct m as [[cur mu] w]. cbn [statics wld sd_card_mutex current_settings].
  intros Hmu Hfile Hz Hco. destruct mu as [h|]; [|congruence].
  unfold settings_load. run.
  destruct (Hco (clk w)) as [E1 _]; [lia|]. rewrite E1. run.
  destruct (Hco (S (clk w))) as [E2 _]; [lia|].
  change "/sdcard/settings.cfg"%string with settings_path.
  rewrite E2, Hfile. run.
  destruct (Hco (S (S (clk w)))) as [_ E3]; [lia|]. rewrite E3, Hfile.
  rewrite json_text_fits, string_drop_empty, append_empty_r, json_text_c_str.
  rewrite settings_from_json_text by exact Hz. run.
  eexists. split; [reflexivity|]. cbn. split; reflexivity.
Qed.

End SettingsFiles.

Section SettingsBoot.

Import SettingsConfig.





End SettingsBoot.

(** Evaluates every part of a conjunction of closed equations. *)
Ltac evaluate :=
  repeat match goal with |- _ /\ _ => split end; vm_compute; reflexivity.

(* ================================================================== *)
(** * The claims about the settings *)




(** The slip in the search for ["true"], at an input: the demo mode is
    saved off and loaded on. *)
Lemma demo_mode_comes_back_on :
  SettingsConfig.settings_save (Some record_demo_off) first_boot_machine
  = Done tt demo_saved_machine
  /\ SettingsConfig.settings_load example_header demo_saved_machine
     = Done ESP_OK demo_loaded_machine
  /\ SettingsConfig.demo_mode_enabled
       (SettingsConfig.current_settings (statics demo_loaded_machine)) = true.
Proof. evaluate. Qed.





(** A file may carry any sensitivity: for every header whose maximum is
    below [INT_MAX], a load of the text of a record one above the maximum
    succeeds and leaves a record that does not validate. *)
Lemma load_accepts_any_sensitivity (H : SettingsConfig.settings_config_h)
  (r : SettingsConfig.touch_settings_t) (m : machine SettingsConfig.statics_t) :
  header_fits_int H ->
  SettingsConfig.MIN_TOUCH_SENSITIVITY H <= SettingsConfig.MAX_TOUCH_SENSITIVITY H < INT_MAX ->
  SettingsConfig.touch_sensitivity_level r = SettingsConfig.MAX_TOUCH_SENSITIVITY H + 1 ->
  SettingsConfig.sd_card_mutex (statics m) <> None ->
  fs_get (files (wld m)) settings_path = Some (json_text r) ->
  cooperative (wld m) ->
  exists m',
    SettingsConfig.settings_load H m = Done ESP_OK m'
    /\ SettingsConfig.settings_validate H
         (Some (SettingsConfig.current_settings (statics m'))) = false.
Proof.
  intros (Hmin & Hmax & _) Hr Hs Hmu Hfile Hco.
  destruct (load_reads_file H r m) as (m' & E & C & _); try assumption; [lia|].
  exists m'. split; [exact E|]. rewrite C. unfold SettingsConfig.settings_validate, reloaded. cbn.
  rewrite Hs.
  destruct (Z.ltb_spec (SettingsConfig.MAX_TOUCH_SENSITIVITY H + 1)
              (SettingsConfig.MIN_TOUCH_SENSITIVITY H)); [reflexivity|].
  destruct (Z.ltb_spec (SettingsConfig.MAX_TOUCH_SENSITIVITY H)
              (SettingsConfig.MAX_TOUCH_SENSITIVITY H + 1)); [reflexivity | lia].
Qed.


(* ================================================================== *)
(** * Serialisation of the file calls *)

(** C10, as the code has it.  Started with no mutex held,
    [sd_card_write_file] and [sd_card_append_file] make every call of the
    file API while holding the mutex of the manager, and [settings_save]
    and [settings_load] make theirs while holding the mutex of the
    settings module, which is another object.  A history in which every
    file call was made under a mutex stays such a history.  The health
    checks are not part of the statement: they take no mutex. *)
Theorem guarded_file_calls
  (path data : string) (m : machine SdCardManager.statics_t)
  (H : SettingsConfig.settings_config_h) (rec : option SettingsConfig.touch_settings_t)
  (c : machine SettingsConfig.statics_t) :
  lock_of m = Some None -> serialized m = true ->
  lock_of c = Some None -> serialized c = true ->
  serialized (final (SdCardManager.sd_card_write_file path data m)) = true
  /\ serialized (final (SdCardManager.sd_card_append_file path data m)) = true
  /\ serialized (final (SettingsConfig.settings_save rec c)) = true
  /\ serialized (final (SettingsConfig.settings_load H c)) = true.
Proof.
  intros Hl Hs Hlc Hsc. repeat split.
  - apply (post_final _ (fun m' => serialized m' = true)).
    eapply post_mono; [apply sd_card_write_file_post; exact Hl | |];
      cbv beta; intros; match goal with K : released _ _ |- _ => apply K; exact Hs end.
  - apply (post_final _ (fun m' => serialized m' = true)).
    eapply post_mono; [apply sd_card_append_file_post; exact Hl | |];
      cbv beta; intros; match goal with K : released _ _ |- _ => apply K; exact Hs end.
  - pose proof (settings_save_post rec c c Hlc (fun E => E)) as P.
    destruct (SettingsConfig.settings_save rec c); cbn in *; [|contradiction].
    apply P. exact Hsc.
  - pose proof (settings_load_post H c Hlc) as P.
    destruct (SettingsConfig.settings_load H c); cbn in *; [|contradiction].
    apply P. exact Hsc.
Qed.

(** C10, counterexample.  With the card mounted and no mutex held, the
    stability test and the capacity query open, write, read and remove
    files without taking any mutex. *)
Lemma health_checks_take_no_lock :
  lock_of healthy_mounted = Some None
  /\ serialized healthy_mounted = true
  /\ serialized (final (SdCardManager.sd_card_stability_test healthy_mounted)) = false
  /\ serialized (final (SdCardManager.sd_card_get_info (Some 0) (Some 0) healthy_mounted))
     = false
  /\ existsb (fun e => negb (lock_neutral e))
       (trace (wld (final (SdCardManager.sd_card_stability_test healthy_mounted)))) = false.
Proof. evaluate. Qed.

(* ================================================================== *)
(** * The theorems at concrete inputs *)


Lemma write_and_append_release_the_lock_witness :
  lock_of healthy_mounted = Some None
  /\ ((lock_of (final (SdCardManager.sd_card_write_file "/sdcard/log/trace.txt" "x"
                         healthy_mounted)) = Some None
       /\ balanced (final (SdCardManager.sd_card_write_file "/sdcard/log/trace.txt" "x"
                             healthy_mounted)))
      /\ (lock_of (final (SdCardManager.sd_card_append_file "/sdcard/log/trace.txt" "x"
                            healthy_mounted)) = Some None
          /\ balanced (final (SdCardManager.sd_card_append_file "/sdcard/log/trace.txt" "x"
                                healthy_mounted)))).
Proof.
  split; [vm_compute; reflexivity|].
  apply write_and_append_release_the_lock. vm_compute. reflexivity.
Defined.



Lemma healthy_mounted_reachable : reachable healthy_mounted.
Proof.
  apply (reach_call call_init (boot (fun _ => healthy))).
  - apply reach_boot. reflexivity.
  - vm_compute. reflexivity.
Qed.

Lemma mounted_flag_implies_handle_witness :
  reachable healthy_mounted
  /\ SdCardManager.sd_card_initialized (statics healthy_mounted) = true
  /\ SdCardManager.s_card (statics healthy_mounted) <> None.
Proof.
  split; [exact healthy_mounted_reachable|].
  split; [vm_compute; reflexivity|].
  apply mounted_flag_implies_handle.
  - exact healthy_mounted_reachable.
  - vm_compute. reflexivity.
Defined.





Lemma guarded_file_calls_witness :
  lock_of healthy_mounted = Some None
  /\ serialized healthy_mounted = true
  /\ lock_of first_boot_machine = Some None
  /\ serialized first_boot_machine = true
  /\ (serialized (final (SdCardManager.sd_card_write_file "/sdcard/log/trace.txt" "x"
                           healthy_mounted)) = true
      /\ serialized (final (SdCardManager.sd_card_append_file "/sdcard/log/trace.txt" "x"
                              healthy_mounted)) = true
      /\ serialized (final (SettingsConfig.settings_save (Some record_arc_hidden)
                              first_boot_machine)) = true
      /\ serialized (final (SettingsConfig.settings_load example_header
                              first_boot_machine)) = true).
Proof.
  split; [vm_compute; reflexivity|]. split; [vm_compute; reflexivity|].
  split; [vm_compute; reflexivity|]. split; [vm_compute; reflexivity|].
  apply guarded_file_calls; vm_compute; reflexivity.
Defined.

(* ================================================================== *)
(** * Further properties of the code *)


(* ================================================================== *)
(** * Further properties of the storage manager *)

(** ** Teardown *)

(** X1.  [sd_card_deinit] always reports [ESP_OK], whatever the unmount
    returned.  It clears the flag, the card handle and the mutex; it calls
    the unmount exactly when a card handle was held and deletes the mutex
    exactly when one existed, in this order; it never frees the SPI bus and
    never touches a file.  A second call finds nothing to do.
    [sd_card_full_deinit] does the same and then frees the bus once, and
    also reports [ESP_OK] whatever the driver answered. *)
Theorem deinit_clears_all_and_reports_ok (m : machine SdCardManager.statics_t) :
  (exists m' unmount_ret,
     SdCardManager.sd_card_deinit m = Done ESP_OK m'
     /\ unmounted (statics m')
     /\ SdCardManager.g_can_trace_enabled (statics m')
        = SdCardManager.g_can_trace_enabled (statics m)
     /\ trace (wld m') = (deinit_events (statics m) unmount_ret ++ trace (wld m))%list
     /\ files (wld m') = files (wld m)
     /\ SdCardManager.sd_card_deinit m' = Done ESP_OK m')
  /\ (exists m' unmount_ret free_ret,
        SdCardManager.sd_card_full_deinit m = Done ESP_OK m'
        /\ unmounted (statics m')
        /\ trace (wld m')
           = (EvBusFree free_ret :: deinit_events (statics m) unmount_ret
                ++ trace (wld m))%list
        /\ files (wld m') = files (wld m)).
Proof.
  destruct m as [[g mu ca fr fl] w].
  unfold SdCardManager.sd_card_full_deinit, SdCardManager.sd_card_deinit, deinit_events.
  split.
  - destruct ca as [c|], mu as [h|]; run.
    + eexists. exists (a_err (oracle w (clk w))). repeat split.
    + eexists. exists (a_err (oracle w (clk w))). repeat split.
    + eexists. exists ESP_OK. repeat split.
    + eexists. exists ESP_OK. repeat split.
  - destruct ca as [c|], mu as [h|]; run.
    + eexists. exists (a_err (oracle w (clk w))). eexists. repeat split.
    + eexists. exists (a_err (oracle w (clk w))). eexists. repeat split.
    + eexists. exists ESP_OK. eexists. repeat split.
    + eexists. exists ESP_OK. eexists. repeat split.
Qed.

(** ** The liveness check *)

(** X2.  [sd_card_is_initialized] answers true exactly when the flag, the
    card handle and the mutex are all set and the mount point opens; it
    probes the medium only in that state.  A true answer leaves the static
    variables alone.  A false answer is final: the next check answers
    false again without a call to the medium, so only [sd_card_init]
    brings the card back.  The check never changes the card handle or the
    mutex and never touches a file. *)
Theorem liveness_check_verdict (m : machine SdCardManager.statics_t) :
  exists alive m',
    SdCardManager.sd_card_is_initialized m = Done alive m'
    /\ (alive = true <->
        mounted (statics m)
        /\ trace (wld m') = EvOpendir SdCardManager.MOUNT_POINT true :: trace (wld m))
    /\ (mounted (statics m) \/ m' = m)
    /\ (alive = true -> statics m' = statics m)
    /\ (alive = false -> SdCardManager.sd_card_is_initialized m' = Done false m')
    /\ SdCardManager.s_card (statics m') = SdCardManager.s_card (statics m)
    /\ SdCardManager.sd_card_mutex (statics m') = SdCardManager.sd_card_mutex (statics m)
    /\ files (wld m') = files (wld m).
Proof.
  destruct m as [[g mu ca fr fl] w]. unfold SdCardManager.sd_card_is_initialized, mounted.
  destruct fl, ca as [c|], mu as [h|]; run;
    try (exists false; eexists; split; [reflexivity|];
         cbn; split; [|split; [right; reflexivity | repeat split; auto; discriminate]];
         split; [discriminate|];
         intros ((A & B & C) & _); cbn in A, B, C; congruence).
  destruct (a_ok (oracle w (clk w))) eqn:Ea; run.
  - exists true. eexists. split; [reflexivity|]. cbn.
    split; [|split; [left|]]; repeat split; auto; discriminate.
  - exists false. eexists. split; [reflexivity|]. cbn.
    split; [|split; [left|]]; repeat split; auto; try discriminate.
    intros (_ & E). discriminate.
Qed.

(** ** The directory of a path *)

Lemma strrchr_none s :
  strrchr s slash = None -> string_forall not_slash s = true.
Proof.
  induction s as [|d s IH]; cbn; [reflexivity|].
  destruct (strrchr s slash); [discriminate|]. unfold not_slash at 1.
  destruct (Ascii.eqb d slash); [discriminate|]. intros _. exact (IH eq_refl).
Qed.

Lemma strrchr_some s : forall i,
  strrchr s slash = Some i ->
  exists name,
    s = (string_take i s ++ String slash name)%string
    /\ string_forall not_slash name = true
    /\ strlen (string_take i s) = i.
Proof.
  induction s as [|d s IH]; cbn; [discriminate|]. intros i.
  destruct (strrchr s slash) as [j|] eqn:E.
  - intros H. injection H as <-. destruct (IH j eq_refl) as (name & Es & Hn & Hl).
    exists name. cbn. rewrite <- Es. unfold strlen in *. cbn. rewrite Hl. auto.
  - destruct (Ascii.eqb_spec d slash) as [->|]; [|discriminate].
    intros H. injection H as <-. exists s. cbn. split; [reflexivity|].
    split; [apply strrchr_none; exact E | reflexivity].
Qed.

Lemma strrchr_last a : forall name,
  string_forall not_slash name = true ->
  strrchr (a ++ String slash name) slash = Some (strlen a).
Proof.
  intros name Hn.
  assert (Hnone : strrchr name slash = None).
  { induction name as [|d name IH]; cbn; [reflexivity|].
    cbn in Hn. apply andb_true_iff in Hn. destruct Hn as [Hd Hn].
    rewrite (IH Hn). unfold not_slash in Hd. destruct (Ascii.eqb d slash); [discriminate|].
    reflexivity. }
  induction a as [|d a IH]; cbn.
  - rewrite Hnone. reflexivity.
  - rewrite IH. reflexivity.
Qed.

Lemma string_take_append a b : string_take (strlen a) (a ++ b) = a.
Proof.
  unfold strlen. induction a as [|c a IH]; cbn; [destruct b; reflexivity | rewrite IH; reflexivity].
Qed.

Lemma parent_dir_spec path dir :
  SdCardManager.parent_dir path = Some dir
  <-> exists name,
        path = (dir ++ String slash name)%string
        /\ dir <> EmptyString
        /\ string_forall not_slash name = true.
Proof.
  unfold SdCardManager.parent_dir. split.
  - destruct (strrchr path slash) as [[|i]|] eqn:E; try discriminate.
    intros H. injection H as <-.
    destruct (strrchr_some _ _ E) as (name & Ep & Hn & Hl).
    exists name. split; [exact Ep|]. split; [|exact Hn].
    intros Z. apply (f_equal strlen) in Z.
    change (strlen (string_take (S i) path) = O) in Z. rewrite Hl in Z. discriminate.
  - intros (name & -> & Hd & Hn). rewrite (strrchr_last _ _ Hn).
    destruct dir as [|c dir]; [congruence|].
    unfold strlen. cbn [String.length]. f_equal.
    exact (string_take_append (String c dir) (String slash name)).
Qed.

(** X3.  [ensure_dir_exists] looks at one directory only: the text of the
    path before its last slash.  A path without a slash, or whose only
    slash is the first character, needs no directory and no call is made.
    Otherwise the directory is opened; when that fails it is created with
    one [mkdir], and only a failed [mkdir] gives [ESP_FAIL].  Directories
    further up are never created.  A failed [strdup] gives
    [ESP_ERR_NO_MEM] before any call.  No file and no static variable
    changes. *)
Theorem ensure_dir_exists_probes_the_parent (path : string)
  (m : machine SdCardManager.statics_t) :
  (forall dir,
     SdCardManager.parent_dir path = Some dir
     <-> exists name,
           path = (dir ++ String slash name)%string
           /\ dir <> EmptyString
           /\ string_forall not_slash name = true)
  /\ exists r m' evs,
       SdCardManager.ensure_dir_exists path m = Done r m'
       /\ statics m' = statics m
       /\ files (wld m') = files (wld m)
       /\ trace (wld m') = (evs ++ trace (wld m))%list
       /\ ((r = ESP_ERR_NO_MEM /\ evs = [])
           \/ (r = ESP_OK /\ SdCardManager.parent_dir path = None /\ evs = [])
           \/ exists dir,
                SdCardManager.parent_dir path = Some dir
                /\ ((r = ESP_OK /\ evs = [EvOpendir dir true])
                    \/ (r = ESP_OK /\ evs = [EvMkdir dir true; EvOpendir dir false])
                    \/ (r = ESP_FAIL /\ evs = [EvMkdir dir false; EvOpendir dir false]))).
Proof.
  split; [intros dir; apply parent_dir_spec|].
  destruct m as [s w]. unfold SdCardManager.ensure_dir_exists. run.
  destruct (a_ok (oracle w (clk w))); run.
  2: { do 2 eexists. exists []. repeat split. left. auto. }
  destruct (SdCardManager.parent_dir path) as [dir|] eqn:Ep; run.
  2: { do 2 eexists. exists []. repeat split. right. left. auto. }
  destruct (a_ok (oracle w (S (clk w)))); run.
  - do 2 eexists. exists [EvOpendir dir true]. repeat split.
    right. right. exists dir. auto.
  - destruct (a_ok (oracle w (S (S (clk w))))); run.
    + do 2 eexists. exists [EvMkdir dir true; EvOpendir dir false]. repeat split.
      right. right. exists dir. auto.
    + do 2 eexists. exists [EvMkdir dir false; EvOpendir dir false]. repeat split.
      right. right. exists dir. auto 6.
Qed.

(** ** Initialisation *)

Section InitFacts.

Import SdCardManager.

Lemma sd_card_full_deinit_exact (m : machine statics_t) :
  exists m' unmount_ret free_ret,
    sd_card_full_deinit m = Done ESP_OK m'
    /\ unmounted (statics m')
    /\ g_can_trace_enabled (statics m') = g_can_trace_enabled (statics m)
    /\ trace (wld m')
       = (EvBusFree free_ret :: deinit_events (statics m) unmount_ret ++ trace (wld m))%list
    /\ files (wld m') = files (wld m).
Proof.
  destruct m as [[g mu ca fr fl] w].
  unfold sd_card_full_deinit, sd_card_deinit, deinit_events.
  destruct ca as [c|], mu as [h|]; run.
  - eexists. exists (a_err (oracle w (clk w))). eexists. repeat split.
  - eexists. exists (a_err (oracle w (clk w))). eexists. repeat split.
  - eexists. exists ESP_OK. eexists. repeat split.
  - eexists. exists ESP_OK. eexists. repeat split.
Qed.

(** The files and the CAN trace switch are out of reach of the
    initialisation. *)
Lemma init_attempts_frame remaining : forall attempt ret m,
  returns (init_attempts remaining attempt ret m)
    (fun _ m' => files (wld m') = files (wld m)
                 /\ g_can_trace_enabled (statics m') = g_can_trace_enabled (statics m)).
Proof.
  induction remaining as [|k IH]; intros attempt ret m; [cbn; auto|].
  destruct m as [[g mu ca fr fl] w].
  cbn [init_attempts]. unfold sd_card_full_deinit, sd_card_deinit.
  destruct ca as [c|], mu as [h|]; explore;
    try (cbn; auto; fail);
    (eapply returns_post; [apply IH|]; cbv beta; cbn; intros ? ? [F G]; auto).
Qed.

Lemma sd_card_init_frame (m : machine statics_t) :
  returns (sd_card_init m)
    (fun _ m' => files (wld m') = files (wld m)
                 /\ g_can_trace_enabled (statics m') = g_can_trace_enabled (statics m)).
Proof.
  unfold sd_card_init, returns.
  step as again m0 [-> ->].
  destruct (sd_card_initialized (statics m)).
  - destruct (sd_card_full_deinit_exact m) as (m1 & ur & fr & E & _ & G & _ & F).
    unfold bind at 1. unfold bind at 1. rewrite E. run.
    eapply returns_post; [apply init_attempts_frame|]. cbv beta. cbn.
    intros _ m' [F' G']. split; congruence.
  - unfold bind at 1. cbn [Return].
    eapply returns_post; [apply init_attempts_frame|]. cbv beta. auto.
Qed.

End InitFacts.

(** X4.  Started with the flag clear, [sd_card_init] makes at most three
    attempts, numbered from 1.  Attempt [n] first waits [n] times 300 ms; when
    it gets as far as the mount it asks for a reformat on failure exactly
    when [n > 1], at 8000 kHz when [n = 1] and at 4000 kHz later.  The
    code returned is the result of the last call of [spi_bus_initialize]
    or of the mount.  Started with the flag set, the call first tears
    everything down, frees the bus and waits 200 ms, then proceeds in the
    same way. *)
Theorem init_follows_the_retry_schedule (m : machine SdCardManager.statics_t) :
  exists r m' evs before,
    SdCardManager.sd_card_init m = Done r m'
    /\ trace (wld m') = (evs ++ before ++ trace (wld m))%list
    /\ on_schedule SdCardManager.max_retries 1 (filter paced (rev evs)) = true
    /\ r = or_else ESP_FAIL (last_driver_result evs)
    /\ (SdCardManager.sd_card_initialized (statics m) = false -> before = [])
    /\ (SdCardManager.sd_card_initialized (statics m) = true ->
        exists unmount_ret free_ret,
          before = EvDelay 200 :: EvBusFree free_ret
                     :: deinit_events (statics m) unmount_ret).
Proof.
  unfold SdCardManager.sd_card_init.
  destruct (SdCardManager.sd_card_initialized (statics m)) eqn:Ef.
  - destruct (sd_card_full_deinit_exact m) as (m1 & ur & fr & E & _ & _ & Tr & _).
    unfold bind at 1. cbn [gets]. rewrite Ef.
    unfold bind at 1. unfold bind at 1. rewrite E.
    change (vTaskDelay 200 m1) with (Done tt {| statics := statics m1;
                                                wld := emit (EvDelay 200) (wld m1) |}).
    cbv beta iota.
    destruct (returns_done _ _ (init_attempts_schedule SdCardManager.max_retries 1 ESP_FAIL
                                  {| statics := statics m1;
                                     wld := emit (EvDelay 200) (wld m1) |}))
      as (r & m' & E' & evs & X & S & _ & R).
    exists r, m', evs, (EvDelay 200 :: EvBusFree fr :: deinit_events (statics m) ur).
    split; [exact E'|]. unfold extends in X. cbn in X. rewrite Tr in X.
    split; [exact X|]. repeat split; auto; try discriminate.
    intros _. exists ur, fr. reflexivity.
  - unfold bind at 1. cbn [gets]. rewrite Ef. unfold bind at 1. cbn [Return].
    destruct (returns_done _ _ (init_attempts_schedule SdCardManager.max_retries 1 ESP_FAIL m))
      as (r & m' & E' & evs & X & S & _ & R).
    exists r, m', evs, []. split; [exact E'|]. split; [exact X|].
    repeat split; auto. discriminate.
Qed.


(* ================================================================== *)
(** * What the calls of the manager leave alone *)

Lemma fs_get_del f p q : fs_get (fs_del f p) q = if String.eqb p q then None else fs_get f q.
Proof.
  induction f as [|[p' d] f IH]; cbn.
  - destruct (String.eqb p q); reflexivity.
  - destruct (String.eqb_spec p' p) as [->|Hp].
    + rewrite IH. destruct (String.eqb_spec p q) as [->|Hq]; [reflexivity|].
      cbn. destruct (String.eqb_spec p q); [contradiction | reflexivity].
    + cbn. destruct (String.eqb_spec p' q) as [->|Hq].
      * destruct (String.eqb_spec p q) as [->|]; [contradiction | reflexivity].
      * exact IH.
Qed.

Lemma fs_get_put f p d q :
  fs_get (fs_put f p d) q = if String.eqb p q then Some d else fs_get f q.
Proof.
  unfold fs_put. cbn. destruct (String.eqb_spec p q) as [->|Hq]; [reflexivity|].
  rewrite fs_get_del. destruct (String.eqb_spec p q); [contradiction | reflexivity].
Qed.

Section Frames.

Import SdCardManager.

Lemma untouched_refl {St} ps (m : machine St) : untouched_outside ps m m.
Proof. intros q _. reflexivity. Qed.

Lemma untouched_trans {St} ps (m m1 m2 : machine St) :
  untouched_outside ps m m1 -> untouched_outside ps m1 m2 -> untouched_outside ps m m2.
Proof. intros A B q Hq. rewrite (B q Hq). apply A. exact Hq. Qed.

Lemma untouched_weaken {St} ps ps' (m m' : machine St) :
  incl ps ps' -> untouched_outside ps m m' -> untouched_outside ps' m m'.
Proof. intros I A q Hq. apply A. intros Hin. apply Hq. apply I. exact Hin. Qed.

Lemma untouched_same {St St'} ps (m m' : machine St) (n n' : machine St') :
  files (wld n) = files (wld m) -> files (wld n') = files (wld m') ->
  untouched_outside ps m m' -> untouched_outside ps n n'.
Proof. intros E E' A q Hq. unfold content in *. rewrite E, E'. apply A. exact Hq. Qed.

Lemma settled_refl ps m : settled ps m m.
Proof. split; [apply untouched_refl | auto]. Qed.

Lemma settled_trans ps m m1 m2 : settled ps m m1 -> settled ps m1 m2 -> settled ps m m2.
Proof.
  intros (A & B & C) (A' & B' & C'). split; [eapply untouched_trans; eauto|].
  split; [congruence | auto].
Qed.

Lemma settled_weaken ps ps' m m' : incl ps ps' -> settled ps m m' -> settled ps' m m'.
Proof. intros I (A & B & C). split; [eapply untouched_weaken; eauto | auto]. Qed.

(** A step that changes neither the static variables nor the files. *)
Lemma settled_store ps (m m' : machine statics_t) :
  statics m' = statics m -> files (wld m') = files (wld m) -> settled ps m m'.
Proof.
  intros S F. split.
  - intros q _. unfold content. rewrite F. reflexivity.
  - rewrite S. auto.
Qed.

End Frames.

(** ** What [ESP_OK] from a write means *)

Lemma post_any {St A} (o : outcome St A) (Q : A -> machine St -> Prop) (R : machine St -> Prop) :
  (forall a m, Q a m) -> (forall m, R m) -> post o Q R.
Proof. destruct o; cbn; auto. Qed.

(** Goes past a call whose effect does not matter. *)
Tactic Notation "pass" "as" simple_intropattern(a) simple_intropattern(m) :=
  apply post_bind; apply post_any; [intros a m | intros; exact I].

(** Settles [untouched_outside] between two explicit machines. *)
Ltac frame :=
  let q := fresh "q" in
  let Hq := fresh "Hq" in
  intros q Hq; unfold content;
  cbn [wld files set_files emit tick bump_sem statics];
  repeat (first [rewrite fs_get_put | rewrite fs_get_del];
          match goal with
          | |- context [String.eqb ?p q] =>
              destruct (String.eqb_spec p q) as [<-|];
              [exfalso; apply Hq; cbn; tauto|]
          end);
  reflexivity.

Section WriteFacts.

Import SdCardManager.

Lemma fopen_opened path mode (m : machine statics_t) :
  returns (fopen path mode m)
    (fun f m' =>
       statics m' = statics m
       /\ match f with
          | Some f' =>
              f' = path
              /\ trace (wld m') = EvFopen path mode true :: trace (wld m)
              /\ content m' path
                 = match mode with
                   | mode_w => Some EmptyString
                   | mode_a => Some (text_of (content m path))
                   | mode_r => content m path
                   end
              /\ untouched_outside [path] m m'
          | None => files (wld m') = files (wld m)
          end).
Proof.
  destruct m as [s w]. unfold fopen. run.
  destruct mode; cbn [andb].
  - destruct (a_ok (oracle w (clk w)) && _); run;
      [split; [reflexivity|]; split; [reflexivity|]; split; [reflexivity|];
       split; [reflexivity | frame]
      | split; reflexivity].
  - destruct (a_ok (oracle w (clk w))); run; [|split; reflexivity].
    split; [reflexivity|]. split; [reflexivity|]. split; [reflexivity|].
    split; [|frame].
    unfold content. cbn [wld files set_files]. apply fs_get_put_same.
  - destruct (a_ok (oracle w (clk w))); run; [|split; reflexivity].
    unfold content. cbn [files wld].
    destruct (fs_get (files w) path) as [d|] eqn:E; run;
      (split; [reflexivity|]); (split; [reflexivity|]); (split; [reflexivity|]);
      (split; [|frame]); unfold content; cbn [wld files set_files emit tick].
    + exact E.
    + apply fs_get_put_same.
Qed.




Lemma ensure_dir_exists_store path (m : machine statics_t) :
  returns (ensure_dir_exists path m)
    (fun _ m' => statics m' = statics m /\ files (wld m') = files (wld m)).
Proof.
  destruct m as [s w]. unfold ensure_dir_exists. explore; split; reflexivity.
Qed.


End WriteFacts.

(** ** The reach of every call *)

(** Steps of a proof about what a call leaves alone. *)
Tactic Notation "along" uconstr(L) "as"
    simple_intropattern(a) simple_intropattern(m) simple_intropattern(H) :=
  apply post_bind; eapply post_mono;
  [ apply L | cbv beta; intros a m H | cbv beta; intros m H ].

Ltac store := intros m; destruct m as [s w]; explore; split; reflexivity.

Section Reach.

Import SdCardManager.

Lemma opendir_store p : forall m : machine statics_t,
  returns (opendir p m) (fun _ m' => statics m' = statics m /\ files (wld m') = files (wld m)).
Proof. store. Qed.

Lemma vTaskDelay_store ms : forall m : machine statics_t,
  returns (vTaskDelay ms m)
    (fun _ m' => statics m' = statics m /\ files (wld m') = files (wld m)).
Proof. store. Qed.

Lemma fclose_store p : forall m : machine statics_t,
  returns (fclose p m) (fun _ m' => statics m' = statics m /\ files (wld m') = files (wld m)).
Proof. store. Qed.

Lemma take_mutex_store wait : forall m : machine statics_t,
  post (take_mutex wait m)
    (fun _ m' => statics m' = statics m /\ files (wld m') = files (wld m))
    (fun m' => m' = m).
Proof.
  intros [[g mu ca fr fl] w]. unfold take_mutex. destruct mu as [h|], wait as [t|]; explore;
    try reflexivity; split; reflexivity.
Qed.

Lemma give_mutex_store : forall m : machine statics_t,
  post (give_mutex m)
    (fun _ m' => statics m' = statics m /\ files (wld m') = files (wld m))
    (fun m' => m' = m).
Proof.
  intros [[g mu ca fr fl] w]. unfold give_mutex. destruct mu as [h|]; explore;
    try reflexivity; split; reflexivity.
Qed.

Lemma simple_file_test_reach (m : machine statics_t) :
  returns (simple_file_test m) (fun _ m' => settled ["/sdcard/test.txt"%string] m m').
Proof.
  destruct m as [s w]. unfold simple_file_test.
  explore; (split; [frame | split; [reflexivity | auto]]).
Qed.

Lemma temp_file_test_reach (m : machine statics_t) :
  returns (temp_file_test m) (fun _ m' => settled ["/sdcard/write_test.tmp"%string] m m').
Proof.
  destruct m as [s w]. unfold temp_file_test.
  explore; (split; [frame | split; [reflexivity | auto]]).
Qed.

Lemma mounted_paired s : mounted s -> paired s.
Proof.
  intros (F & Hc & Hm). split; [|auto]. split; intros E; contradiction.
Qed.

Lemma unmounted_paired s : unmounted s -> paired s.
Proof.
  intros (F & Hc & Hm). split; [tauto|]. intros E. congruence.
Qed.

Lemma settled_files ps (m m' : machine statics_t) :
  files (wld m') = files (wld m) ->
  g_can_trace_enabled (statics m') = g_can_trace_enabled (statics m) ->
  paired (statics m') ->
  settled ps m m'.
Proof.
  intros F G P. split; [|auto]. intros q _. unfold content. rewrite F. reflexivity.
Qed.

Lemma sd_card_is_initialized_reach (m : machine statics_t) :
  returns (sd_card_is_initialized m) (fun _ m' => settled [] m m').
Proof.
  destruct m as [[g mu ca fr fl] w]. unfold sd_card_is_initialized.
  destruct fl, ca as [c|], mu as [h|]; explore;
    (split; [frame | split; [reflexivity|]]); unfold paired; cbn; auto.
  intros [A B]. split; [exact A | discriminate].
Qed.

Lemma sd_card_init_reach (m : machine statics_t) :
  returns (sd_card_init m) (fun _ m' => settled [] m m').
Proof.
  pose proof (sd_card_init_post m) as P. pose proof (sd_card_init_frame m) as F.
  destruct (sd_card_init m) as [r m'|m']; [|contradiction].
  cbn in P, F |- *. destruct P as [_ C]. destruct F as [F G].
  apply settled_files; auto.
  destruct C as [[C _]|C]; [apply mounted_paired | apply unmounted_paired]; exact C.
Qed.

Lemma sd_card_deinit_reach (m : machine statics_t) :
  returns (sd_card_deinit m) (fun _ m' => settled [] m m').
Proof.
  destruct m as [[g mu ca fr fl] w]. unfold sd_card_deinit.
  destruct ca as [c|], mu as [h|]; explore;
    (apply settled_files; [reflexivity | reflexivity | apply unmounted_paired; repeat split]).
Qed.

Lemma sd_card_full_deinit_reach (m : machine statics_t) :
  returns (sd_card_full_deinit m) (fun _ m' => settled [] m m').
Proof.
  destruct (sd_card_full_deinit_exact m) as (m' & ur & fr & E & U & G & _ & F).
  rewrite E. cbn. apply settled_files; auto. apply unmounted_paired. exact U.
Qed.

Lemma recover_before_retry_reach retry (m : machine statics_t) :
  post (recover_before_retry retry m) (fun _ m' => settled [] m m') (settled [] m).
Proof.
  unfold recover_before_retry.
  apply post_bind. eapply returns_post; [apply vTaskDelay_store|]. cbv beta. intros x1 m1 H1.
  assert (S1 : settled [] m m1) by (apply settled_store; apply H1).
  apply post_bind. eapply returns_post; [apply sd_card_is_initialized_reach|]. cbv beta.
  intros alive m2 H2.
  assert (S2 : settled [] m m2) by (eapply settled_trans; eauto).
  destruct alive; [exact S2|].
  apply post_bind. eapply post_mono; [apply give_mutex_store | cbv beta | cbv beta].
  2: { intros m3 ->. exact S2. }
  intros x3 m3 H3.
  assert (S3 : settled [] m m3)
    by (eapply settled_trans; [exact S2 | apply settled_store; apply H3]).
  apply post_bind. eapply returns_post; [apply sd_card_init_reach|]. cbv beta.
  intros reinit m4 H4.
  assert (S4 : settled [] m m4) by (eapply settled_trans; eauto).
  destruct (negb (reinit =? ESP_OK)); [exact S4|].
  apply post_bind. eapply post_mono; [apply take_mutex_store | cbv beta | cbv beta].
  2: { intros m5 ->. exact S4. }
  intros taken m5 H5.
  assert (S5 : settled [] m m5)
    by (eapply settled_trans; [exact S4 | apply settled_store; apply H5]).
  destruct taken; exact S5.
Qed.

Lemma fopen_reach path mode (m : machine statics_t) :
  returns (fopen path mode m) (fun _ m' => settled [path] m m').
Proof.
  eapply returns_post; [apply fopen_opened|]. cbv beta.
  intros [f|] m' [S F].
  - destruct F as (_ & _ & _ & U). split; [exact U|]. rewrite S. auto.
  - apply settled_store; assumption.
Qed.

Lemma fprintf_s_reach f data (m : machine statics_t) :
  returns (fprintf_s f data m) (fun _ m' => settled [f] m m').
Proof.
  destruct m as [s w]. unfold fprintf_s, file_append. explore;
    (split; [frame | split; [reflexivity | auto]]).
Qed.

Lemma open_with_retry_reach remaining : forall retry path (m : machine statics_t),
  post (open_with_retry remaining retry path m)
    (fun res m' => settled [path] m m'
                   /\ match res with inr (Some f) => f = path | _ => True end)
    (settled [path] m).
Proof.
  induction remaining as [|k IH]; intros retry path m.
  - cbn. split; [apply settled_refl | exact I].
  - cbn [open_with_retry]. apply post_bind.
    assert (Hearly : post ((if 0 <? retry then recover_before_retry retry else Return None) m)
                       (fun _ m' => settled [] m m') (settled [] m)).
    { destruct (0 <? retry); [apply recover_before_retry_reach | apply settled_refl]. }
    eapply post_mono; [exact Hearly | cbv beta | cbv beta].
    2: { intros m1 H1. eapply settled_weaken; [|exact H1]. intros ? []. }
    intros early m1 H1.
    assert (S1 : settled [path] m m1) by (eapply settled_weaken; [|exact H1]; intros ? []).
    destruct early as [e|]; [cbn; auto|].
    apply post_bind. eapply returns_post; [apply fopen_opened|]. cbv beta.
    intros [f|] m2 [St F].
    + destruct F as (-> & _ & _ & U). cbn. split; [|reflexivity].
      eapply settled_trans; [exact S1|]. split; [exact U|]. rewrite St. auto.
    + eapply post_mono; [apply IH | cbv beta | cbv beta].
      * intros res m3 [S3 R3]. split; [|exact R3].
        eapply settled_trans; [exact S1|]. eapply settled_trans; [|exact S3].
        apply settled_store; assumption.
      * intros m3 S3. eapply settled_trans; [exact S1|]. eapply settled_trans; [|exact S3].
        apply settled_store; assumption.
Qed.

Lemma gets_same {A} (f : statics_t -> A) (m : machine statics_t) :
  returns (gets f m) (fun _ m' => m' = m).
Proof. reflexivity. Qed.

Lemma sd_card_write_file_reach path data (m : machine statics_t) :
  post (sd_card_write_file path data m)
    (fun _ m' => settled [path; "/sdcard/test.txt"; "/sdcard/write_test.tmp"]%string m m')
    (settled [path; "/sdcard/test.txt"; "/sdcard/write_test.tmp"]%string m).
Proof.
  set (ps := [path; "/sdcard/test.txt"; "/sdcard/write_test.tmp"]%string).
  pose proof (settled_refl ps m) as S0.
  unfold sd_card_write_file.
  step by gets_same as flag m1 ->.
  step by gets_same as card m1 ->.
  destruct (negb flag || is_null card); [exact S0|].
  step by gets_same as mutex m1 ->.
  destruct (is_null mutex); [exact S0|].
  along take_mutex_store as taken m1 H1; [|rewrite H1; exact S0].
  assert (S1 : settled ps m m1) by (apply settled_store; apply H1).
  destruct taken; [|exact S1].
  step by ensure_dir_exists_store as dir m2 H2.
  assert (S2 : settled ps m m2)
    by (eapply settled_trans; [exact S1 | apply settled_store; apply H2]).
  destruct (negb (dir =? ESP_OK)).
  { along give_mutex_store as x m3 H3; [|rewrite H3; exact S2].
    eapply settled_trans; [exact S2 | apply settled_store; apply H3]. }
  step by opendir_store as root_dir m3 H3.
  assert (S3 : settled ps m m3)
    by (eapply settled_trans; [exact S2 | apply settled_store; apply H3]).
  destruct (negb root_dir).
  { along give_mutex_store as x m4 H4; [|rewrite H4; exact S3].
    eapply settled_trans; [exact S3 | apply settled_store; apply H4]. }
  apply post_bind. change (closedir m3) with (Done tt m3). cbv beta iota.
  step by simple_file_test_reach as x5 m5 H5.
  assert (S5 : settled ps m m5).
  { eapply settled_trans; [exact S3|]. eapply settled_weaken; [|exact H5].
    intros ? ?; cbn in *; tauto. }
  step by temp_file_test_reach as x6 m6 H6.
  assert (S6 : settled ps m m6).
  { eapply settled_trans; [exact S5|]. eapply settled_weaken; [|exact H6].
    intros ? ?; cbn in *; tauto. }
  along (open_with_retry_reach max_retries 0 path) as opened m7 H7.
  2: { eapply settled_trans; [exact S6|]. eapply settled_weaken; [|exact H7].
       intros ? ?; cbn in *; tauto. }
  destruct H7 as [H7 Hf].
  assert (S7 : settled ps m m7).
  { eapply settled_trans; [exact S6|]. eapply settled_weaken; [|exact H7].
    intros ? ?; cbn in *; tauto. }
  destruct opened as [e | [f|]].
  - exact S7.
  - subst f.
    step by fprintf_s_reach as x8 m8 H8.
    assert (S8 : settled ps m m8).
    { eapply settled_trans; [exact S7|]. eapply settled_weaken; [|exact H8].
      intros ? ?; cbn in *; tauto. }
    step by fclose_store as x9 m9 H9.
    assert (S9 : settled ps m m9)
      by (eapply settled_trans; [exact S8 | apply settled_store; apply H9]).
    along give_mutex_store as x m10 H10; [|rewrite H10; exact S9].
    eapply settled_trans; [exact S9 | apply settled_store; apply H10].
  - along give_mutex_store as x m8 H8; [|rewrite H8; exact S7].
    eapply settled_trans; [exact S7 | apply settled_store; apply H8].
Qed.

Lemma sd_card_append_file_reach path data (m : machine statics_t) :
  post (sd_card_append_file path data m)
    (fun _ m' => settled [path] m m') (settled [path] m).
Proof.
  set (ps := [path]).
  pose proof (settled_refl ps m) as S0.
  unfold sd_card_append_file.
  along take_mutex_store as taken m1 H1; [|rewrite H1; exact S0].
  assert (S1 : settled ps m m1) by (apply settled_store; apply H1).
  destruct taken; [|exact S1].
  step by ensure_dir_exists_store as dir m2 H2.
  assert (S2 : settled ps m m2)
    by (eapply settled_trans; [exact S1 | apply settled_store; apply H2]).
  destruct (negb (dir =? ESP_OK)).
  { along give_mutex_store as x m3 H3; [|rewrite H3; exact S2].
    eapply settled_trans; [exact S2 | apply settled_store; apply H3]. }
  step by fopen_opened as f m3 [St F].
  destruct f as [f|].
  - destruct F as (-> & _ & _ & U).
    assert (S3 : settled ps m m3).
    { eapply settled_trans; [exact S2|]. split; [exact U|]. rewrite St. auto. }
    step by fprintf_s_reach as x4 m4 H4.
    assert (S4 : settled ps m m4) by (eapply settled_trans; eauto).
    step by fclose_store as x5 m5 H5.
    assert (S5 : settled ps m m5)
      by (eapply settled_trans; [exact S4 | apply settled_store; apply H5]).
    along give_mutex_store as x m6 H6; [|rewrite H6; exact S5].
    eapply settled_trans; [exact S5 | apply settled_store; apply H6].
  - assert (S3 : settled ps m m3)
      by (eapply settled_trans; [exact S2 | apply settled_store; assumption]).
    along give_mutex_store as x m4 H4; [|rewrite H4; exact S3].
    eapply settled_trans; [exact S3 | apply settled_store; apply H4].
Qed.

Lemma free_space_probe_reach file (m : machine statics_t) :
  returns (free_space_probe file m) (fun _ m' => settled [file] m m').
Proof.
  destruct m as [s w]. unfold free_space_probe.
  explore; (split; [frame | split; [reflexivity | auto]]).
Qed.

Lemma probe_retries_reach remaining : forall retry file (m : machine statics_t),
  returns (probe_retries remaining retry file m) (fun _ m' => settled [file] m m').
Proof.
  induction remaining as [|k IH]; intros retry file m; [apply settled_refl|].
  cbn [probe_retries]. unfold returns. apply post_bind.
  assert (Hd : returns ((if 0 <? retry then vTaskDelay (50 + retry * 50) else Return tt) m)
                 (fun _ m1 => settled [file] m m1)).
  { destruct (0 <? retry); [|apply settled_refl].
    eapply returns_post; [apply vTaskDelay_store|]. cbv beta. intros _ m1 H1.
    apply settled_store; apply H1. }
  eapply returns_post; [exact Hd|]. cbv beta. intros x1 m1 S1.
  step by free_space_probe_reach as passed m2 H2.
  assert (S2 : settled [file] m m2) by (eapply settled_trans; eauto).
  destruct passed; [exact S2|].
  eapply returns_post; [apply IH|]. cbv beta. intros r m3 H3.
  eapply settled_trans; eauto.
Qed.

Lemma probe_files_reach candidates : forall m : machine statics_t,
  returns (probe_files candidates m) (fun _ m' => settled candidates m m').
Proof.
  induction candidates as [|file rest IH]; intros m; [apply settled_refl|].
  cbn [probe_files]. unfold returns.
  step by probe_retries_reach as passed m1 H1.
  assert (S1 : settled (file :: rest) m m1).
  { eapply settled_weaken; [|exact H1]. intros ? ?; cbn in *; tauto. }
  destruct passed; [exact S1|].
  eapply returns_post; [apply IH|]. cbv beta. intros r m2 H2.
  eapply settled_trans; [exact S1|]. eapply settled_weaken; [|exact H2].
  intros ? ?; cbn in *; tauto.
Qed.

Lemma sd_card_get_info_reach total_bytes free_bytes (m : machine statics_t) :
  returns (sd_card_get_info total_bytes free_bytes m)
    (fun _ m' => settled test_files m m').
Proof.
  unfold sd_card_get_info, returns.
  step by sd_card_is_initialized_reach as alive m1 H1.
  assert (S1 : settled test_files m m1).
  { eapply settled_weaken; [|exact H1]. intros ? []. }
  destruct (negb alive); [exact S1|].
  step by gets_same as card m2 ->.
  destruct free_bytes as [old|]; [|exact S1].
  apply post_bind. step by probe_files_reach as passed m3 H3.
  assert (S3 : settled test_files m m3) by (eapply settled_trans; eauto).
  destruct passed; exact S3.
Qed.

Lemma stability_iteration_reach i (m : machine statics_t) :
  returns (stability_iteration i m) (fun _ m' => settled [stab_test_filename i] m m').
Proof.
  destruct m as [s w]. unfold stability_iteration.
  generalize (stab_test_filename i) as name. intros name.
  explore; (split; [frame | split; [reflexivity | auto]]).
Qed.

Lemma stability_loop_reach remaining : forall i acc (m : machine statics_t),
  returns (stability_loop remaining i acc m)
    (fun _ m' => settled (map stab_test_filename (iterations remaining i)) m m').
Proof.
  induction remaining as [|k IH]; intros i acc m; [apply settled_refl|].
  cbn [stability_loop iterations map]. unfold returns.
  step by stability_iteration_reach as ok m1 H1.
  step by vTaskDelay_store as x2 m2 H2.
  eapply returns_post; [apply IH|]. cbv beta. intros r m3 H3.
  eapply settled_trans; [eapply settled_weaken; [|exact H1]; intros ? ?; cbn in *; tauto|].
  eapply settled_trans; [apply settled_store; apply H2|].
  eapply settled_weaken; [|exact H3]. intros ? ?; cbn in *; tauto.
Qed.

Lemma sd_card_stability_test_reach (m : machine statics_t) :
  returns (sd_card_stability_test m)
    (fun _ m' => settled (map stab_test_filename (iterations 10 0)) m m').
Proof.
  unfold sd_card_stability_test, returns.
  step by gets_same as flag m1 ->. step by gets_same as card m1 ->.
  destruct (negb flag || is_null card); [apply settled_refl|].
  step by stability_loop_reach as n m2 H2. exact H2.
Qed.

End Reach.

Lemma run_call_reach (c : api_call) (m : machine SdCardManager.statics_t) :
  (forall b, c <> call_set_can_trace_enabled b) ->
  post (run_call c m) (fun _ m' => settled (may_touch c) m m') (settled (may_touch c) m).
Proof.
  intros Hc. destruct c; cbn [run_call may_touch].
  - step by sd_card_init_reach as r m' H. exact H.
  - step by sd_card_deinit_reach as r m' H. exact H.
  - step by sd_card_full_deinit_reach as r m' H. exact H.
  - apply post_bind. eapply post_mono; [apply sd_card_write_file_reach | | ]; cbv beta; auto.
  - apply post_bind. eapply post_mono; [apply sd_card_append_file_reach | | ]; cbv beta; auto.
  - exfalso. exact (Hc enabled eq_refl).
  - step by sd_card_is_initialized_reach as r m' H. exact H.
  - step by sd_card_get_info_reach as r m' H. exact H.
  - step by sd_card_stability_test_reach as r m' H. exact H.
Qed.


(** X7.  The CAN trace switch is what [sd_card_set_can_trace_enabled] last
    stored: [sd_card_is_can_trace_enabled] reads it back without changing
    anything, and no other call of the manager changes it, not even a
    teardown or a re-initialisation of the card. *)
Theorem can_trace_switch_is_kept (c : api_call) (m : machine SdCardManager.statics_t) :
  SdCardManager.sd_card_is_can_trace_enabled m
  = Done (SdCardManager.g_can_trace_enabled (statics m)) m
  /\ SdCardManager.g_can_trace_enabled (statics (final (run_call c m)))
     = match c with
       | call_set_can_trace_enabled enabled => enabled
       | _ => SdCardManager.g_can_trace_enabled (statics m)
       end.
Proof.
  split; [reflexivity|].
  assert (H : (forall b, c <> call_set_can_trace_enabled b) ->
              SdCardManager.g_can_trace_enabled (statics (final (run_call c m)))
              = SdCardManager.g_can_trace_enabled (statics m)).
  { intros Hc. pose proof (run_call_reach c m Hc) as P. revert P.
    destruct (run_call c m); cbn; intros P; apply P. }
  destruct c; try (apply H; intros b; discriminate).
  reflexivity.
Qed.

Lemma run_call_paired c m m' :
  run_call c m = Done tt m' -> paired (statics m) -> paired (statics m').
Proof.
  intros E.
  assert (H : (forall b, c <> call_set_can_trace_enabled b) ->
              paired (statics m) -> paired (statics m')).
  { intros Hc. pose proof (run_call_reach c m Hc) as P.
    rewrite E in P. cbn in P. apply P. }
  destruct c; try (apply H; intros b; discriminate).
  cbn in E. apply done_machine in E. subst m'. cbn. auto.
Qed.

(** X8.  In every state the manager reaches from power-up the card handle
    and the mutex exist together: one is NULL exactly when the other is,
    and a set flag comes with both.  So the mutex survives a liveness
    check that clears the flag, and the NULL test on the mutex in
    [sd_card_write_file] can only fire when the card handle is NULL as
    well. *)
Theorem card_and_mutex_exist_together (m : machine SdCardManager.statics_t) :
  reachable m ->
  (SdCardManager.s_card (statics m) = None
   <-> SdCardManager.sd_card_mutex (statics m) = None)
  /\ (SdCardManager.sd_card_initialized (statics m) = true -> mounted (statics m)).
Proof.
  intros R.
  assert (P : paired (statics m)).
  { induction R as [w Hw | c m m' R IH E].
    - cbn. split; [tauto | discriminate].
    - eapply run_call_paired; eauto. }
  destruct P as [A B]. split; [exact A|].
  intros F. split; [exact F|]. split; [auto|].
  intros Hm. apply A in Hm. exact (B F Hm).
Qed.

Lemma card_and_mutex_exist_together_witness :
  reachable healthy_mounted
  /\ ((SdCardManager.s_card (statics healthy_mounted) = None
       <-> SdCardManager.sd_card_mutex (statics healthy_mounted) = None)
      /\ (SdCardManager.sd_card_initialized (statics healthy_mounted) = true ->
          mounted (statics healthy_mounted))).
Proof.
  split; [exact healthy_mounted_reachable|].
  apply card_and_mutex_exist_together. exact healthy_mounted_reachable.
Defined.

(* ================================================================== *)
(** * Writing and appending *)


Section Runs.

Import SdCardManager.



End Runs.







Section FailedWrites.

Import SdCardManager.







End FailedWrites.



(* ================================================================== *)
(** * The capacity query *)

(** The events by which an explicit machine is ahead of another. *)
Ltac prefix_of t' t :=
  lazymatch t' with
  | t => constr:(@nil event)
  | ?e :: ?r => let p := prefix_of r t in constr:(e :: p)
  end.

Ltac find_events :=
  lazymatch goal with
  | |- exists evs, logged evs ?m ?m' /\ _ =>
      let t' := eval cbn [wld trace emit tick set_files bump_sem] in (trace (wld m')) in
      let t := eval cbn [wld trace emit tick set_files bump_sem] in (trace (wld m)) in
      let p := prefix_of t' t in
      exists p; split; [split; reflexivity|]
  end.

Section Probes.

Import SdCardManager.

Lemma free_space_probe_clean file (m : machine statics_t) :
  returns (free_space_probe file m)
    (fun _ m' => exists evs, logged evs m m' /\ cleaned_up evs).
Proof.
  destruct m as [s w]. unfold free_space_probe, cleaned_up.
  explore; find_events; intros name' Hin; cbn in Hin |- *; intuition congruence.
Qed.

Lemma probe_retries_clean remaining : forall retry file (m : machine statics_t),
  returns (probe_retries remaining retry file m)
    (fun _ m' => exists evs, logged evs m m' /\ cleaned_up evs).
Proof.
  induction remaining as [|k IH]; intros retry file m.
  - cbn. exists []. split; [apply logged_refl | intros ? []].
  - cbn [probe_retries]. unfold returns. apply post_bind.
    assert (Hd : returns ((if 0 <? retry then vTaskDelay (50 + retry * 50) else Return tt) m)
                   (fun _ m1 => exists e, logged e m m1 /\ cleaned_up e)).
    { destruct (0 <? retry).
      - eapply returns_post; [apply vTaskDelay_post|]. cbv beta. intros _ m1 L.
        eexists. split; [exact L|]. intros name [H|[]]. discriminate.
      - cbn. exists []. split; [apply logged_refl | intros ? []]. }
    eapply returns_post; [exact Hd|]. cbv beta. intros x1 m1 (e1 & L1 & C1).
    step by free_space_probe_clean as passed m2 (e2 & L2 & C2).
    assert (L12 : logged (e2 ++ e1) m m2) by (eapply logged_trans; eauto).
    assert (C12 : cleaned_up (e2 ++ e1)) by (apply cleaned_up_app; assumption).
    destruct passed; [cbn; eauto|].
    eapply returns_post; [apply IH|]. cbv beta. intros r m3 (e3 & L3 & C3).
    exists (e3 ++ e2 ++ e1)%list. split; [eapply logged_trans; eauto|].
    apply cleaned_up_app; assumption.
Qed.

Lemma probe_files_clean candidates : forall m : machine statics_t,
  returns (probe_files candidates m)
    (fun _ m' => exists evs, logged evs m m' /\ cleaned_up evs).
Proof.
  induction candidates as [|file rest IH]; intros m.
  - cbn. exists []. split; [apply logged_refl | intros ? []].
  - cbn [probe_files]. unfold returns.
    step by probe_retries_clean as passed m1 (e1 & L1 & C1).
    destruct passed; [cbn; eauto|].
    eapply returns_post; [apply IH|]. cbv beta. intros r m2 (e2 & L2 & C2).
    exists (e2 ++ e1)%list. split; [eapply logged_trans; eauto|].
    apply cleaned_up_app; assumption.
Qed.

End Probes.

(** X13.  The edges of [sd_card_get_info].  When the liveness check fails
    the call returns [ESP_ERR_INVALID_STATE] and leaves both out-parameters
    as they were passed.  With [free_bytes] NULL it makes no call of the
    file API beyond the liveness check.  Otherwise every probe file it
    managed to create it also removes, whether the probe passed or not, so
    no probe file is left behind by the call. *)
Theorem get_info_leaves_no_probe_behind (total_bytes free_bytes : option Z)
  (m : machine SdCardManager.statics_t) :
  exists alive m1,
    SdCardManager.sd_card_is_initialized m = Done alive m1
    /\ (alive = false ->
        SdCardManager.sd_card_get_info total_bytes free_bytes m
        = Done (ESP_ERR_INVALID_STATE, total_bytes, free_bytes) m1)
    /\ (alive = true ->
        exists total,
          SdCardManager.sd_card_get_info total_bytes None m = Done (ESP_OK, total, None) m1)
    /\ exists r m' evs,
         SdCardManager.sd_card_get_info total_bytes free_bytes m = Done r m'
         /\ logged evs m1 m'
         /\ cleaned_up evs.
Proof.
  destruct (returns_done _ _ (sd_card_is_initialized_post m)) as (alive & m1 & E & _).
  exists alive, m1. split; [exact E|].
  unfold SdCardManager.sd_card_get_info. run. rewrite E.
  destruct alive; run.
  - split; [discriminate|]. split.
    + intros _. eexists. reflexivity.
    + destruct free_bytes as [old|]; run.
      * destruct (returns_done _ _ (probe_files_clean SdCardManager.test_files m1))
          as (passed & m2 & E2 & evs & L & C).
        destruct m1 as [s1 w1]. cbn [statics wld] in *. rewrite E2.
        destruct passed; run; eauto 6.
      * do 2 eexists. exists []. split; [reflexivity|].
        split; [apply logged_refl | intros ? []].
  - split; [reflexivity|]. split; [discriminate|].
    do 2 eexists. exists []. split; [reflexivity|].
    split; [apply logged_refl | intros ? []].
Qed.

(* ================================================================== *)
(** * The diagnostic test *)

Section Diagnostics.

Import SdCardManager.




End Diagnostics.



(* ================================================================== *)
(** * Further properties of the settings *)

Section Accessors.

Import SettingsConfig.

Lemma nth_array_set (l : list bool) : forall i j v,
  (i < List.length l)%nat ->
  nth j (array_set l i v) false = if Nat.eqb i j then v else nth j l false.
Proof.
  induction l as [|x l IH]; intros i j v Hi; [cbn in Hi; lia|].
  destruct i as [|i], j as [|j]; cbn; try reflexivity.
  apply IH. cbn in Hi. lia.
Qed.

Lemma length_array_set (l : list bool) : forall i v,
  List.length (array_set l i v) = List.length l.
Proof.
  induction l as [|x l IH]; intros i v; [reflexivity|].
  destruct i; cbn; [reflexivity | rewrite IH; reflexivity].
Qed.

Lemma screen1_arc_get_returns H j (m : machine statics_t) :
  exists b, screen1_arc_get_enabled H j m = Done b m.
Proof.
  unfold screen1_arc_get_enabled.
  destruct ((j <? 0) || (Z.of_nat (SCREEN1_ARCS_COUNT H) <=? j)); eexists; reflexivity.
Qed.

End Accessors.

(** X15.  The arc switches of the first screen.  An index outside
    [0, SCREEN1_ARCS_COUNT) is refused: the setter does nothing and the
    getter answers false.  For an index inside, on an array that has at
    least that many entries, the getter reads back what the setter
    stored, every other arc of the screen reads as before, and the arcs
    of the second screen, the two switches and the sensitivity are
    untouched.  Neither function reaches the card. *)
Theorem arc_switch_reads_back (H : SettingsConfig.settings_config_h)
  (i : Z) (v : bool) (m : machine SettingsConfig.statics_t) :
  (SettingsConfig.SCREEN1_ARCS_COUNT H
   <= List.length (SettingsConfig.screen1_arcs_enabled
                     (SettingsConfig.current_settings (statics m))))%nat ->
  exists m',
    SettingsConfig.screen1_arc_set_enabled H i v m = Done tt m'
    /\ wld m' = wld m
    /\ SettingsConfig.sd_card_mutex (statics m') = SettingsConfig.sd_card_mutex (statics m)
    /\ SettingsConfig.with_screen1_arcs
         (SettingsConfig.screen1_arcs_enabled (SettingsConfig.current_settings (statics m)))
         (SettingsConfig.current_settings (statics m'))
       = SettingsConfig.current_settings (statics m)
    /\ (0 <= i < Z.of_nat (SettingsConfig.SCREEN1_ARCS_COUNT H) ->
        SettingsConfig.screen1_arc_get_enabled H i m' = Done v m')
    /\ (i < 0 \/ Z.of_nat (SettingsConfig.SCREEN1_ARCS_COUNT H) <= i ->
        m' = m /\ SettingsConfig.screen1_arc_get_enabled H i m = Done false m)
    /\ (forall j, j <> i ->
        exists b,
          SettingsConfig.screen1_arc_get_enabled H j m = Done b m
          /\ SettingsConfig.screen1_arc_get_enabled H j m' = Done b m').
Proof.
  intros Hlen. destruct m as [[cur mu] w]. cbn [statics SettingsConfig.current_settings] in Hlen.
  unfold SettingsConfig.screen1_arc_set_enabled, SettingsConfig.screen1_arc_get_enabled.
  destruct (Z.ltb_spec i 0) as [Hneg|Hpos]; cbn [orb].
  - eexists. split; [reflexivity|]. split; [reflexivity|]. split; [reflexivity|].
    split; [destruct cur; reflexivity|]. split; [lia|]. split; [auto|].
    intros j _.
    destruct (screen1_arc_get_returns H j
                {| statics := {| SettingsConfig.current_settings := cur;
                                 SettingsConfig.sd_card_mutex := mu |};
                   wld := w |}) as [b E].
    exists b. split; exact E.
  - destruct (Z.leb_spec (Z.of_nat (SettingsConfig.SCREEN1_ARCS_COUNT H)) i) as [Hbig|Hin].
    + eexists. split; [reflexivity|]. split; [reflexivity|]. split; [reflexivity|].
      split; [destruct cur; reflexivity|]. split; [lia|]. split; [auto|].
      intros j _.
    destruct (screen1_arc_get_returns H j
                {| statics := {| SettingsConfig.current_settings := cur;
                                 SettingsConfig.sd_card_mutex := mu |};
                   wld := w |}) as [b E].
      exists b. split; exact E.
    + run. eexists. split; [reflexivity|]. split; [reflexivity|]. split; [reflexivity|].
      split; [destruct cur; reflexivity|]. split; [|split; [lia|]].
      * intros _. cbn. rewrite nth_array_set by lia. rewrite Nat.eqb_refl. reflexivity.
      * intros j Hj.
        destruct ((j <? 0) || (Z.of_nat (SettingsConfig.SCREEN1_ARCS_COUNT H) <=? j)) eqn:Ej.
        -- exists false. split; reflexivity.
        -- apply orb_false_iff in Ej. destruct Ej as [Ej1 Ej2].
           apply Z.ltb_ge in Ej1. apply Z.leb_gt in Ej2.
           eexists. split; [reflexivity|]. cbn. rewrite nth_array_set by lia.
           destruct (Nat.eqb_spec (Z.to_nat i) (Z.to_nat j)) as [E|]; [|reflexivity].
           exfalso. apply Hj. lia.
Qed.

Lemma arc_switch_reads_back_witness :
  (SettingsConfig.SCREEN1_ARCS_COUNT example_header
   <= List.length (SettingsConfig.screen1_arcs_enabled
                     (SettingsConfig.current_settings (statics first_boot_machine))))%nat
  /\ exists m',
       SettingsConfig.screen1_arc_set_enabled example_header 1 false first_boot_machine
       = Done tt m'
       /\ wld m' = wld first_boot_machine
       /\ SettingsConfig.sd_card_mutex (statics m')
          = SettingsConfig.sd_card_mutex (statics first_boot_machine)
       /\ SettingsConfig.with_screen1_arcs
            (SettingsConfig.screen1_arcs_enabled
               (SettingsConfig.current_settings (statics first_boot_machine)))
            (SettingsConfig.current_settings (statics m'))
          = SettingsConfig.current_settings (statics first_boot_machine)
       /\ (0 <= 1 < Z.of_nat (SettingsConfig.SCREEN1_ARCS_COUNT example_header) ->
           SettingsConfig.screen1_arc_get_enabled example_header 1 m' = Done false m')
       /\ (1 < 0 \/ Z.of_nat (SettingsConfig.SCREEN1_ARCS_COUNT example_header) <= 1 ->
           m' = first_boot_machine
           /\ SettingsConfig.screen1_arc_get_enabled example_header 1 first_boot_machine
              = Done false first_boot_machine)
       /\ (forall j, j <> 1 ->
           exists b,
             SettingsConfig.screen1_arc_get_enabled example_header j first_boot_machine
             = Done b first_boot_machine
             /\ SettingsConfig.screen1_arc_get_enabled example_header j m' = Done b m').
Proof.
  assert (Hlen : (SettingsConfig.SCREEN1_ARCS_COUNT example_header
                  <= List.length (SettingsConfig.screen1_arcs_enabled
                       (SettingsConfig.current_settings (statics first_boot_machine))))%nat).
  { vm_compute. lia. }
  split; [exact Hlen|].
  exact (arc_switch_reads_back example_header 1 false first_boot_machine Hlen).
Defined.

(** X16.  [settings_reset_to_defaults] works in memory only: no file, no
    mutex and no event is involved, so the settings file keeps the old
    values until the next save.  Afterwards the two switches read as the
    header's defaults, every arc of both screens with an index in range
    reads as enabled (and as disabled outside the range), and the record
    passes [settings_validate] exactly when the default sensitivity lies
    between the header's minimum and maximum. *)
Theorem reset_restores_the_defaults (H : SettingsConfig.settings_config_h)
  (m : machine SettingsConfig.statics_t) :
  exists m',
    SettingsConfig.settings_reset_to_defaults H m = Done tt m'
    /\ wld m' = wld m
    /\ SettingsConfig.sd_card_mutex (statics m') = SettingsConfig.sd_card_mutex (statics m)
    /\ SettingsConfig.demo_mode_get_enabled m'
       = Done (SettingsConfig.DEFAULT_DEMO_MODE_ENABLED H) m'
    /\ SettingsConfig.screen3_get_enabled m'
       = Done (SettingsConfig.DEFAULT_SCREEN3_ENABLED H) m'
    /\ (forall i,
          SettingsConfig.screen1_arc_get_enabled H i m'
          = Done ((0 <=? i) && (i <? Z.of_nat (SettingsConfig.SCREEN1_ARCS_COUNT H))) m')
    /\ (forall i,
          SettingsConfig.screen2_arc_get_enabled H i m'
          = Done ((0 <=? i) && (i <? Z.of_nat (SettingsConfig.SCREEN2_ARCS_COUNT H))) m')
    /\ (SettingsConfig.settings_validate H
          (Some (SettingsConfig.current_settings (statics m'))) = true
        <-> in_range H (SettingsConfig.DEFAULT_TOUCH_SENSITIVITY H)).
Proof.
  assert (Hnth : forall n i, 0 <= i < Z.of_nat n -> nth (Z.to_nat i) (repeat true n) false = true).
  { intros n i Hi. apply nth_repeat_lt. lia. }
  destruct m as [[cur mu] w]. eexists. split; [reflexivity|]. cbn.
  split; [reflexivity|]. split; [reflexivity|]. split; [reflexivity|]. split; [reflexivity|].
  split; [|split].
  - intros i. unfold SettingsConfig.screen1_arc_get_enabled.
    destruct (Z.ltb_spec i 0); destruct (Z.leb_spec 0 i); try lia; cbn [orb andb];
      [reflexivity|].
    destruct (Z.leb_spec (Z.of_nat (SettingsConfig.SCREEN1_ARCS_COUNT H)) i);
      destruct (Z.ltb_spec i (Z.of_nat (SettingsConfig.SCREEN1_ARCS_COUNT H))); try lia;
      [reflexivity|].
    cbn. rewrite Hnth by lia. reflexivity.
  - intros i. unfold SettingsConfig.screen2_arc_get_enabled.
    destruct (Z.ltb_spec i 0); destruct (Z.leb_spec 0 i); try lia; cbn [orb andb];
      [reflexivity|].
    destruct (Z.leb_spec (Z.of_nat (SettingsConfig.SCREEN2_ARCS_COUNT H)) i);
      destruct (Z.ltb_spec i (Z.of_nat (SettingsConfig.SCREEN2_ARCS_COUNT H))); try lia;
      [reflexivity|].
    cbn. rewrite Hnth by lia. reflexivity.
  - unfold in_range.
    destruct (Z.ltb_spec (SettingsConfig.DEFAULT_TOUCH_SENSITIVITY H)
                (SettingsConfig.MIN_TOUCH_SENSITIVITY H));
      destruct (Z.ltb_spec (SettingsConfig.MAX_TOUCH_SENSITIVITY H)
                  (SettingsConfig.DEFAULT_TOUCH_SENSITIVITY H));
      cbn; split; intros; try discriminate; try reflexivity; lia.
Qed.

(** X17.  The accessors of the two switches work in memory only.  What
    [demo_mode_set_enabled] or [screen3_set_enabled] stored is what the
    matching getter reads; each setter leaves the other switch, the
    sensitivity and the arcs alone; [demo_mode_test_toggle] inverts what
    the getter reads, and two toggles restore the record.  None of them
    reaches the card or changes the file, so a change is lost at the next
    [settings_load] unless it was saved. *)
Theorem switch_accessors_read_back (enabled : bool) (m : machine SettingsConfig.statics_t) :
  (exists m',
     SettingsConfig.demo_mode_set_enabled enabled m = Done tt m'
     /\ wld m' = wld m
     /\ SettingsConfig.demo_mode_get_enabled m' = Done enabled m'
     /\ SettingsConfig.with_demo_mode
          (SettingsConfig.demo_mode_enabled (SettingsConfig.current_settings (statics m)))
          (SettingsConfig.current_settings (statics m'))
        = SettingsConfig.current_settings (statics m))
  /\ (exists m',
        SettingsConfig.screen3_set_enabled enabled m = Done tt m'
        /\ wld m' = wld m
        /\ SettingsConfig.screen3_get_enabled m' = Done enabled m'
        /\ SettingsConfig.with_screen3
             (SettingsConfig.screen3_enabled (SettingsConfig.current_settings (statics m)))
             (SettingsConfig.current_settings (statics m'))
           = SettingsConfig.current_settings (statics m))
  /\ (exists m1,
        SettingsConfig.demo_mode_test_toggle m = Done tt m1
        /\ SettingsConfig.demo_mode_get_enabled m1
           = Done (negb (SettingsConfig.demo_mode_enabled
                           (SettingsConfig.current_settings (statics m)))) m1
        /\ SettingsConfig.demo_mode_test_toggle m1 = Done tt m).
Proof.
  destruct m as [[[lv dm s3 a1 a2] mu] w].
  split; [|split]; eexists; cbn; repeat split.
  destruct dm; reflexivity.
Qed.


Section LoadFacts.

Import SettingsConfig.

Lemma settings_save_frame rec (m : machine statics_t) :
  exists m',
    settings_save rec m = Done tt m'
    /\ statics m' = statics m
    /\ untouched_outside [settings_path] m m'
    /\ next_sem (wld m') = next_sem (wld m).
Proof.
  destruct m as [[cur mu] w]. destruct rec as [r|].
  2: { eexists. split; [reflexivity|]. split; [reflexivity|].
       split; [apply untouched_refl | reflexivity]. }
  unfold settings_save, SdCard.s_example_write_file.
  rewrite settings_to_json_text. unfold fprintf_fmt. rewrite json_text_no_percent.
  change "/sdcard/settings.cfg"%string with settings_path.
  destruct mu as [h|]; explore;
    (eexists; split; [reflexivity|]; split; [reflexivity|]; split; [frame | reflexivity]).
Qed.

Lemma settings_load_codes H (m : machine statics_t) :
  exists r m',
    settings_load H m = Done r m'
    /\ (r = ESP_OK \/ r = ESP_ERR_NO_MEM \/ r = ESP_ERR_TIMEOUT
        \/ r = ESP_FAIL \/ r = ESP_ERR_NOT_FOUND)
    /\ (r <> ESP_ERR_NOT_FOUND -> files (wld m') = files (wld m))
    /\ untouched_outside [settings_path] m m'
    /\ (forall h, sd_card_mutex (statics m) = Some h ->
                  sd_card_mutex (statics m') = Some h
                  /\ next_sem (wld m') = next_sem (wld m))
    /\ (r = ESP_ERR_NO_MEM -> sd_card_mutex (statics m') = None).
Proof.
  destruct m as [[cur mu] w]. unfold settings_load, load_defaults.
  change "/sdcard/settings.cfg"%string with settings_path.
  destruct mu as [h|]; explore.
  all: try (do 2 eexists; split; [reflexivity|]; split; [auto 7|];
            split; [intros _; reflexivity|]; split; [frame|];
            split; [intros h' Hh; try discriminate; injection Hh as <-; split; reflexivity
                   | intros; try discriminate; reflexivity]).
  all: match goal with
       | |- context [settings_save ?rec ?M] =>
           destruct (settings_save_frame rec M) as (m' & E & S & U & N); rewrite E
       end;
       exists ESP_ERR_NOT_FOUND, m'; split; [reflexivity|]; split; [auto 7|];
       split; [congruence|];
       (split; [intros q Hq; rewrite (U q Hq); reflexivity|]);
       rewrite S, N; cbn;
       (split; [intros h' Hh; try discriminate; injection Hh as <-; split; reflexivity
               | discriminate]).
Qed.

End LoadFacts.

(** X19.  [settings_load] returns one of five codes: [ESP_OK],
    [ESP_ERR_NO_MEM] (no mutex could be created), [ESP_ERR_TIMEOUT] (the
    mutex was not granted within a second), [ESP_FAIL] (the file was read
    but lacks a key) and [ESP_ERR_NOT_FOUND] (the file could not be
    opened).  Only in the last case does it write: with every other code
    the files are exactly as before, so a settings file that cannot be
    parsed is kept and is reported again at the next load.  It never
    changes a file other than the settings file.  A mutex that exists is
    used again and no new one is allocated. *)
Theorem load_writes_only_when_the_file_is_missing (H : SettingsConfig.settings_config_h)
  (m : machine SettingsConfig.statics_t) :
  exists r m',
    SettingsConfig.settings_load H m = Done r m'
    /\ (r = ESP_OK \/ r = ESP_ERR_NO_MEM \/ r = ESP_ERR_TIMEOUT
        \/ r = ESP_FAIL \/ r = ESP_ERR_NOT_FOUND)
    /\ (r <> ESP_ERR_NOT_FOUND -> files (wld m') = files (wld m))
    /\ untouched_outside [settings_path] m m'
    /\ (forall h, SettingsConfig.sd_card_mutex (statics m) = Some h ->
                  SettingsConfig.sd_card_mutex (statics m') = Some h
                  /\ next_sem (wld m') = next_sem (wld m))
    /\ (r = ESP_ERR_NO_MEM -> SettingsConfig.sd_card_mutex (statics m') = None).
Proof. exact (settings_load_codes H m). Qed.

(** ** The parser *)

Lemma prefix_occurs key s :
  String.prefix key s = true <-> exists rest, s = (key ++ rest)%string.
Proof.
  revert s. induction key as [|c key IH]; intros s; cbn.
  - split; [intros _; exists s; reflexivity | intros _; destruct s; reflexivity].
  - destruct s as [|d s].
    + split; [discriminate | intros [rest E]; discriminate].
    + cbn. destruct (ascii_dec c d) as [->|Hn].
      * rewrite IH. split; intros [rest E]; exists rest; [rewrite E; reflexivity|].
        injection E as E. exact E.
      * split; [discriminate|]. intros [rest E]. injection E as E1 E2. congruence.
Qed.

Lemma strstr_found s : forall key t,
  strstr s key = Some t ->
  exists before, s = (before ++ t)%string /\ String.prefix key t = true.
Proof.
  induction s as [|c s IH]; intros key t; cbn [strstr].
  - destruct (String.prefix key EmptyString) eqn:E; [|discriminate].
    intros X. injection X as <-. exists EmptyString. auto.
  - destruct (String.prefix key (String c s)) eqn:E.
    + intros X. injection X as <-. exists EmptyString. auto.
    + intros X. destruct (IH _ _ X) as (before & -> & P).
      exists (String c before). auto.
Qed.

Lemma strstr_occurs s key : strstr s key <> None <-> occurs key s.
Proof.
  split.
  - destruct (strstr s key) as [t|] eqn:E; [|congruence]. intros _.
    destruct (strstr_found _ _ _ E) as (before & -> & P).
    apply prefix_occurs in P. destruct P as [rest ->]. exists before, rest. reflexivity.
  - intros (before & after & ->).
    induction before as [|c before IH].
    + cbn [append]. rewrite strstr_here; [discriminate|].
      apply prefix_occurs. exists after. reflexivity.
    + cbn [append]. cbn [strstr].
      destruct (String.prefix key (String c (before ++ key ++ after))); [discriminate|].
      exact IH.
Qed.

Lemma clamp_int_range z : INT_MIN <= clamp_int z <= INT_MAX.
Proof. unfold clamp_int, INT_MIN, INT_MAX. lia. Qed.

Lemma atoi_range s : INT_MIN <= atoi s <= INT_MAX.
Proof.
  unfold atoi. destruct (skip_space s) as [|c r].
  - unfold INT_MIN, INT_MAX. lia.
  - destruct (Ascii.eqb c "-"); [apply clamp_int_range|].
    destruct (Ascii.eqb c "+"); apply clamp_int_range.
Qed.

(** X20.  [settings_from_json] succeeds exactly when each of the three keys
    occurs somewhere in the text, in any order and whatever follows them:
    a value that is not a number or not a boolean does not make the parse
    fail.  When it fails the record is left as it was.  When it succeeds
    the sensitivity is an [int] (whatever the text held, the conversion
    saturates) and the arc arrays are the ones the record had before. *)
Theorem parse_needs_only_the_three_keys (json : string)
  (cur : SettingsConfig.touch_settings_t) :
  (fst (SettingsConfig.settings_from_json json cur) = true
   <-> occurs SettingsConfig.sens_key json
       /\ occurs SettingsConfig.demo_key json
       /\ occurs SettingsConfig.s3_key json)
  /\ (fst (SettingsConfig.settings_from_json json cur) = false ->
      snd (SettingsConfig.settings_from_json json cur) = cur)
  /\ SettingsConfig.screen1_arcs_enabled (snd (SettingsConfig.settings_from_json json cur))
     = SettingsConfig.screen1_arcs_enabled cur
  /\ SettingsConfig.screen2_arcs_enabled (snd (SettingsConfig.settings_from_json json cur))
     = SettingsConfig.screen2_arcs_enabled cur
  /\ (fst (SettingsConfig.settings_from_json json cur) = true ->
      INT_MIN <= SettingsConfig.touch_sensitivity_level
                   (snd (SettingsConfig.settings_from_json json cur)) <= INT_MAX).
Proof.
  pose proof (strstr_occurs json SettingsConfig.sens_key) as H1.
  pose proof (strstr_occurs json SettingsConfig.demo_key) as H2.
  pose proof (strstr_occurs json SettingsConfig.s3_key) as H3.
  unfold SettingsConfig.settings_from_json.
  destruct (strstr json SettingsConfig.sens_key) as [p1|];
    destruct (strstr json SettingsConfig.demo_key) as [p2|];
    destruct (strstr json SettingsConfig.s3_key) as [p3|]; cbn [fst snd].
  1: { split; [|split; [discriminate|]].
       - split; [intros _|reflexivity].
         split; [apply H1; discriminate|].
         split; [apply H2; discriminate | apply H3; discriminate].
       - cbn. split; [reflexivity|]. split; [reflexivity|]. intros _. apply atoi_range. }
  all: split; [|split; [reflexivity|]; split; [reflexivity|];
                split; [reflexivity | discriminate]].
  all: split; [discriminate|]; intros (O1 & O2 & O3);
       apply H1 in O1; apply H2 in O2; apply H3 in O3; congruence.
Qed.

(** ** The printer *)

Lemma strlen_string_take n s : (strlen (string_take n s) <= n)%nat.
Proof.
  unfold strlen. revert s. induction n as [|n IH]; intros s; [destruct s; cbn; lia|].
  destruct s as [|c s]; cbn; [lia|]. specialize (IH s). lia.
Qed.

Lemma json_text_length r : (strlen (json_text r) <= 69)%nat.
Proof.
  unfold json_text. rewrite !strlen_append.
  pose proof (itoa_length (SettingsConfig.touch_sensitivity_level r)).
  pose proof (bool_text_length (SettingsConfig.demo_mode_enabled r)).
  pose proof (bool_text_length (SettingsConfig.screen3_enabled r)).
  change (strlen "{") with 1%nat. change (strlen SettingsConfig.sens_key) with 14%nat.
  change (strlen ",") with 1%nat. change (strlen SettingsConfig.demo_key) with 12%nat.
  change (strlen SettingsConfig.s3_key) with 18%nat. change (strlen "}") with 1%nat.
  lia.
Qed.

(** X21.  [settings_to_json] never writes past its buffer: for a buffer of
    any size the text it leaves is shorter than the buffer.  The full text
    has at most 69 characters, so in the 256-byte buffer of
    [settings_save], and in any buffer of at least 70 bytes, nothing is
    cut off, and the 255 bytes [settings_load] reads always hold the whole
    text.  The text holds no conversion character, so [fprintf] prints it
    as it stands.  Parsed back, it gives the sensitivity and the feature
    flag of the record; the demo mode comes back as set when either switch
    is set, because the search for the word true runs on to the end of the
    text. *)
Theorem settings_text_fits_and_parses_back (r cur : SettingsConfig.touch_settings_t)
  (buffer_size : nat) :
  INT_MIN <= SettingsConfig.touch_sensitivity_level r <= INT_MAX ->
  (strlen (SettingsConfig.settings_to_json r buffer_size) <= buffer_size - 1)%nat
  /\ (70 <= buffer_size ->
      SettingsConfig.settings_to_json r buffer_size = json_text r)%nat
  /\ (strlen (json_text r) <= 69)%nat
  /\ has_percent (json_text r) = false
  /\ SettingsConfig.settings_from_json (SettingsConfig.settings_to_json r 256) cur
     = (true,
        {| SettingsConfig.touch_sensitivity_level := SettingsConfig.touch_sensitivity_level r;
           SettingsConfig.demo_mode_enabled :=
             SettingsConfig.demo_mode_enabled r || SettingsConfig.screen3_enabled r;
           SettingsConfig.screen3_enabled := SettingsConfig.screen3_enabled r;
           SettingsConfig.screen1_arcs_enabled := SettingsConfig.screen1_arcs_enabled cur;
           SettingsConfig.screen2_arcs_enabled := SettingsConfig.screen2_arcs_enabled cur |}).
Proof.
  intros Hz. split; [apply strlen_string_take|]. split.
  - intros Hn. unfold SettingsConfig.settings_to_json, snprintf.
    apply string_take_all. fold (json_text r).
    pose proof (json_text_length r). lia.
  - split; [apply json_text_length|]. split; [apply json_text_no_percent|].
    rewrite settings_to_json_text. apply settings_from_json_text. exact Hz.
Qed.

Lemma settings_text_fits_and_parses_back_witness :
  INT_MIN <= SettingsConfig.touch_sensitivity_level record_demo_off <= INT_MAX
  /\ ((strlen (SettingsConfig.settings_to_json record_demo_off 256) <= 256 - 1)%nat
      /\ (70 <= 256 ->
          SettingsConfig.settings_to_json record_demo_off 256 = json_text record_demo_off)%nat
      /\ (strlen (json_text record_demo_off) <= 69)%nat
      /\ has_percent (json_text record_demo_off) = false
      /\ SettingsConfig.settings_from_json
           (SettingsConfig.settings_to_json record_demo_off 256) example_defaults
         = (true,
            {| SettingsConfig.touch_sensitivity_level :=
                 SettingsConfig.touch_sensitivity_level record_demo_off;
               SettingsConfig.demo_mode_enabled :=
                 SettingsConfig.demo_mode_enabled record_demo_off
                 || SettingsConfig.screen3_enabled record_demo_off;
               SettingsConfig.screen3_enabled := SettingsConfig.screen3_enabled record_demo_off;
               SettingsConfig.screen1_arcs_enabled :=
                 SettingsConfig.screen1_arcs_enabled example_defaults;
               SettingsConfig.screen2_arcs_enabled :=
                 SettingsConfig.screen2_arcs_enabled example_defaults |})).
Proof.
  assert (Hz : INT_MIN <= SettingsConfig.touch_sensitivity_level record_demo_off <= INT_MAX).
  { vm_compute. split; discriminate. }
  split; [exact Hz|].
  exact (settings_text_fits_and_parses_back record_demo_off example_defaults 256 Hz).
Defined.

(* ================================================================== *)
(** * Properties of [main/sd_card.c] *)



(** X23.  [sd_cs_set_high] and [sd_cs_set_low] never leave the I2C device
    they add on the bus.  Without the bus of the display driver they
    return [ESP_FAIL] and call no driver.  When the device cannot be added
    they return the driver's code and transmit nothing.  Otherwise they
    transmit one byte to address 0x38 (0x10 to deselect the card, 0x00 to
    select it), remove the device whatever the transmission returned, and
    return the result of the transmission.  So in every run the number of
    devices removed equals the number of devices added. *)
Theorem chip_select_releases_the_device (b : SdCard.board) :
  (exists r b' l,
     SdCard.sd_cs_set_high b = (r, b')
     /\ calls_since b b' l
     /\ count_calls is_add_ok l = count_calls is_rm l
     /\ ((SdCard.i2c_bus b = false /\ r = ESP_FAIL /\ l = [])
         \/ (r <> ESP_OK /\ l = [SdCard.CallAddDevice 56 100000 r])
         \/ l = [SdCard.CallRmDevice 56; SdCard.CallTransmit 56 16 r;
                 SdCard.CallAddDevice 56 100000 ESP_OK]))
  /\ (exists r b' l,
        SdCard.sd_cs_set_low b = (r, b')
        /\ calls_since b b' l
        /\ count_calls is_add_ok l = count_calls is_rm l
        /\ ((SdCard.i2c_bus b = false /\ r = ESP_FAIL /\ l = [])
            \/ (r <> ESP_OK /\ l = [SdCard.CallAddDevice 56 100000 r])
            \/ l = [SdCard.CallRmDevice 56; SdCard.CallTransmit 56 0 r;
                    SdCard.CallAddDevice 56 100000 ESP_OK])).
Proof.
  destruct b as [bus ans n cs]. unfold calls_since, count_calls.
  split.
  - unfold SdCard.sd_cs_set_high. cbv [SdCard.bind_b SdCard.display_get_i2c_bus_handle
      SdCard.i2c_master_bus_add_device SdCard.i2c_master_transmit SdCard.unit_b
      SdCard.i2c_master_bus_rm_device SdCard.answer_b SdCard.call_b
      SdCard.i2c_bus SdCard.answers SdCard.asked SdCard.calls].
    destruct bus; cbn [negb].
    + destruct (Z.eqb_spec (ans n) ESP_OK) as [E|E]; cbn [negb].
      * do 2 eexists.
        exists [SdCard.CallRmDevice 56; SdCard.CallTransmit 56 16 (ans (S n));
                SdCard.CallAddDevice 56 100000 ESP_OK].
        split; [reflexivity|]. split; [rewrite E; reflexivity|].
        split; [reflexivity | auto].
      * do 2 eexists. exists [SdCard.CallAddDevice 56 100000 (ans n)].
        split; [reflexivity|]. split; [reflexivity|]. split; [|auto].
        cbn. destruct (Z.eqb_spec (ans n) ESP_OK); [contradiction | reflexivity].
    + do 2 eexists. exists []. split; [reflexivity|]. split; [reflexivity|].
      split; [reflexivity | auto].
  - unfold SdCard.sd_cs_set_low. cbv [SdCard.bind_b SdCard.display_get_i2c_bus_handle
      SdCard.i2c_master_bus_add_device SdCard.i2c_master_transmit SdCard.unit_b
      SdCard.i2c_master_bus_rm_device SdCard.answer_b SdCard.call_b
      SdCard.i2c_bus SdCard.answers SdCard.asked SdCard.calls].
    destruct bus; cbn [negb].
    + destruct (Z.eqb_spec (ans n) ESP_OK) as [E|E]; cbn [negb].
      * do 2 eexists.
        exists [SdCard.CallRmDevice 56; SdCard.CallTransmit 56 0 (ans (S n));
                SdCard.CallAddDevice 56 100000 ESP_OK].
        split; [reflexivity|]. split; [rewrite E; reflexivity|].
        split; [reflexivity | auto].
      * do 2 eexists. exists [SdCard.CallAddDevice 56 100000 (ans n)].
        split; [reflexivity|]. split; [reflexivity|]. split; [|auto].
        cbn. destruct (Z.eqb_spec (ans n) ESP_OK); [contradiction | reflexivity].
    + do 2 eexists. exists []. split; [reflexivity|]. split; [reflexivity|].
      split; [reflexivity | auto].
Qed.

(** The calls by which an explicit board is ahead of another. *)
Ltac calls_prefix t' t :=
  lazymatch t' with
  | t => constr:(@nil SdCard.board_call)
  | ?e :: ?r => let p := calls_prefix r t in constr:(e :: p)
  end.

(** X24.  [waveshare_sd_card_init] reports [ESP_OK] or [ESP_FAIL] and no
    other code: whatever the SPI or the FAT driver answered is replaced by
    [ESP_FAIL].  It reports [ESP_OK] exactly when the bus initialisation
    and the mount both returned [ESP_OK]; an SPI bus that was already
    initialised counts as a failure here.  The mount is attempted only
    after a successful bus initialisation, with the reformat switch of the
    build, five files and an allocation unit of 16 KiB, and directly after
    a delay of 10 ms.  What the two chip-select calls return is ignored;
    every I2C device they add is removed again. *)
Theorem board_bring_up_reports_ok_or_fail (format_if_mount_failed : bool)
  (b : SdCard.board) :
  exists r b' l,
    SdCard.waveshare_sd_card_init format_if_mount_failed b = (r, b')
    /\ calls_since b b' l
    /\ (r = ESP_OK \/ r = ESP_FAIL)
    /\ (r = ESP_OK
        <-> In (SdCard.CallBusInitialize ESP_OK) l
            /\ In (SdCard.CallMount format_if_mount_failed 5 16384 ESP_OK) l)
    /\ (forall f x y ret,
          In (SdCard.CallMount f x y ret) l ->
          In (SdCard.CallBusInitialize ESP_OK) l
          /\ exists rest,
               l = SdCard.CallMount format_if_mount_failed 5 16384 ret
                     :: SdCard.CallDelay 10 :: rest)
    /\ count_calls is_add_ok l = count_calls is_rm l
    /\ (forall a byte ret,
          In (SdCard.CallTransmit a byte ret) l -> a = 56 /\ (byte = 16 \/ byte = 0)).
Proof.
  destruct b as [bus ans n cs]. unfold calls_since, count_calls.
  unfold SdCard.waveshare_sd_card_init, SdCard.sd_cs_set_high, SdCard.sd_cs_set_low.
  cbv [SdCard.bind_b SdCard.display_get_i2c_bus_handle SdCard.spi_bus_initialize_b
      SdCard.vTaskDelay_b SdCard.esp_vfs_fat_sdspi_mount_b
      SdCard.i2c_master_bus_add_device SdCard.i2c_master_transmit SdCard.unit_b
      SdCard.i2c_master_bus_rm_device SdCard.answer_b SdCard.call_b
      SdCard.i2c_bus SdCard.answers SdCard.asked SdCard.calls].
  change (16 * 1024) with 16384.
  destruct bus; cbn [negb];
    repeat (match goal with
            | |- context [negb (?x =? ESP_OK)] =>
                destruct (Z.eqb_spec x ESP_OK); cbn [negb]
            end);
    (do 2 eexists;
     match goal with
     | |- exists l, (_, {| SdCard.calls := ?t' |}) = _ /\ _ =>
         let p := calls_prefix t' cs in exists p
     end;
     split; [reflexivity|]; split; [reflexivity|]; split; [auto|]).
  all: (split; [cbn; intuition (try discriminate; try congruence)|]).
  all: (split;
     [ intros f x y ret Hin; cbn in Hin |- *;
       intuition (try discriminate; try congruence);
       match goal with
       | E : SdCard.CallMount _ _ _ _ = SdCard.CallMount _ _ _ _ |- _ =>
           injection E as <- <- <- <-; eexists; reflexivity
       end |]).
  all: (split;
       [ cbn;
         repeat match goal with
                | E : ?x = ESP_OK |- context [?x =? ESP_OK] =>
                    rewrite (proj2 (Z.eqb_eq x ESP_OK) E)
                | E : ?x <> ESP_OK |- context [?x =? ESP_OK] =>
                    rewrite (proj2 (Z.eqb_neq x ESP_OK) E)
                end;
         reflexivity |]).
  all: intros a byte ret Hin; cbn in Hin;
       intuition (try discriminate; try congruence);
       match goal with
       | E : SdCard.CallTransmit _ _ _ = SdCard.CallTransmit _ _ _ |- _ =>
           injection E as <- <- <-; auto
       end.
Qed.

(* ================================================================== *)
(** * Properties of [main/can_websocket.c] *)

(** X25.  [update_websocket_can_data] keeps readings only while the demo
    mode is on.  With the demo mode on, the six readings are stored,
    reduced to the width of their fields, and marked valid; what
    [get_can_data] then reads is what was passed whenever the values fit
    their fields.  With the demo mode off, whatever was passed is dropped:
    all readings are set to zero and marked not valid.  The call changes
    no setting, no counter and nothing outside the memory.  Directly
    after an update [broadcast_can_data] has nothing to do: its counter
    of simulated readings moves only while the demo mode is on and no
    reading was stored. *)
Theorem readings_are_kept_only_in_demo_mode
  (rpm map tps wastegate target_boost tcu_status : Z)
  (m : machine CanWebsocket.statics_t) :
  exists m',
    CanWebsocket.update_websocket_can_data rpm map tps wastegate target_boost tcu_status m
    = Done tt m'
    /\ wld m' = wld m
    /\ CanWebsocket.settings (statics m') = CanWebsocket.settings (statics m)
    /\ CanWebsocket.data_handler_demo_counter (statics m')
       = CanWebsocket.data_handler_demo_counter (statics m)
    /\ CanWebsocket.broadcast_demo_counter (statics m')
       = CanWebsocket.broadcast_demo_counter (statics m)
    /\ CanWebsocket.get_can_data m'
       = Done (if demo_mode_of (statics m)
               then {| CanWebsocket.map_pressure := map mod 2 ^ 16;
                       CanWebsocket.wastegate_pos := wastegate mod 2 ^ 8;
                       CanWebsocket.tps_position := tps mod 2 ^ 8;
                       CanWebsocket.engine_rpm := rpm mod 2 ^ 16;
                       CanWebsocket.target_boost := target_boost mod 2 ^ 16;
                       CanWebsocket.tcu_status := tcu_status mod 2 ^ 8;
                       CanWebsocket.data_valid := true |}
               else no_readings) m'
    /\ CanWebsocket.broadcast_can_data m' = Done tt m'
    /\ (demo_mode_of (statics m) = true ->
        0 <= rpm < 2 ^ 16 -> 0 <= map < 2 ^ 16 -> 0 <= target_boost < 2 ^ 16 ->
        0 <= tps < 2 ^ 8 -> 0 <= wastegate < 2 ^ 8 -> 0 <= tcu_status < 2 ^ 8 ->
        CanWebsocket.g_can_data (statics m')
        = {| CanWebsocket.map_pressure := map;
             CanWebsocket.wastegate_pos := wastegate;
             CanWebsocket.tps_position := tps;
             CanWebsocket.engine_rpm := rpm;
             CanWebsocket.target_boost := target_boost;
             CanWebsocket.tcu_status := tcu_status;
             CanWebsocket.data_valid := true |}).
Proof.
  destruct m as [[[[lv dm s3 a1 a2] mu] d hc bc] w].
  unfold CanWebsocket.update_websocket_can_data, CanWebsocket.broadcast_can_data,
    CanWebsocket.demo_mode_get_enabled, CanWebsocket.in_settings,
    SettingsConfig.demo_mode_get_enabled, CanWebsocket.get_can_data, demo_mode_of,
    CanWebsocket.uint16_t, CanWebsocket.uint8_t.
  destruct dm; cbn.
  - eexists. split; [reflexivity|]. cbn. repeat split.
    intros _ ? ? ? ? ? ?. rewrite !Z.mod_small by assumption. reflexivity.
  - eexists. split; [reflexivity|]. cbn. repeat split. discriminate.
Qed.

Lemma can_json_whole d : CanWebsocket.can_json d = can_text d.
Proof.
  unfold CanWebsocket.can_json, snprintf. apply string_take_all.
  fold (can_text d). unfold can_text. rewrite !strlen_append.
  pose proof (itoa_length (CanWebsocket.map_pressure d)).
  pose proof (itoa_length (CanWebsocket.wastegate_pos d)).
  pose proof (itoa_length (CanWebsocket.tps_position d)).
  pose proof (itoa_length (CanWebsocket.engine_rpm d)).
  pose proof (itoa_length (CanWebsocket.target_boost d)).
  pose proof (itoa_length (CanWebsocket.tcu_status d)).
  change (strlen "{") with 1%nat. change (strlen ",") with 1%nat.
  change (strlen "}") with 1%nat.
  change (strlen (CanWebsocket.json_key "map_pressure")) with 15%nat.
  change (strlen (CanWebsocket.json_key "wastegate_pos")) with 16%nat.
  change (strlen (CanWebsocket.json_key "tps_position")) with 15%nat.
  change (strlen (CanWebsocket.json_key "engine_rpm")) with 13%nat.
  change (strlen (CanWebsocket.json_key "target_boost")) with 15%nat.
  change (strlen (CanWebsocket.json_key "tcu_status")) with 13%nat.
  cbn [Nat.sub]. lia.
Qed.

(** X26.  The data endpoint.  A request that is not a GET gets [ESP_FAIL]
    and no response, and nothing changes.  A GET always gets [ESP_OK] and
    one response.  With the demo mode off the response is the fixed text
    of zero readings, whatever readings are stored.  With the demo mode on
    and valid readings it is the text of the stored readings, which always
    fits the 256-byte buffer and is never cut.  With the demo mode on and
    no valid readings the handler's own counter goes up by one and the
    response holds the simulated readings for the new count.  The handler
    never changes the stored readings, the settings or the counter of the
    broadcast.  The counter is an [int]; the statement is for a counter
    that has room for one more. *)
Theorem data_endpoint_answers (method : CanWebsocket.http_method)
  (m : machine CanWebsocket.statics_t) :
  0 <= CanWebsocket.data_handler_demo_counter (statics m) < INT_MAX ->
  exists r sent m',
    CanWebsocket.data_handler method m = Done (r, sent) m'
    /\ wld m' = wld m
    /\ CanWebsocket.settings (statics m') = CanWebsocket.settings (statics m)
    /\ CanWebsocket.g_can_data (statics m') = CanWebsocket.g_can_data (statics m)
    /\ CanWebsocket.broadcast_demo_counter (statics m')
       = CanWebsocket.broadcast_demo_counter (statics m)
    /\ match method with
       | CanWebsocket.HTTP_other => r = ESP_FAIL /\ sent = None /\ m' = m
       | CanWebsocket.HTTP_GET =>
           r = ESP_OK
           /\ if demo_mode_of (statics m) then
                if CanWebsocket.data_valid (CanWebsocket.g_can_data (statics m)) then
                  sent = Some (CanWebsocket.BodyText
                                 (can_text (CanWebsocket.g_can_data (statics m))))
                  /\ m' = m
                else
                  sent = Some (CanWebsocket.BodyDemo
                                 (CanWebsocket.demo_data
                                    (CanWebsocket.data_handler_demo_counter (statics m) + 1)))
                  /\ CanWebsocket.data_handler_demo_counter (statics m')
                     = CanWebsocket.data_handler_demo_counter (statics m) + 1
              else
                sent = Some (CanWebsocket.BodyText CanWebsocket.zero_json) /\ m' = m
       end.
Proof.
  intros _. destruct m as [[[[lv dm s3 a1 a2] mu] d hc bc] w].
  unfold CanWebsocket.data_handler, CanWebsocket.demo_mode_get_enabled,
    CanWebsocket.in_settings, SettingsConfig.demo_mode_get_enabled, demo_mode_of.
  destruct method; [|do 3 eexists; split; [reflexivity|]; cbn; repeat split].
  destruct dm; cbn -[CanWebsocket.can_json can_text].
  - destruct (CanWebsocket.data_valid d) eqn:Ev; cbn -[CanWebsocket.can_json can_text].
    + do 3 eexists. split; [reflexivity|]. cbn -[CanWebsocket.can_json can_text].
      rewrite can_json_whole. repeat split.
    + do 3 eexists. split; [reflexivity|]. cbn. repeat split.
  - do 3 eexists. split; [reflexivity|]. cbn. repeat split.
Qed.

Lemma data_endpoint_answers_witness :
  0 <= CanWebsocket.data_handler_demo_counter (statics can_boot) < INT_MAX
  /\ exists r sent m',
       CanWebsocket.data_handler CanWebsocket.HTTP_GET can_boot = Done (r, sent) m'
       /\ wld m' = wld can_boot
       /\ CanWebsocket.settings (statics m') = CanWebsocket.settings (statics can_boot)
       /\ CanWebsocket.g_can_data (statics m') = CanWebsocket.g_can_data (statics can_boot)
       /\ CanWebsocket.broadcast_demo_counter (statics m')
          = CanWebsocket.broadcast_demo_counter (statics can_boot)
       /\ r = ESP_OK
       /\ if demo_mode_of (statics can_boot) then
            if CanWebsocket.data_valid (CanWebsocket.g_can_data (statics can_boot)) then
              sent = Some (CanWebsocket.BodyText
                             (can_text (CanWebsocket.g_can_data (statics can_boot))))
              /\ m' = can_boot
            else
              sent = Some (CanWebsocket.BodyDemo
                             (CanWebsocket.demo_data
                                (CanWebsocket.data_handler_demo_counter (statics can_boot) + 1)))
              /\ CanWebsocket.data_handler_demo_counter (statics m')
                 = CanWebsocket.data_handler_demo_counter (statics can_boot) + 1
          else
            sent = Some (CanWebsocket.BodyText CanWebsocket.zero_json) /\ m' = can_boot.
Proof.
  split; [vm_compute; split; [discriminate|reflexivity]|].
  apply (data_endpoint_answers CanWebsocket.HTTP_GET can_boot).
  vm_compute. split; [discriminate|reflexivity].
Defined.

Lemma demo_data_cycle c :
  0 <= c -> CanWebsocket.demo_data c = CanWebsocket.demo_data (c mod 100).
Proof.
  intros Hc. unfold CanWebsocket.demo_data.
  rewrite (Z.rem_small (c mod 100) 100) by (apply Z.mod_pos_bound; lia).
  rewrite Z.rem_mod_nonneg by lia. reflexivity.
Qed.

Lemma below_100 (P : Z -> bool) :
  forallb P (map Z.of_nat (seq 0 100)) = true ->
  forall c, 0 <= c < 100 -> P c = true.
Proof.
  intros H c Hc. rewrite forallb_forall in H. apply H.
  apply in_map_iff. exists (Z.to_nat c). split; [lia|].
  apply in_seq. lia.
Qed.

Lemma demo_cycle_checked :
  forallb (fun c =>
             plausible (CanWebsocket.demo_data c)
             && Z.eqb (CanWebsocket.demo_tcu_status (CanWebsocket.demo_data c))
                  (if 96 <=? c then 1 else 0)
             && Bool.eqb
                  (Qeq_bool (CanWebsocket.demo_map_pressure (CanWebsocket.demo_data c)) 150)
                  (c =? 50))
    (map Z.of_nat (seq 0 100)) = true.
Proof. vm_compute. reflexivity. Qed.

(** X27.  The simulated readings of the data endpoint, for every count the
    handler can reach.  The five readings, computed in single precision,
    stay within the ranges the generator aims at: the pressure in
    120..150, the wastegate in 45..70, the throttle in 35..65, the engine
    speed in 2500..3000 and the target boost in 180..200.  The readings
    repeat every 100 requests.  The status flag is 1 on the last four
    counts of each hundred and 0 on the others, and the pressure reaches
    its top of 150 exactly at the fiftieth. *)
Theorem simulated_readings_stay_on_the_scales (counter : Z) :
  0 <= counter ->
  plausible (CanWebsocket.demo_data counter) = true
  /\ CanWebsocket.demo_data (counter + 100) = CanWebsocket.demo_data counter
  /\ (CanWebsocket.demo_tcu_status (CanWebsocket.demo_data counter) = 1
      <-> 96 <= counter mod 100)
  /\ (CanWebsocket.demo_tcu_status (CanWebsocket.demo_data counter) = 0
      <-> counter mod 100 < 96)
  /\ (Qeq (CanWebsocket.demo_map_pressure (CanWebsocket.demo_data counter)) 150%Q
      <-> counter mod 100 = 50).
Proof.
  intros Hc.
  assert (Hm : 0 <= counter mod 100 < 100) by (apply Z.mod_pos_bound; lia).
  pose proof (below_100 _ demo_cycle_checked _ Hm) as H. cbv beta in H.
  rewrite <- (demo_data_cycle counter Hc) in H.
  apply andb_prop in H. destruct H as [H Hpeak].
  apply andb_prop in H. destruct H as [Hrange Htcu].
  apply Z.eqb_eq in Htcu. apply Bool.eqb_prop in Hpeak.
  split; [exact Hrange|]. split.
  - rewrite (demo_data_cycle (counter + 100)) by lia.
    rewrite (demo_data_cycle counter Hc).
    replace ((counter + 100) mod 100) with (counter mod 100); [reflexivity|].
    symmetry. replace (counter + 100) with (counter + 1 * 100) by lia.
    apply Z.mod_add. lia.
  - assert (Hp : Qeq (CanWebsocket.demo_map_pressure (CanWebsocket.demo_data counter)) 150%Q
                 <-> counter mod 100 = 50).
    { rewrite <- Qeq_bool_iff, Hpeak. apply Z.eqb_eq. }
    rewrite Htcu. destruct (Z.leb_spec 96 (counter mod 100));
      (split; [|split]; [split; intros; lia ..|exact Hp]).
Qed.

Lemma simulated_readings_stay_on_the_scales_witness :
  0 <= 196
  /\ plausible (CanWebsocket.demo_data 196) = true
  /\ CanWebsocket.demo_data (196 + 100) = CanWebsocket.demo_data 196
  /\ (CanWebsocket.demo_tcu_status (CanWebsocket.demo_data 196) = 1 <-> 96 <= 196 mod 100)
  /\ (CanWebsocket.demo_tcu_status (CanWebsocket.demo_data 196) = 0 <-> 196 mod 100 < 96)
  /\ (Qeq (CanWebsocket.demo_map_pressure (CanWebsocket.demo_data 196)) 150%Q
      <-> 196 mod 100 = 50).
Proof.
  split; [lia|]. apply (simulated_readings_stay_on_the_scales 196). lia.
Defined.
